(** * Evidence-gated address resolution (gemini.js): a shallow embedding

    The routing module of the CivicReport demo resolves a free-text civic
    issue into a destination email address through a cascade of calls to a
    text-completion service, and drafts an email.  This development embeds
    the module's functions ([callGemini], [isValidEmailFormat],
    [checkDomainMX], [extractLocation], [extractTopic],
    [isDepartmentRelevant], [generateEmailDraft], [reviseEmailDraft]) and
    proves the properties its specification states about them.

    Conventions.
    - A JavaScript string is a [string]; each [ascii] stands for one UTF-16
      code unit below 256 (the Latin-1 range).  Strings with higher code
      units are outside the model; the one the source itself writes, the dash
      of an error message, stands as its bytes, and nothing inspects it.
    - A JavaScript number is a [JSNumber]: a rational, NaN or an infinity.
      Rounding of binary floating point is not modelled.
    - The values the service and the resolver send, and the [location] a
      caller passes, are untyped: a [JSValue].  The [description], the fields
      of a draft under revision and [hasPhoto] are a string and a boolean, as
      the screens pass them.
    - The network ([fetch]), the random generator ([Math.random]) and the
      clock ([setTimeout]) are an environment [Env] that answers each call,
      and every call is recorded in a chronological trace.
    - Built-ins of the language runtime that the module calls but whose
      algorithm is not part of it ([JSON.parse], number formatting, string to
      number conversion) are the fields of a [Host].
    - [console.log] is not modelled. *)

From Stdlib Require Import List String Ascii Bool Arith ZArith QArith Lia Lqa.
From Stdlib Require Import DecimalString.
Import ListNotations.
Close Scope Q_scope.
Open Scope string_scope.
Open Scope nat_scope.

Set Implicit Arguments.
Set Warnings "-register-all".

(* ================================================================== *)
(** ** Strings *)

Module Str.

(** Code unit of a character. *)
Definition code (c : ascii) : nat := nat_of_ascii c.

(** The JavaScript WhiteSpace and LineTerminator code units below 256: TAB,
    LF, VT, FF, CR, SPACE and NO-BREAK SPACE.  This is the class [\s] and the
    set [String.prototype.trim] removes. *)
Definition isWhitespace (c : ascii) : bool :=
  let n := code c in
  ((9 <=? n) && (n <=? 13)) || (n =? 32) || (n =? 160).

(** [String.prototype.toLowerCase] on one Latin-1 code unit: A-Z, and the
    accented capitals U+00C0-U+00DE except the multiplication sign U+00D7. *)
Definition lowerChar (c : ascii) : ascii :=
  let n := code c in
  if ((65 <=? n) && (n <=? 90)) || ((192 <=? n) && (n <=? 222) && negb (n =? 215))
  then ascii_of_nat (n + 32) else c.

Fixpoint toLowerCase (s : string) : string :=
  match s with
  | EmptyString => EmptyString
  | String c t => String (lowerChar c) (toLowerCase t)
  end.

(** [hay.includes(needle)]: [needle] occurs in [hay] as a contiguous
    substring. *)
Fixpoint includes (needle hay : string) : bool :=
  prefix needle hay ||
  match hay with
  | EmptyString => false
  | String _ t => includes needle t
  end.

(** [s.split("@")[1]]: the text between the first and the second [@] (or
    the end); [None] ([undefined]) when [s] has no [@]. *)
Fixpoint upToAt (s : string) : string :=
  match s with
  | EmptyString => EmptyString
  | String c t => if Ascii.eqb c "@" then EmptyString else String c (upToAt t)
  end.

Fixpoint splitAt1 (s : string) : option string :=
  match s with
  | EmptyString => None
  | String c t => if Ascii.eqb c "@" then Some (upToAt t) else splitAt1 t
  end.

(** [s.trim()]. *)
Fixpoint trimStart (s : string) : string :=
  match s with
  | EmptyString => EmptyString
  | String c t => if isWhitespace c then trimStart t else s
  end.

Fixpoint trimEnd (s : string) : string :=
  match s with
  | EmptyString => EmptyString
  | String c t =>
      match trimEnd t with
      | EmptyString => if isWhitespace c then EmptyString else String c EmptyString
      | r => String c r
      end
  end.

Definition trim (s : string) : string := trimEnd (trimStart s).

(** Case-insensitive test that [s] starts with [```json]. *)
Definition startsWithJsonFence (s : string) : bool :=
  match s with
  | String "`" (String "`" (String "`" (String j (String s' (String o (String n _)))))) =>
      Ascii.eqb (lowerChar j) "j" && Ascii.eqb (lowerChar s') "s" &&
      Ascii.eqb (lowerChar o) "o" && Ascii.eqb (lowerChar n) "n"
  | _ => false
  end.

(** [s.replace(/```json\s*/gi, "")].  [skip] counts the code units of the
    current match still to drop; [ws] says that the whitespace run of a match
    is being consumed. *)
Fixpoint removeJsonFences (skip : nat) (ws : bool) (s : string) : string :=
  match s with
  | EmptyString => EmptyString
  | String c t =>
      match skip with
      | S k => removeJsonFences k ws t
      | O =>
          if ws && isWhitespace c then removeJsonFences 0 true t
          else if startsWithJsonFence s then removeJsonFences 6 true t
          else String c (removeJsonFences 0 false t)
      end
  end.

(** [s.replace(/```/g, "")]. *)
Fixpoint removeFences (skip : nat) (s : string) : string :=
  match s with
  | EmptyString => EmptyString
  | String c t =>
      match skip with
      | S k => removeFences k t
      | O => if prefix "```" s then removeFences 2 t
             else String c (removeFences 0 t)
      end
  end.

(** [s.match(/\{[\s\S]*\}/)]: the text from the first [{] through the last
    [}], when the last [}] comes after the first [{]. *)
Fixpoint fromFirstOpen (s : string) : option string :=
  match s with
  | EmptyString => None
  | String c t => if Ascii.eqb c "{" then Some s else fromFirstOpen t
  end.

Fixpoint throughLastClose (s : string) : option string :=
  match s with
  | EmptyString => None
  | String c t =>
      match throughLastClose t with
      | Some r => Some (String c r)
      | None => if Ascii.eqb c "}" then Some (String c EmptyString) else None
      end
  end.

Definition matchBraces (s : string) : option string :=
  match fromFirstOpen s with
  | Some s' => throughLastClose s'
  | None => None
  end.

(** Every code unit of [s] satisfies [p]. *)
Fixpoint all (p : ascii -> bool) (s : string) : bool :=
  match s with
  | EmptyString => true
  | String c t => p c && all p t
  end.

(** Number of occurrences of [c] in [s]. *)
Fixpoint count (c : ascii) (s : string) : nat :=
  match s with
  | EmptyString => 0
  | String c' t => (if Ascii.eqb c c' then 1 else 0) + count c t
  end.

(** Decimal text of an integer, as a template literal prints it. *)
Definition ofZ (z : Z) : string := NilZero.string_of_int (Z.to_int z).

End Str.

(* ================================================================== *)
(** ** Regular expressions

    [isValidEmailFormat] tests its argument against a regular expression
    anchored at both ends.  Expressions are matched with Brzozowski
    derivatives; [Lang] is their meaning. *)

Module Regex.

Inductive regex : Type :=
| Void : regex
| Eps : regex
| Class (p : ascii -> bool) : regex
| Cat (r s : regex) : regex
| Alt (r s : regex) : regex
| Star (r : regex) : regex.

Definition Plus (r : regex) : regex := Cat r (Star r).
Definition Chr (c : ascii) : regex := Class (Ascii.eqb c).

Fixpoint nullable (r : regex) : bool :=
  match r with
  | Void => false
  | Eps => true
  | Class _ => false
  | Cat r s => nullable r && nullable s
  | Alt r s => nullable r || nullable s
  | Star _ => true
  end.

Fixpoint deriv (a : ascii) (r : regex) : regex :=
  match r with
  | Void => Void
  | Eps => Void
  | Class p => if p a then Eps else Void
  | Cat r s =>
      if nullable r then Alt (Cat (deriv a r) s) (deriv a s)
      else Cat (deriv a r) s
  | Alt r s => Alt (deriv a r) (deriv a s)
  | Star r => Cat (deriv a r) (Star r)
  end.

Fixpoint matches (r : regex) (w : list ascii) : bool :=
  match w with
  | [] => nullable r
  | a :: w' => matches (deriv a r) w'
  end.

(** [re.test(s)] for an expression of the form [/^r$/]. *)
Definition test (r : regex) (s : string) : bool :=
  matches r (list_ascii_of_string s).

Inductive Lang : regex -> list ascii -> Prop :=
| LEps : Lang Eps []
| LClass p a : p a = true -> Lang (Class p) [a]
| LCat r s u v : Lang r u -> Lang s v -> Lang (Cat r s) (u ++ v)
| LAltL r s u : Lang r u -> Lang (Alt r s) u
| LAltR r s u : Lang s u -> Lang (Alt r s) u
| LStarNil r : Lang (Star r) []
| LStarCons r u v : Lang r u -> Lang (Star r) v -> Lang (Star r) (u ++ v).

End Regex.

(* ================================================================== *)
(** ** JavaScript values *)

Inductive JSNumber : Type :=
| Finite (q : Q)
| NaN
| Infinity (negative : bool).

(** A value as [JSON.parse] or [response.json()] produces it, or
    [undefined].  An object is the list of its own properties. *)
Inductive JSValue : Type :=
| JUndefined
| JNull
| JBool (b : bool)
| JNum (n : JSNumber)
| JStr (s : string)
| JArr (elems : list JSValue)
| JObj (fields : list (string * JSValue)).

(** What a [throw] carries.  [Thrown m] is an [Error] whose [message] is [m];
    it also stands for the reason with which a promise of the platform
    ([fetch], [response.text()], [response.json()]) rejects.  [TypeError] is
    raised by the language itself when a
    property of [null] or [undefined] is read or a non-function is called;
    its message names the expression and differs between engines.
    [OutOfFuel] is the model's own: it marks a recursion cut by its bound,
    and [callGemini_total] shows that [callGemini] never produces it. *)
Inductive Error : Type :=
| Thrown (message : string)
| TypeError (what : string)
| OutOfFuel.

Inductive Outcome (A : Type) : Type :=
| Ok (a : A)
| Throw (e : Error).
Arguments Ok {A} a.
Arguments Throw {A} e.

(** Built-ins of the runtime. *)
Record Host : Type := {
  (** [JSON.parse]: the value, or the message of the [SyntaxError]. *)
  JSON_parse : string -> string + JSValue;
  (** [Number.prototype.toString] *)
  Number_toString : JSNumber -> string;
  (** [ToNumber] applied to a string *)
  String_toNumber : string -> JSNumber
}.

Definition numIsZero (n : JSNumber) : bool :=
  match n with
  | Finite q => Qeq_bool q 0
  | _ => false
  end.

Definition numIsPositive (n : JSNumber) : bool :=
  match n with
  | Finite q => negb (Qle_bool q 0)
  | NaN => false
  | Infinity negative => negb negative
  end.

(** [ToBoolean]. *)
Definition truthy (v : JSValue) : bool :=
  match v with
  | JUndefined | JNull => false
  | JBool b => b
  | JNum NaN => false
  | JNum n => negb (numIsZero n)
  | JStr s => negb (String.eqb s "")
  | JArr _ | JObj _ => true
  end.

(** [a || b]. *)
Definition or_else (a b : JSValue) : JSValue := if truthy a then a else b.

Definition nullish (v : JSValue) : bool :=
  match v with
  | JUndefined | JNull => true
  | _ => false
  end.

(** [typeof v === "number"]. *)
Definition isNumber (v : JSValue) : bool :=
  match v with
  | JNum _ => true
  | _ => false
  end.

Fixpoint lookup (k : string) (fields : list (string * JSValue)) : JSValue :=
  match fields with
  | [] => JUndefined
  | (k', v) :: rest => if String.eqb k k' then v else lookup k rest
  end.

Definition numOfNat (n : nat) : JSValue := JNum (Finite (inject_Z (Z.of_nat n))).

(** [v.name] for a receiver that is neither [null] nor [undefined].  [name]
    ranges over the identifiers of the source, none of which is an array
    index or a method of a prototype; [length] is the one that strings and
    arrays have by themselves. *)
Definition getProp (v : JSValue) (name : string) : JSValue :=
  match v with
  | JObj fields => lookup name fields
  | JArr elems => if String.eqb name "length" then numOfNat (List.length elems) else JUndefined
  | JStr s => if String.eqb name "length" then numOfNat (String.length s) else JUndefined
  | _ => JUndefined
  end.

(** [v.name]. *)
Definition get (v : JSValue) (name : string) : Outcome JSValue :=
  if nullish v then Throw (TypeError name) else Ok (getProp v name).

(** [v?.name]. *)
Definition optGet (v : JSValue) (name : string) : JSValue :=
  if nullish v then JUndefined else getProp v name.

(** [v?.[0]]. *)
Definition optFirst (v : JSValue) : JSValue :=
  match v with
  | JArr (x :: _) => x
  | JStr (String c _) => JStr (String c EmptyString)
  | JObj fields => lookup "0" fields
  | _ => JUndefined
  end.

(** [v === "s"]. *)
Definition isString (s : string) (v : JSValue) : bool :=
  match v with
  | JStr s' => String.eqb s' s
  | _ => false
  end.

(** [v === 0]. *)
Definition isZero (v : JSValue) : bool :=
  match v with
  | JNum n => numIsZero n
  | _ => false
  end.

(* ================================================================== *)
(** ** Requests, environment and effects *)

(** A prompt is a template literal of the source instantiated with values.
    The module never inspects the text of a prompt, so a prompt is
    represented by its template and the interpolated values. *)
Inductive Prompt : Type :=
| GeoPrompt (latitude longitude : JSValue)
    (** [generateEmailDraft], reverse geocoding; both printed with [toFixed(4)] *)
| LocationPrompt (description : string)
    (** [extractLocation] *)
| TopicPrompt (description : string)
    (** [extractTopic] *)
| TopicSpecificPrompt (jurisdiction : string) (topic : JSValue)
    (** [findTopicSpecificEmail], PASS A *)
| AgencyPrompt (jurisdiction : string) (topic : JSValue)
    (** [findAgencyEmail], PASS B *)
| GeneralPrompt (jurisdiction : string)
    (** [findGeneralEmail], PASS C *)
| GuessPrompt (jurisdiction : string) (topic : JSValue)
    (** [generateEmailDraft], last resort *)
| BodyPrompt (description jurisdiction : string) (agency : JSValue) (hasPhoto : bool)
    (** [generateEmailDraft], step 5; [agency] is
        [emailResult.agency_name || "City Services"] *)
| RevisePrompt (currentTo currentSubject currentBody suggestion : string)
    (** [reviseEmailDraft] *)
| FixPrompt (prompt : Prompt)
    (** [callGemini]: the instruction to return only JSON, a blank line and
        then the prompt that was sent *).

(** The prompt a re-prompt was derived from. *)
Fixpoint basePrompt (p : Prompt) : Prompt :=
  match p with
  | FixPrompt q => basePrompt q
  | _ => p
  end.

(** The two uses of [fetch]: the POST to [GEMINI_URL] whose body holds the
    prompt, the fixed [generationConfig] and, when [tools] is set,
    [tools: [{ google_search: {} }]]; and the GET of a DNS-over-HTTPS URL
    under [AbortSignal.timeout(timeout_ms)]. *)
Inductive Request : Type :=
| GeminiPost (prompt : Prompt) (tools : bool)
| DnsGet (url : string) (timeout_ms : Z).

(** How a promise of the platform settles: with a value, or rejected with
    an error of the given message. *)
Inductive Settled (A : Type) : Type :=
| Resolved (a : A)
| Rejected (message : string).
Arguments Resolved {A} a.
Arguments Rejected {A} message.

(** What the module reads of a [Response]: [status], the promise of
    [text()] and the promise of [json()]. *)
Record Response : Type := {
  status : Z;
  text : Settled string;
  json : Settled JSValue
}.

(** [response.ok] *)
Definition ok (r : Response) : bool := ((200 <=? status r) && (status r <=? 299))%Z.

(** The environment answers the [n]-th call of [fetch] (resolving with a
    response or rejecting, as on a network failure or an aborted request)
    and the [n]-th call of [Math.random]. *)
Record Env : Type := {
  fetch : nat -> Request -> Settled Response;
  random : nat -> Q
}.

Inductive Event : Type :=
| EvFetch (req : Request)
| EvSetTimeout (ms : Q).

Record State : Type := {
  fetches : nat;
  randoms : nat;
  trace : list Event
}.

Definition initial : State := {| fetches := 0; randoms := 0; trace := [] |}.

Definition M (A : Type) : Type := Env -> State -> Outcome A * State.

(** [m] only appends to the trace, and only events that satisfy [P]. *)
Definition emits {A} (P : Event -> Prop) (m : M A) : Prop :=
  forall env st, exists delta,
    trace (snd (m env st)) = (trace st ++ delta)%list /\ Forall P delta.

(** The event is a request of the gateway call [callGemini(p, u)]: a timer,
    or a POST of [p] or of a re-prompt of [p], with the tools flag [u]. *)
Definition ofCall (p : Prompt) (u : bool) (ev : Event) : Prop :=
  match ev with
  | EvFetch (GeminiPost p' u') => basePrompt p' = basePrompt p /\ u' = u
  | EvFetch (DnsGet _ _) => False
  | EvSetTimeout _ => True
  end.

Definition ret {A} (a : A) : M A := fun _ st => (Ok a, st).

Definition throw {A} (e : Error) : M A := fun _ st => (Throw e, st).

Definition bind {A B} (m : M A) (k : A -> M B) : M B :=
  fun env st =>
    match m env st with
    | (Ok a, st') => k a env st'
    | (Throw e, st') => (Throw e, st')
    end.

(** A step that cannot touch the world. *)
Definition lift {A} (o : Outcome A) : M A := fun _ st => (o, st).

(** [try { m } catch (e) { handler e }] *)
Definition try_catch {A} (m : M A) (handler : Error -> M A) : M A :=
  fun env st =>
    match m env st with
    | (Ok a, st') => (Ok a, st')
    | (Throw e, st') => handler e env st'
    end.

Definition obind {A B} (o : Outcome A) (k : A -> Outcome B) : Outcome B :=
  match o with
  | Ok a => k a
  | Throw e => Throw e
  end.

Declare Scope js_scope.
Delimit Scope js_scope with js.
Notation "x <- m ;; k" := (bind m (fun x => k))
  (at level 61, m at next level, right associativity) : js_scope.
Notation "m ;;; k" := (bind m (fun _ => k))
  (at level 61, right associativity) : js_scope.
Notation "x <~ o ;; k" := (obind o (fun x => k))
  (at level 61, o at next level, right associativity) : js_scope.
Open Scope js_scope.

Definition settle {A} (p : Settled A) : Outcome A :=
  match p with
  | Resolved a => Ok a
  | Rejected m => Throw (Thrown m)
  end.

(** [await p] for a promise of the platform *)
Definition await {A} (p : Settled A) : M A := lift (settle p).

(** [await fetch(...)] *)
Definition doFetch (req : Request) : M Response :=
  fun env st =>
    (settle (fetch env (fetches st) req),
     {| fetches := S (fetches st); randoms := randoms st;
        trace := trace st ++ [EvFetch req] |}).

Definition MAX_RETRIES : nat := 5.
Definition BASE_DELAY_MS : Z := 1000.

(** [sleep(ms)]: the timer is set to [ms + Math.random() * 0.3 * ms]. *)
Definition jitter (r ms : Q) : Q := (r * (3 # 10) * ms)%Q.

Definition sleep (ms : Q) : M unit :=
  fun env st =>
    (Ok tt,
     {| fetches := fetches st; randoms := S (randoms st);
        trace := trace st ++ [EvSetTimeout (ms + jitter (random env (randoms st)) ms)%Q] |}).

(** [BASE_DELAY_MS * Math.pow(2, retryCount)] *)
Definition backoffDelay (retryCount : nat) : Q :=
  inject_Z (BASE_DELAY_MS * 2 ^ Z.of_nat retryCount).

(** [error.message.includes("fetch")].  The messages engines give a
    [TypeError] raised inside [callGemini] name the expressions
    [data.candidates] or [raw.replace]. *)
Definition messageIncludes (needle : string) (e : Error) : bool :=
  match e with
  | Thrown m => Str.includes needle m
  | TypeError _ => false
  | OutOfFuel => false
  end.

(* ================================================================== *)
(** ** Operations on values that need the runtime *)

Section Runtime.

Variable host : Host.

(** [ToString], as template literals and string methods apply it.  Arrays
    are joined with commas; an object prints as [[object Object]] (objects
    with a property named [toString] or [valueOf] are outside the model). *)
Fixpoint ToString (v : JSValue) : string :=
  match v with
  | JUndefined => "undefined"
  | JNull => "null"
  | JBool true => "true"
  | JBool false => "false"
  | JNum n => Number_toString host n
  | JStr s => s
  | JArr elems =>
      let element (x : JSValue) : string :=
        match x with
        | JUndefined | JNull => ""
        | _ => ToString x
        end in
      (fix join (l : list JSValue) : string :=
         match l with
         | [] => ""
         | [x] => element x
         | x :: rest => element x ++ "," ++ join rest
         end) elems
  | JObj _ => "[object Object]"
  end.

(** [ToNumber]. *)
Definition ToNumber (v : JSValue) : JSNumber :=
  match v with
  | JUndefined => NaN
  | JNull => Finite 0
  | JBool b => if b then Finite 1 else Finite 0
  | JNum n => n
  | JStr s => String_toNumber host s
  | JArr _ => String_toNumber host (ToString v)
  | JObj _ => NaN
  end.

(** [v > 0]. *)
Definition gtZero (v : JSValue) : bool := numIsPositive (ToNumber v).

(** SameValueZero of a value and a primitive key, as [Array.prototype.includes]
    compares them.  Arrays and objects are compared by identity, and an
    element of a parsed array is never the key itself. *)
Definition sameValueZero (x key : JSValue) : bool :=
  match x, key with
  | JUndefined, JUndefined => true
  | JNull, JNull => true
  | JBool a, JBool b => Bool.eqb a b
  | JNum NaN, JNum NaN => true
  | JNum (Finite a), JNum (Finite b) => Qeq_bool a b
  | JNum (Infinity a), JNum (Infinity b) => Bool.eqb a b
  | JStr a, JStr b => String.eqb a b
  | _, _ => false
  end.

(** [recv?.includes(arg)]: [undefined] for a missing receiver, the substring
    test of a string, the membership test of an array; any other receiver has
    no method of that name. *)
Definition optIncludes (recv arg : JSValue) : Outcome JSValue :=
  match recv with
  | JUndefined | JNull => Ok JUndefined
  | JStr s => Ok (JBool (Str.includes (ToString arg) s))
  | JArr elems => Ok (JBool (existsb (fun x => sameValueZero x arg) elems))
  | _ => Throw (TypeError "includes")
  end.

(** [v.toLowerCase()]. *)
Definition toLowerCase (v : JSValue) : Outcome string :=
  match v with
  | JStr s => Ok (Str.toLowerCase s)
  | _ => Throw (TypeError "toLowerCase")
  end.

(** [v?.split("@")[1]]. *)
Definition optSplitAt1 (v : JSValue) : Outcome JSValue :=
  match v with
  | JUndefined | JNull => Ok JUndefined
  | JStr s => Ok (match Str.splitAt1 s with Some d => JStr d | None => JUndefined end)
  | _ => Throw (TypeError "split")
  end.


(* ================================================================== *)
(** ** The Model Gateway: [callGemini] *)

(** What one execution of the [try] block of [callGemini] ends in: a value
    to return, or [return callGemini(prompt', useSearch, retryCount + 1)].
    The promise of the inner call is returned without [await], so its
    rejection is not seen by the [catch] of the outer call. *)
Inductive Step : Type :=
| Return (v : JSValue)
| Retry (prompt : Prompt).

Definition retryableStatus (s : Z) : bool :=
  ((s =? 429) || (s =? 503) || (s =? 504))%Z.

(** The first three statements on the text of a reply: both [replace]
    calls, [trim], and the extraction of the braces when there are any. *)
Definition cleanup (raw : string) : string :=
  let cleaned := Str.trim (Str.removeFences 0 (Str.removeJsonFences 0 false raw)) in
  match Str.matchBraces cleaned with
  | Some m => m
  | None => cleaned
  end.

Definition tryBlock (prompt : Prompt) (useSearch : bool) (retryCount : nat) : M Step :=
  response <- doFetch (GeminiPost prompt useSearch) ;;
  if retryableStatus (status response) then
    if retryCount <? MAX_RETRIES then
      sleep (backoffDelay retryCount) ;;;
      ret (Retry prompt)
    else
      throw (Thrown ("API error " ++ Str.ofZ (status response) ++ " after "
                       ++ Str.ofZ (Z.of_nat MAX_RETRIES) ++ " retries"))
  else if negb (ok response) then
    err <- await (text response) ;;
    throw (Thrown ("Gemini API error: " ++ Str.ofZ (status response) ++ " — " ++ err))
  else
    data <- await (json response) ;;
    candidates <- lift (get data "candidates") ;;
    let candidate := optFirst candidates in
    let raw := optGet (optFirst (optGet (optGet candidate "content") "parts")) "text" in
    if isString "MAX_TOKENS" (optGet candidate "finishReason") && (retryCount <? MAX_RETRIES) then
      ret (Retry prompt)
    else if negb (truthy raw) then
      let blockReason :=
        or_else (optGet candidate "finishReason")
                (optGet (getProp data "promptFeedback") "blockReason") in
      throw (Thrown ("Empty response from Gemini"
                       ++ (if truthy blockReason then ": " ++ ToString blockReason else "")))
    else
      match raw with
      | JStr rawText =>
          match JSON_parse host (cleanup rawText) with
          | inr v => ret (Return v)
          | inl parseMessage =>
              if retryCount <? 3 then ret (Retry (FixPrompt prompt))
              else throw (Thrown ("Failed to parse JSON response: " ++ parseMessage))
          end
      | _ => throw (TypeError "raw.replace")
      end.

(** [callGemini(prompt, useSearch, retryCount)], with the depth of the
    recursion bounded by [fuel]. *)
Fixpoint callGemini_rec (fuel : nat) (prompt : Prompt) (useSearch : bool)
    (retryCount : nat) : M JSValue :=
  match fuel with
  | O => throw OutOfFuel
  | S fuel' =>
      fun env st =>
        match tryBlock prompt useSearch retryCount env st with
        | (Ok (Return v), st') => (Ok v, st')
        | (Ok (Retry prompt'), st') =>
            callGemini_rec fuel' prompt' useSearch (S retryCount) env st'
        | (Throw error, st') =>
            if (retryCount <? MAX_RETRIES) && messageIncludes "fetch" error then
              (sleep (backoffDelay retryCount) ;;;
               callGemini_rec fuel' prompt useSearch (S retryCount)) env st'
            else (Throw error, st')
        end
  end.

(** Every recursive call is guarded by [retryCount < MAX_RETRIES] or
    [retryCount < 3] and adds one to [retryCount]: one call and
    [MAX_RETRIES - retryCount] more are the most there can be. *)
Definition callGemini (prompt : Prompt) (useSearch : bool) (retryCount : nat) : M JSValue :=
  callGemini_rec (S (MAX_RETRIES - retryCount)) prompt useSearch retryCount.

(* ================================================================== *)
(** ** [isValidEmailFormat] *)

(** [[^\s@]] *)
Definition notSpaceNorAt (c : ascii) : bool :=
  negb (Str.isWhitespace c) && negb (Ascii.eqb c "@").

(** [/^[^\s@]+@[^\s@]+\.[^\s@]+$/] *)
Definition emailRegex : Regex.regex :=
  Regex.Cat (Regex.Plus (Regex.Class notSpaceNorAt))
    (Regex.Cat (Regex.Chr "@")
       (Regex.Cat (Regex.Plus (Regex.Class notSpaceNorAt))
          (Regex.Cat (Regex.Chr ".") (Regex.Plus (Regex.Class notSpaceNorAt))))).

Definition isValidEmailFormat (email : JSValue) : bool :=
  match email with
  | JStr s => if String.eqb s "" then false else Regex.test emailRegex s
  | _ => false
  end.

(* ================================================================== *)
(** ** The Domain Verifier: [checkDomainMX] *)

Definition dnsUrl (domain : string) : string :=
  "https://dns.google/resolve?name=" ++ domain ++ "&type=MX".

(** [data.Status === 0 && data.Answer && data.Answer.length > 0] *)
Definition hasMailRecords (data : JSValue) : Outcome JSValue :=
  st <~ get data "Status" ;;
  if negb (isZero st) then Ok (JBool false)
  else
    let answer := getProp data "Answer" in
    if negb (truthy answer) then Ok answer
    else Ok (JBool (gtZero (getProp answer "length"))).

Definition checkDomainMX (domain : string) : M JSValue :=
  try_catch
    (response <- doFetch (DnsGet (dnsUrl domain) 5000) ;;
     data <- await (json response) ;;
     lift (hasMailRecords data))
    (fun _ => ret JNull).

(* ================================================================== *)
(** ** The calls of the pipeline *)

Definition extractLocation (description : string) : M JSValue :=
  callGemini (LocationPrompt description) false 0.

(** PASS A *)
Definition findTopicSpecificEmail (jurisdiction : string) (topic : JSValue) : M JSValue :=
  callGemini (TopicSpecificPrompt jurisdiction topic) true 0.

(** PASS B *)
Definition findAgencyEmail (jurisdiction : string) (topic : JSValue) : M JSValue :=
  callGemini (AgencyPrompt jurisdiction topic) true 0.

(** PASS C *)
Definition findGeneralEmail (jurisdiction : string) : M JSValue :=
  callGemini (GeneralPrompt jurisdiction) true 0.

Definition extractTopic (description : string) : M JSValue :=
  result <- callGemini (TopicPrompt description) false 0 ;;
  topic <- lift (get result "topic") ;;
  ret (or_else topic (JStr "general issue")).

(* ================================================================== *)
(** ** The Relevance Filter: [isDepartmentRelevant] *)

(** The [for] field of a rule: the string ["any"] or an array of topics. *)
Inductive Applies : Type :=
| ForAny
| ForTopics (topics : list string).

Record Rule : Type := {
  keywords : list string;
  for_ : Applies
}.

Definition wrongDepartments : list Rule :=
  [ {| keywords := ["eeo"; "equal employment"; "human resources"; "hr@"]; for_ := ForAny |};
    {| keywords := ["media"; "press"; "communications"; "pr@"]; for_ := ForAny |};
    {| keywords := ["tourism"; "visitor"; "convention"]; for_ := ForAny |};
    {| keywords := ["permit"; "licensing"; "license"]; for_ := ForAny |};
    {| keywords := ["graffiti"];
       for_ := ForTopics ["pothole"; "streetlight"; "sidewalk"; "trash"; "noise";
                          "flooding"; "sewer"; "water"] |};
    {| keywords := ["environment"; "sustainability"];
       for_ := ForTopics ["pothole"; "streetlight"; "sidewalk"; "graffiti"] |} ].

(** The loop over the rules; [false] is an early [return false], [true] the
    [return true] after the loop. *)
Fixpoint passesRules (combined topicLower : string) (rules : list Rule) : bool :=
  match rules with
  | [] => true
  | rule :: rest =>
      let hasWrongKeyword :=
        existsb (fun kw => Str.includes kw combined) (keywords rule) in
      if hasWrongKeyword then
        match for_ rule with
        | ForAny => false
        | ForTopics topics =>
            if existsb (fun t => Str.includes t topicLower) topics then false
            else passesRules combined topicLower rest
        end
      else passesRules combined topicLower rest
  end.

Definition isDepartmentRelevant (topic agencyName email : JSValue) : Outcome bool :=
  if negb (truthy agencyName) && negb (truthy email) then Ok false
  else
    let combined :=
      Str.toLowerCase (ToString (or_else agencyName (JStr "")) ++ " "
                         ++ ToString (or_else email (JStr ""))) in
    topicLower <~ toLowerCase topic ;;
    Ok (passesRules combined topicLower wrongDepartments).

(* ================================================================== *)
(** ** The Address Resolution Pipeline: [generateEmailDraft] *)

Inductive FallbackLevel : Type :=
| TOPIC_SPECIFIC
| AGENCY_MAIN
| JURISDICTION_GENERAL
| UNVERIFIED_GUESS.

(** Position in the order of trust; a smaller rank is a higher trust. *)
Definition rank (l : FallbackLevel) : nat :=
  match l with
  | TOPIC_SPECIFIC => 0
  | AGENCY_MAIN => 1
  | JURISDICTION_GENERAL => 2
  | UNVERIFIED_GUESS => 3
  end.

(** The tier a prompt belongs to, if it is one of the four address
    prompts. *)
Definition tierOf (p : Prompt) : option FallbackLevel :=
  match basePrompt p with
  | TopicSpecificPrompt _ _ => Some TOPIC_SPECIFIC
  | AgencyPrompt _ _ => Some AGENCY_MAIN
  | GeneralPrompt _ => Some JURISDICTION_GENERAL
  | GuessPrompt _ _ => Some UNVERIFIED_GUESS
  | _ => None
  end.

Definition evTier (ev : Event) : option FallbackLevel :=
  match ev with
  | EvFetch (GeminiPost p _) => tierOf p
  | _ => None
  end.

(** The event is not a request of a tier of lower trust than [level]. *)
Definition withinLevel (level : FallbackLevel) (ev : Event) : Prop :=
  match evTier ev with
  | Some l => rank l <= rank level
  | None => True
  end.

Record RoutingResult : Type := {
  to : JSValue;
  subject : JSValue;
  body : JSValue;
  jurisdiction : string;
  agency_name : JSValue;
  topic : JSValue;
  confidence : JSValue;
  fallback_level : FallbackLevel;
  evidence : JSValue;
  dns_verified : JSValue
}.

Definition DEFAULT_JURISDICTION : string := "Palo Alto, CA".

(** The condition of the [if] after each search pass:
    [pass.found && isValidEmailFormat(pass.email) &&
     pass.evidence?.quoted_snippet?.includes(pass.email) &&
     isDepartmentRelevant(topic, pass.agency_name, pass.email)] *)
Definition accepts (topic pass : JSValue) : Outcome bool :=
  found <~ get pass "found" ;;
  if negb (truthy found) then Ok false
  else
    email <~ get pass "email" ;;
    if negb (isValidEmailFormat email) then Ok false
    else
      evidence <~ get pass "evidence" ;;
      quoted <~ optIncludes (optGet evidence "quoted_snippet") email ;;
      if negb (truthy quoted) then Ok false
      else
        agency <~ get pass "agency_name" ;;
        isDepartmentRelevant topic agency email.

(** Step 1: the jurisdiction. *)
Definition determineJurisdiction (description : string) (location : JSValue) : M string :=
  if truthy location && isNumber (getProp location "latitude")
       && isNumber (getProp location "longitude") then
    try_catch
      (geo <- callGemini (GeoPrompt (getProp location "latitude")
                                    (getProp location "longitude")) false 0 ;;
       if truthy geo && truthy (getProp geo "city") && truthy (getProp geo "state") then
         ret (ToString (getProp geo "city") ++ ", " ++ ToString (getProp geo "state"))
       else ret DEFAULT_JURISDICTION)
      (fun _ => ret DEFAULT_JURISDICTION)
  else if truthy location then
    ret DEFAULT_JURISDICTION
  else
    extracted <- extractLocation description ;;
    hasLocation <- lift (get extracted "hasLocation") ;;
    if truthy hasLocation && negb (isString "Unknown" (getProp extracted "city")) then
      ret (ToString (getProp extracted "city") ++ ", " ++ ToString (getProp extracted "state"))
    else ret DEFAULT_JURISDICTION.

(** The two variables step 3 assigns. *)
Definition Selection : Type := (JSValue * FallbackLevel)%type.

(** One search pass: the call, the test, and the assignment when the test
    holds. *)
Definition searchPass (find : M JSValue) (level : FallbackLevel) (topic : JSValue)
    (sel : Selection) : M Selection :=
  pass <- find ;;
  accepted <- lift (accepts topic pass) ;;
  if accepted then ret (pass, level) else ret sel.

(** [if (!emailResult) { ... }] *)
Definition unlessSelected (sel : Selection) (m : M Selection) : M Selection :=
  if negb (truthy (fst sel)) then m else ret sel.

(** Step 3: PASS A, then PASS B and PASS C while nothing is selected. *)
Definition searchPasses (jurisdiction : string) (topic : JSValue) : M Selection :=
  let sel0 : Selection := (JNull, TOPIC_SPECIFIC) in
  selA <- searchPass (findTopicSpecificEmail jurisdiction topic) TOPIC_SPECIFIC topic sel0 ;;
  selB <- unlessSelected selA
            (searchPass (findAgencyEmail jurisdiction topic) AGENCY_MAIN topic selA) ;;
  unlessSelected selB
    (searchPass (findGeneralEmail jurisdiction) JURISDICTION_GENERAL topic selB).

Definition GUESS_CONFIDENCE : JSValue := JNum (Finite (1 # 10)).

(** The object literal built from the guess. *)
Definition guessResult (guess : JSValue) : JSValue :=
  JObj [ ("found", JBool false);
         ("email", getProp guess "email");
         ("agency_name", getProp guess "agency_name");
         ("evidence", JNull);
         ("confidence", GUESS_CONFIDENCE) ].

(** The last resort: the unverified guess. *)
Definition lastResort (jurisdiction : string) (topic : JSValue) (sel : Selection) : M Selection :=
  unlessSelected sel
    (guess <- callGemini (GuessPrompt jurisdiction topic) false 0 ;;
     _ <- lift (get guess "email") ;;
     ret (guessResult guess, UNVERIFIED_GUESS)).

(** Step 4: the DNS check of the domain of the chosen address. *)
Definition dnsCheck (emailResult : JSValue) : M JSValue :=
  email <- lift (get emailResult "email") ;;
  emailDomain <- lift (optSplitAt1 email) ;;
  match emailDomain with
  | JStr domain => if truthy emailDomain then checkDomainMX domain else ret JNull
  | _ => ret JNull
  end.

(** The object the function returns. *)
Definition buildResult (jurisdiction : string) (topic : JSValue) (sel : Selection)
    (emailContent dnsValid : JSValue) : RoutingResult :=
  let emailResult := fst sel in
  {| to := getProp emailResult "email";
     subject := getProp emailContent "subject";
     body := getProp emailContent "body";
     jurisdiction := jurisdiction;
     agency_name := getProp emailResult "agency_name";
     topic := topic;
     confidence := or_else (getProp emailResult "confidence") (JNum (Finite (1 # 2)));
     fallback_level := snd sel;
     evidence := or_else (getProp emailResult "evidence") JNull;
     dns_verified := dnsValid |}.

(** Steps 4 and 5 and the [return]. *)
Definition composeDraft (description : string) (hasPhoto : bool) (jurisdiction : string)
    (topic : JSValue) (sel : Selection) : M RoutingResult :=
  let emailResult := fst sel in
  dnsValid <- dnsCheck emailResult ;;
  emailContent <-
    callGemini (BodyPrompt description jurisdiction
                  (or_else (getProp emailResult "agency_name") (JStr "City Services"))
                  hasPhoto) false 0 ;;
  _ <- lift (get emailContent "subject") ;;
  ret (buildResult jurisdiction topic sel emailContent dnsValid).

(** Steps 3 to 5, once the jurisdiction and the topic are known. *)
Definition routeTopic (description : string) (hasPhoto : bool) (jurisdiction : string)
    (topic : JSValue) : M RoutingResult :=
  selected <- searchPasses jurisdiction topic ;;
  final <- lastResort jurisdiction topic selected ;;
  composeDraft description hasPhoto jurisdiction topic final.

(** Steps 2 to 5, once the jurisdiction is known. *)
Definition routeWithin (description : string) (hasPhoto : bool) (jurisdiction : string)
    : M RoutingResult :=
  topic <- extractTopic description ;;
  routeTopic description hasPhoto jurisdiction topic.

Definition generateEmailDraft (description : string) (location : JSValue) (hasPhoto : bool)
    : M RoutingResult :=
  jurisdiction <- determineJurisdiction description location ;;
  routeWithin description hasPhoto jurisdiction.

(** [level] is the highest-trust tier whose candidate, in the run of the
    search passes from [st], passes the test of its pass: every tier of
    higher trust was called and its candidate failed the test, no tier of
    lower trust is part of the run, and [UNVERIFIED_GUESS] stands for the
    failure of all three.  [st'] is the state the last call leaves. *)
Definition highestAccepted (env : Env) (jurisdiction : string) (topic : JSValue)
    (st : State) (level : FallbackLevel) (st' : State) : Prop :=
  exists passA stA,
    findTopicSpecificEmail jurisdiction topic env st = (Ok passA, stA) /\
    match level with
    | TOPIC_SPECIFIC => accepts topic passA = Ok true /\ st' = stA
    | _ =>
        accepts topic passA = Ok false /\
        exists passB stB,
          findAgencyEmail jurisdiction topic env stA = (Ok passB, stB) /\
          match level with
          | AGENCY_MAIN => accepts topic passB = Ok true /\ st' = stB
          | _ =>
              accepts topic passB = Ok false /\
              exists passC,
                findGeneralEmail jurisdiction env stB = (Ok passC, st') /\
                accepts topic passC
                  = Ok (match level with JURISDICTION_GENERAL => true | _ => false end)
          end
    end.

(* ================================================================== *)
(** ** The revision path: [reviseEmailDraft] *)

Definition reviseEmailDraft (currentTo currentSubject currentBody suggestion : string)
    : M JSValue :=
  callGemini (RevisePrompt currentTo currentSubject currentBody suggestion) true 0.

End Runtime.

(* ================================================================== *)
(** ** Scenarios

    Concrete hosts and environments on which the functions are run. *)

Module Scenario.

(** The double quote. *)
Definition dq : string := String (ascii_of_nat 34) EmptyString.

(** The JSON text of a value built from objects, arrays, strings without
    escapes, booleans, [null] and integers. *)
Fixpoint stringify (v : JSValue) : string :=
  match v with
  | JUndefined => "null"
  | JNull => "null"
  | JBool true => "true"
  | JBool false => "false"
  | JNum (Finite q) => Str.ofZ (Qnum q)
  | JNum _ => "null"
  | JStr s => dq ++ s ++ dq
  | JArr elems =>
      "[" ++ (fix items (l : list JSValue) : string :=
                match l with
                | [] => ""
                | [x] => stringify x
                | x :: rest => stringify x ++ "," ++ items rest
                end) elems ++ "]"
  | JObj fields =>
      "{" ++ (fix members (l : list (string * JSValue)) : string :=
                match l with
                | [] => ""
                | [(k, x)] => dq ++ k ++ dq ++ ":" ++ stringify x
                | (k, x) :: rest => dq ++ k ++ dq ++ ":" ++ stringify x ++ "," ++ members rest
                end) fields ++ "}"
  end.

(** The replies of the scenarios. *)
Definition topicReply : JSValue := JObj [("topic", JStr "pothole")].
Definition emptyTopicReply : JSValue := JObj [("topic", JStr "")].
Definition notFound : JSValue := JObj [("found", JBool false)].
Definition publicWorks : JSValue :=
  JObj [ ("found", JBool true);
         ("email", JStr "streets@city.gov");
         ("agency_name", JStr "Public Works");
         ("evidence",
          JObj [ ("source_title", JStr "Contact us");
                 ("source_url", JStr "https://city.gov/contact");
                 ("quoted_snippet", JStr "Report potholes to streets@city.gov") ]);
         ("confidence", JNum (Finite 0)) ].
Definition guessReply : JSValue :=
  JObj [ ("email", JStr "tourism@city.gov"); ("agency_name", JStr "Visitor Center") ].
Definition draftReply : JSValue :=
  JObj [ ("subject", JStr "Pothole"); ("body", JStr "Hello") ].

Definition replies : list JSValue :=
  [topicReply; emptyTopicReply; notFound; publicWorks; guessReply; draftReply].

(** A host that agrees with the engine on the texts and numbers of the
    scenarios: [JSON.parse] is the inverse of [stringify] on [replies], and
    integers are printed in decimal. *)
Definition parse (text : string) : string + JSValue :=
  match find (fun v => String.eqb (stringify v) text) replies with
  | Some v => inr v
  | None => inl "Unexpected token"
  end.

Definition host : Host :=
  {| JSON_parse := parse;
     Number_toString := fun n =>
       match n with
       | Finite q => Str.ofZ (Qnum q)
       | NaN => "NaN"
       | Infinity false => "Infinity"
       | Infinity true => "-Infinity"
       end;
     String_toNumber := fun _ => NaN |}.

(** The response body of the completion service that carries [text]. *)
Definition completion (finishReason text : string) : JSValue :=
  JObj [ ("candidates",
          JArr [ JObj [ ("content", JObj [ ("parts", JArr [ JObj [ ("text", JStr text) ] ]) ]);
                        ("finishReason", JStr finishReason) ] ]) ].

Definition http (code : Z) (bodyText : string) (bodyJson : Settled JSValue) : Response :=
  {| status := code; text := Resolved bodyText; json := bodyJson |}.

(** HTTP 200 whose completion is the JSON text of [v]. *)
Definition says (v : JSValue) : Settled Response :=
  Resolved (http 200 "" (Resolved (completion "STOP" (stringify v)))).

(** HTTP 200 from the DNS resolver: [Status] 0 and one MX answer. *)
Definition mxFound : Settled Response :=
  Resolved (http 200 ""
    (Resolved (JObj [ ("Status", JNum (Finite 0));
                      ("Answer", JArr [ JObj [ ("data", JStr "10 mail.city.gov.") ] ]) ]))).

(** HTTP 200 from the DNS resolver: [Status] 0 and no answer. *)
Definition mxMissing : Settled Response :=
  Resolved (http 200 "" (Resolved (JObj [ ("Status", JNum (Finite 0)) ]))).

(** An environment that answers by the kind of the request, whatever the
    position of the call. *)
Definition answering (gateway : Prompt -> Settled Response) (dns : Settled Response) : Env :=
  {| fetch := fun _ req =>
       match req with
       | GeminiPost p _ => gateway p
       | DnsGet _ _ => dns
       end;
     random := fun _ => (1 # 2)%Q |}.

(** The gateway finds nothing in any tier. *)
Definition nothingFound (p : Prompt) : Settled Response :=
  match basePrompt p with
  | TopicPrompt _ => says topicReply
  | GuessPrompt _ _ => says guessReply
  | BodyPrompt _ _ _ _ => says draftReply
  | _ => says notFound
  end.

(** The gateway finds the department address in PASS B only. *)
Definition agencyFound (p : Prompt) : Settled Response :=
  match basePrompt p with
  | TopicPrompt _ => says topicReply
  | AgencyPrompt _ _ => says publicWorks
  | BodyPrompt _ _ _ _ => says draftReply
  | _ => says notFound
  end.

(** The service is rate limited throughout. *)
Definition rateLimited : Env :=
  {| fetch := fun _ _ => Resolved (http 429 "" (Rejected "Unexpected end of JSON input"));
     random := fun _ => (1 # 2)%Q |}.

(** The first reply is cut at the token limit, the second is complete. *)
Definition truncatedOnce : Env :=
  {| fetch := fun n _ =>
       match n with
       | 0 => Resolved (http 200 "" (Resolved (completion "MAX_TOKENS" "{")))
       | _ => says topicReply
       end;
     random := fun _ => (1 # 2)%Q |}.

(** The topic extraction call is refused with HTTP 400. *)
Definition topicRefused (p : Prompt) : Settled Response :=
  match basePrompt p with
  | TopicPrompt _ => Resolved (http 400 "Bad Request" (Rejected "Unexpected token"))
  | other => agencyFound other
  end.

(** The topic extraction call answers with an empty topic. *)
Definition topicEmpty (p : Prompt) : Settled Response :=
  match basePrompt p with
  | TopicPrompt _ => says emptyTopicReply
  | other => agencyFound other
  end.

(** A location whose latitude is not a number. *)
Definition malformedLocation : JSValue := JObj [("latitude", JStr "abc")].

End Scenario.

(* ================================================================== *)
(** ** Readings of a reply and measures of a run *)

(** [data.candidates?.[0]?.content?.parts?.[0]?.text] *)
Definition replyText (data : JSValue) : JSValue :=
  optGet (optFirst (optGet (optGet (optFirst (getProp data "candidates")) "content") "parts"))
    "text".

(** [data.candidates?.[0]?.finishReason] *)
Definition replyFinishReason (data : JSValue) : JSValue :=
  optGet (optFirst (getProp data "candidates")) "finishReason".

(** The delays of the timers set in a stretch of the trace, and their sum. *)
Fixpoint timers (events : list Event) : list Q :=
  match events with
  | [] => []
  | EvSetTimeout d :: rest => d :: timers rest
  | EvFetch _ :: rest => timers rest
  end.

Fixpoint total (delays : list Q) : Q :=
  match delays with
  | [] => 0%Q
  | d :: rest => (d + total rest)%Q
  end.

(** [m] sends at most [n] requests. *)
Definition spends {A} (n : nat) (m : M A) : Prop :=
  forall env st, fetches (snd (m env st)) <= fetches st + n.

(** The tools flag a request of the pipeline must carry: search grounding
    for the three search passes and for nothing else. *)
Definition groundedAsTiered (ev : Event) : Prop :=
  match ev with
  | EvFetch (GeminiPost p u) =>
      u = match tierOf p with
          | Some TOPIC_SPECIFIC | Some AGENCY_MAIN | Some JURISDICTION_GENERAL => true
          | _ => false
          end
  | _ => True
  end.

(** Two environments that answer every request of the completion service
    and every draw of [Math.random] alike; their DNS answers may differ. *)
Definition sameGateway (env1 env2 : Env) : Prop :=
  (forall n p u, fetch env1 n (GeminiPost p u) = fetch env2 n (GeminiPost p u)) /\
  (forall n, random env1 n = random env2 n).

(** The code units other than [c]. *)
Definition differsFrom (c : ascii) : ascii -> bool := fun x => negb (Ascii.eqb x c).

(** The reply is an HTTP 200 whose completion carries the non-empty text
    [text] and was not cut at the token limit. *)
Definition completes (response : Response) (text : string) : Prop :=
  status response = 200%Z /\
  exists data,
    json response = Resolved data /\ nullish data = false /\
    isString "MAX_TOKENS" (replyFinishReason data) = false /\
    replyText data = JStr text /\ text <> "".

(** The reply is an HTTP 200 whose completion carries the non-empty text
    [text] and was cut at the token limit ([finishReason] is [MAX_TOKENS]). *)
Definition truncates (response : Response) (text : string) : Prop :=
  status response = 200%Z /\
  exists data,
    json response = Resolved data /\ nullish data = false /\
    isString "MAX_TOKENS" (replyFinishReason data) = true /\
    replyText data = JStr text /\ text <> "".

(** The state after one more request. *)
Definition afterFetch (st : State) (req : Request) : State :=
  {| fetches := S (fetches st); randoms := randoms st;
     trace := trace st ++ [EvFetch req] |}.

(** [pass] is the candidate of the tier [level] in the run of step 3 and of
    the last resort from [st]: the object the call of that tier returns,
    after the calls of the tiers above it; for UNVERIFIED_GUESS, the object
    built from the reply to the guess prompt. *)
Definition candidateOfTier (host : Host) (env : Env) (jurisdiction : string)
    (topic : JSValue) (st : State) (level : FallbackLevel) (pass : JSValue) : Prop :=
  exists passA stA,
    findTopicSpecificEmail host jurisdiction topic env st = (Ok passA, stA) /\
    match level with
    | TOPIC_SPECIFIC => pass = passA
    | _ =>
        exists passB stB,
          findAgencyEmail host jurisdiction topic env stA = (Ok passB, stB) /\
          match level with
          | AGENCY_MAIN => pass = passB
          | _ =>
              exists passC stC,
                findGeneralEmail host jurisdiction env stB = (Ok passC, stC) /\
                match level with
                | JURISDICTION_GENERAL => pass = passC
                | _ =>
                    exists guess stG,
                      callGemini host (GuessPrompt jurisdiction topic) false 0 env stC
                      = (Ok guess, stG) /\
                      pass = guessResult guess
                end
          end
    end.

(** ** Further scenarios *)

Module Cases.

Import Scenario.

(** A location with numeric coordinates. *)
Definition stanford : JSValue :=
  JObj [ ("latitude", JNum (Finite (37427 # 1000)));
         ("longitude", JNum (Finite (-122170 # 1000))) ].

(** Every reply is cut at the token limit; its text is the guess. *)
Definition alwaysCut : Env :=
  {| fetch := fun _ _ =>
       Resolved (http 200 "" (Resolved (completion "MAX_TOKENS" (stringify guessReply))));
     random := fun _ => (1 # 2)%Q |}.

(** Every reply is complete and is prose, not JSON. *)
Definition unparseable : Env :=
  {| fetch := fun _ _ =>
       Resolved (http 200 "" (Resolved (completion "STOP" "I cannot help with that")));
     random := fun _ => (1 # 2)%Q |}.

(** Every request fails before a response arrives. *)
Definition offline (message : string) : Env :=
  {| fetch := fun _ _ => Rejected message;
     random := fun _ => (1 # 2)%Q |}.

(** Every reply is HTTP 500. *)
Definition serverError : Env :=
  {| fetch := fun _ _ => Resolved (http 500 "Internal error" (Rejected "Unexpected token"));
     random := fun _ => (1 # 2)%Q |}.


End Cases.

(** [m] runs alike in the two environments. *)
Definition agrees {A} (env1 env2 : Env) (m : M A) : Prop :=
  forall st, m env1 st = m env2 st.

(** Two outcomes of a report that differ at most in [dns_verified]. *)
Definition sameButDns (o1 o2 : Outcome RoutingResult) : Prop :=
  match o1, o2 with
  | Ok r1, Ok r2 =>
      to r1 = to r2 /\ subject r1 = subject r2 /\ body r1 = body r2 /\
      jurisdiction r1 = jurisdiction r2 /\ agency_name r1 = agency_name r2 /\
      topic r1 = topic r2 /\ confidence r1 = confidence r2 /\
      fallback_level r1 = fallback_level r2 /\ evidence r1 = evidence r2
  | Throw e1, Throw e2 => e1 = e2
  | _, _ => False
  end.

(** [m] runs alike in the two environments but for [dns_verified]. *)
Definition agreesButDns (env1 env2 : Env) (m : M RoutingResult) : Prop :=
  forall st,
    sameButDns (fst (m env1 st)) (fst (m env2 st)) /\ snd (m env1 st) = snd (m env2 st).

(* ================================================================== *)
(** * The module the application imports: [gemini.js]

    [App.js] imports [generateEmailDraft] and [reviseEmailDraft] from
    [gemini.js], a module of its own with one gateway call without retries,
    a two-step domain check and a correction step.  It is embedded with its
    own prompts and requests, over the values, responses and string
    operations above.  [console.log] is not part of the embedding. *)

Module GeminiJs.

(** The four template literals of the module, with the values they
    interpolate; a value that is only ever printed is kept as the string it
    is printed as. *)
Inductive Prompt : Type :=
| LocationPrompt (description : string)
| CorrectionPrompt (emailDomain : JSValue) (locationInfo : string) (to : JSValue)
| DraftPrompt (description locationContext photoContext : string)
| RevisePrompt (currentTo currentSubject currentBody suggestion : string).

(** The POST to the completion service, with or without
    [tools: [{ google_search: {} }]], and the GET of a DNS-over-HTTPS URL. *)
Inductive Request : Type :=
| GeminiPost (prompt : Prompt) (tools : bool)
| DnsGet (url : string).

Record Env : Type := { fetch : nat -> Request -> Settled Response }.

Record State : Type := { fetches : nat; trace : list Request }.

Definition initial : State := {| fetches := 0; trace := [] |}.

Definition M (A : Type) : Type := Env -> State -> Outcome A * State.

Definition ret {A} (a : A) : M A := fun _ st => (Ok a, st).

Definition throw {A} (e : Error) : M A := fun _ st => (Throw e, st).

Definition bind {A B} (m : M A) (k : A -> M B) : M B :=
  fun env st =>
    match m env st with
    | (Ok a, st') => k a env st'
    | (Throw e, st') => (Throw e, st')
    end.

Definition lift {A} (o : Outcome A) : M A := fun _ st => (o, st).

(** [try { m } catch (e) { handler e }] *)
Definition try_catch {A} (m : M A) (handler : Error -> M A) : M A :=
  fun env st =>
    match m env st with
    | (Ok a, st') => (Ok a, st')
    | (Throw e, st') => handler e env st'
    end.

Declare Scope gjs_scope.
Delimit Scope gjs_scope with gjs.
Notation "x <- m ;; k" := (bind m (fun x => k))
  (at level 61, m at next level, right associativity) : gjs_scope.
Notation "x <~ o ;; k" := (obind o (fun x => k))
  (at level 61, o at next level, right associativity) : gjs_scope.
Local Open Scope gjs_scope.

Definition await {A} (p : Settled A) : M A := lift (settle p).

(** [await fetch(...)] *)
Definition doFetch (req : Request) : M Response :=
  fun env st =>
    (settle (fetch env (fetches st) req),
     {| fetches := S (fetches st); trace := trace st ++ [req] |}).

(** [`https://dns.google/resolve?name=${domain}&type=...`] *)
Definition resolveUrl (domain type : string) : string :=
  "https://dns.google/resolve?name=" ++ domain ++ "&type=" ++ type.

(** The object [verifyDomainExists] returns; each field is [true], [false]
    or [null]. *)
Record DomainCheck : Type := { exists_ : JSValue; hasMX : JSValue }.

(** The object [validateAndCorrectRouting] returns; [unverified] is the
    property only its last [return] sets. *)
Record Validation : Type := {
  isValid : bool;
  correctedTo : JSValue;
  correctedSubject : JSValue;
  correctedBody : JSValue;
  validationNote : string;
  unverified : bool
}.

(** The object [generateEmailDraft] returns. *)
Record Draft : Type := {
  to : JSValue;
  subject : JSValue;
  body : JSValue;
  note : string;
  wasCorrected : bool
}.

(** [v.includes("@")] *)
Definition includesAt (v : JSValue) : Outcome bool :=
  match v with
  | JStr s => Ok (Str.includes "@" s)
  | JArr elems => Ok (existsb (fun x => sameValueZero x (JStr "@")) elems)
  | _ => Throw (TypeError "includes")
  end.

(** [v.split("@")[1]] *)
Definition splitAt1 (v : JSValue) : Outcome JSValue :=
  match v with
  | JStr s => Ok (match Str.splitAt1 s with Some d => JStr d | None => JUndefined end)
  | _ => Throw (TypeError "split")
  end.

Section Functions.

Variable host : Host.

(** [callGemini(prompt, useSearch = false)]: one request, no retry. *)
Definition callGemini (prompt : Prompt) (useSearch : bool) : M JSValue :=
  response <- doFetch (GeminiPost prompt useSearch) ;;
  if negb (ok response) then
    err <- await (text response) ;;
    throw (Thrown ("Gemini API error: " ++ Str.ofZ (status response) ++ " — " ++ err))
  else
    data <- await (json response) ;;
    candidates <- lift (get data "candidates") ;;
    let raw :=
      optGet (optFirst (optGet (optGet (optFirst candidates) "content") "parts")) "text" in
    if negb (truthy raw) then throw (Thrown "Empty response from Gemini")
    else
      match raw with
      | JStr rawText =>
          let cleaned := Str.trim (Str.removeFences 0 (Str.removeJsonFences 0 false rawText)) in
          match JSON_parse host cleaned with
          | inr v => ret v
          | inl parseMessage => throw (Thrown parseMessage)
          end
      | _ => throw (TypeError "raw.replace")
      end.

Definition extractLocationFromDescription (description : string) : M JSValue :=
  callGemini (LocationPrompt description) false.

Definition verifyDomainExists (domain : JSValue) : M DomainCheck :=
  try_catch
    (response <- doFetch (DnsGet (resolveUrl (ToString host domain) "MX")) ;;
     data <- await (json response) ;;
     mail <- lift (hasMailRecords host data) ;;
     if truthy mail then ret {| exists_ := JBool true; hasMX := JBool true |}
     else
       aResponse <- doFetch (DnsGet (resolveUrl (ToString host domain) "A")) ;;
       aData <- await (json aResponse) ;;
       address <- lift (hasMailRecords host aData) ;;
       if truthy address then ret {| exists_ := JBool true; hasMX := JBool false |}
       else ret {| exists_ := JBool false; hasMX := JBool false |})
    (fun _ => ret {| exists_ := JNull; hasMX := JNull |}).

Definition validateAndCorrectRouting (to subject body : JSValue) (locationInfo : string)
    : M Validation :=
  hasAt <- lift (includesAt to) ;;
  emailDomain <- lift (if hasAt then splitAt1 to else Ok (JStr "unknown")) ;;
  domainCheck <- verifyDomainExists emailDomain ;;
  if truthy (exists_ domainCheck) && truthy (hasMX domainCheck) then
    ret {| isValid := true;
           correctedTo := to;
           correctedSubject := subject;
           correctedBody := body;
           validationNote :=
             "Domain " ++ ToString host emailDomain ++ " verified - has valid MX records";
           unverified := false |}
  else
    result <- callGemini (CorrectionPrompt emailDomain locationInfo to) true ;;
    corrected <- lift (get result "correctedTo") ;;
    correctedHasAt <- lift (optIncludes host corrected (JStr "@")) ;;
    correctedDomain <- lift (if truthy correctedHasAt then splitAt1 corrected else Ok JNull) ;;
    let original :=
      {| isValid := false;
         correctedTo := to;
         correctedSubject := subject;
         correctedBody := body;
         validationNote :=
           "Warning: Could not verify email domain. Please double-check the address.";
         unverified := true |} in
    if truthy correctedDomain then
      correctedCheck <- verifyDomainExists correctedDomain ;;
      if truthy (exists_ correctedCheck) then
        ret {| isValid := false;
               correctedTo := corrected;
               correctedSubject := subject;
               correctedBody := body;
               validationNote :=
                 "Original domain invalid. Corrected to " ++ ToString host correctedDomain
                   ++ " (verified)";
               unverified := false |}
      else ret original
    else ret original.

Definition DEFAULT_LOCATION : string := "Palo Alto, CA (default)".

(** The first statement of [generateEmailDraft]: [locationInfo] and
    [locationContext].  [locationInfo] is only ever interpolated in a
    template literal, so it is kept as the string it is printed as. *)
Definition locationOf (description : string) (location : JSValue) : M (string * string) :=
  if truthy location then
    let locationInfo :=
      "GPS coordinates: latitude " ++ ToString host (getProp location "latitude")
        ++ ", longitude " ++ ToString host (getProp location "longitude") in
    ret (locationInfo, "The issue is located at approximately " ++ locationInfo ++ ".")
  else
    extracted <- extractLocationFromDescription description ;;
    hasExplicitLocation <- lift (get extracted "hasExplicitLocation") ;;
    if truthy hasExplicitLocation && negb (isString "Unknown" (getProp extracted "location"))
    then
      let locationInfo :=
        if negb (isString "Unknown" (getProp extracted "city")) then
          ToString host (getProp extracted "city") ++ ", "
            ++ ToString host (getProp extracted "state")
        else ToString host (getProp extracted "location") in
      ret (locationInfo, "The issue is located in/near: " ++ locationInfo)
    else
      ret (DEFAULT_LOCATION,
           "No specific location provided. Assuming Palo Alto, CA as default.").

Definition photoContextOf (hasPhoto : bool) : string :=
  if hasPhoto then "The user has attached a photo of the issue." else "".

Definition generateEmailDraft (description : string) (location : JSValue) (hasPhoto : bool)
    : M Draft :=
  located <- locationOf description location ;;
  let (locationInfo, locationContext) := located in
  initialDraft <-
    callGemini (DraftPrompt description locationContext (photoContextOf hasPhoto)) true ;;
  initialTo <- lift (get initialDraft "to") ;;
  validation <-
    validateAndCorrectRouting initialTo (getProp initialDraft "subject")
      (getProp initialDraft "body") locationInfo ;;
  ret {| to := or_else (correctedTo validation) (getProp initialDraft "to");
         subject := or_else (correctedSubject validation) (getProp initialDraft "subject");
         body := or_else (correctedBody validation) (getProp initialDraft "body");
         note := validationNote validation;
         wasCorrected := negb (isValid validation) |}.

Definition reviseEmailDraft (currentTo currentSubject currentBody suggestion : string)
    : M JSValue :=
  callGemini (RevisePrompt currentTo currentSubject currentBody suggestion) false.

End Functions.

(** [m] sends at most [n] requests. *)
Definition sends {A} (n : nat) (m : M A) : Prop :=
  forall env st, fetches (snd (m env st)) <= fetches st + n.

(** The state after the requests [asked]. *)
Definition after (st : State) (asked : list Request) : State :=
  {| fetches := fetches st + List.length asked; trace := trace st ++ asked |}.

Definition isDns (req : Request) : Prop :=
  match req with
  | DnsGet _ => True
  | GeminiPost _ _ => False
  end.

(** What one answer of the resolver shows: records of the type asked for,
    none, or nothing that can be read (the request failed, or the body could
    not be read or is [null]). *)
Inductive Reading : Type :=
| Records
| NoRecords
| Unreadable.

Definition reading (host : Host) (answer : Settled Response) : Reading :=
  match answer with
  | Rejected _ => Unreadable
  | Resolved response =>
      match json response with
      | Rejected _ => Unreadable
      | Resolved data =>
          if nullish data then Unreadable
          else if isZero (getProp data "Status") && truthy (getProp data "Answer")
                  && gtZero host (getProp (getProp data "Answer") "length")
          then Records
          else NoRecords
      end
  end.

(** The two queries about a domain. *)
Definition mxQuery (host : Host) (domain : JSValue) : Request :=
  DnsGet (resolveUrl (ToString host domain) "MX").
Definition aQuery (host : Host) (domain : JSValue) : Request :=
  DnsGet (resolveUrl (ToString host domain) "A").

(** The queries a domain check that starts at the [n]-th request sends, and
    whether the resolver shows the domain to exist, by the answers of the
    resolver: the A query is sent when the MX answer shows no records, and
    the domain exists when either answer shows records. *)
Definition queriesOf (host : Host) (env : Env) (n : nat) (domain : JSValue) : list Request :=
  match reading host (fetch env n (mxQuery host domain)) with
  | NoRecords => [mxQuery host domain; aQuery host domain]
  | _ => [mxQuery host domain]
  end.

Definition existsPerResolver (host : Host) (env : Env) (n : nat) (domain : JSValue) : bool :=
  match reading host (fetch env n (mxQuery host domain)) with
  | Records => true
  | NoRecords =>
      match reading host (fetch env (S n) (aQuery host domain)) with
      | Records => true
      | _ => false
      end
  | Unreadable => false
  end.

(** [to.includes("@") ? to.split("@")[1] : "unknown"] *)
Definition emailDomainOf (to : JSValue) : Outcome JSValue :=
  hasAt <~ includesAt to ;;
  if hasAt then splitAt1 to else Ok (JStr "unknown").


End GeminiJs.

(* ================================================================== *)
(** * The screens: [App.js]

    The handlers of the report screen and of the email screen that decide
    whether the module above is called, and with what text. *)

Module App.

(** What a press on the submit button of [ReportScreen] does: the alert, or
    the call of [onSubmit]. *)
Inductive Submit : Type :=
| MissingDescription
| OnSubmit (description : string) (location photo : JSValue).

(** [handleSubmit] of [ReportScreen]. *)
Definition handleSubmit (description : string) (location photo : JSValue) : Submit :=
  if negb (truthy (JStr (Str.trim description))) then MissingDescription
  else OnSubmit (Str.trim description) location photo.

(** The argument of [onRevise]. *)
Record Revision : Type := {
  currentTo : string;
  currentSubject : string;
  currentBody : string;
  suggestion : string
}.

(** [handleSuggest] of [EmailScreen]: nothing, or the call of [onRevise]. *)
Definition handleSuggest (to subject body suggestion : string) : option Revision :=
  if negb (truthy (JStr (Str.trim suggestion))) then None
  else Some {| currentTo := to; currentSubject := subject; currentBody := body;
               suggestion := Str.trim suggestion |}.

(** What a press ends in: the result passed to [setEmailData], the alert
    of the [catch] block with the error it reports, the alert for a missing
    description, or nothing at all.  The other state setters ([setScreen],
    [setRevising]) are not part of the embedding. *)
Inductive Shown (A : Type) : Type :=
| EmailData (result : A)
| ErrorAlert (error : Error)
| MissingAlert
| Nothing.
Arguments EmailData {A} result.
Arguments ErrorAlert {A} error.
Arguments MissingAlert {A}.
Arguments Nothing {A}.

Section Handlers.

Variable host : Host.

(** [handleReportSubmit] of [App]: [hasPhoto] is [!!photo]. *)
Definition handleReportSubmit (description : string) (location photo : JSValue)
    : GeminiJs.M (Shown GeminiJs.Draft) :=
  GeminiJs.try_catch
    (GeminiJs.bind (GeminiJs.generateEmailDraft host description location (truthy photo))
       (fun result => GeminiJs.ret (EmailData result)))
    (fun e => GeminiJs.ret (ErrorAlert e)).

(** [handleRevise] of [App]. *)
Definition handleRevise (r : Revision) : GeminiJs.M (Shown JSValue) :=
  GeminiJs.try_catch
    (GeminiJs.bind
       (GeminiJs.reviseEmailDraft host (currentTo r) (currentSubject r) (currentBody r)
          (suggestion r))
       (fun result => GeminiJs.ret (EmailData result)))
    (fun e => GeminiJs.ret (ErrorAlert e)).

(** A press on the submit button, through [onSubmit={handleReportSubmit}]. *)
Definition pressSubmit (description : string) (location photo : JSValue)
    : GeminiJs.M (Shown GeminiJs.Draft) :=
  match handleSubmit description location photo with
  | MissingDescription => GeminiJs.ret MissingAlert
  | OnSubmit description' location' photo' =>
      handleReportSubmit description' location' photo'
  end.

(** A press on the apply button, through [onRevise={handleRevise}]. *)
Definition pressApply (to subject body typed : string) : GeminiJs.M (Shown JSValue) :=
  match handleSuggest to subject body typed with
  | None => GeminiJs.ret Nothing
  | Some r => handleRevise r
  end.

End Handlers.

End App.

(** ** Scenarios of [gemini.js] *)

Module GeminiCases.

Import GeminiJs.

Definition draft : JSValue :=
  JObj [ ("to", JStr "streets@city.gov"); ("subject", JStr "Pothole");
         ("body", JStr "Hello") ].
Definition correction : JSValue :=
  JObj [ ("correctedTo", JStr "info@city.gov"); ("reason", JStr "city website") ].
Definition nowhere : JSValue :=
  JObj [ ("location", JStr "Unknown"); ("city", JStr "Unknown");
         ("state", JStr "Unknown"); ("hasExplicitLocation", JBool false) ].

Definition replies : list JSValue := [draft; correction; nowhere].

(** A host that agrees with the engine on the texts of these scenarios. *)
Definition parse (text : string) : string + JSValue :=
  match find (fun v => String.eqb (Scenario.stringify v) text) replies with
  | Some v => inr v
  | None => inl "Unexpected token"
  end.

Definition host : Host :=
  {| JSON_parse := parse;
     Number_toString := Number_toString Scenario.host;
     String_toNumber := String_toNumber Scenario.host |}.

Definition gateway (p : Prompt) : Settled Response :=
  match p with
  | LocationPrompt _ => Scenario.says nowhere
  | CorrectionPrompt _ _ _ => Scenario.says correction
  | _ => Scenario.says draft
  end.

(** The completion service answers by the kind of the prompt, and the
    resolver answers every query with [dns]. *)
Definition answering (dns : Settled Response) : Env :=
  {| fetch := fun _ req =>
       match req with
       | GeminiPost p _ => gateway p
       | DnsGet _ => dns
       end |}.

End GeminiCases.

(* ================================================================== *)
(** * Properties *)

(** ** Strings *)

Module StrFacts.
Import Str.

Lemma prefix_app (a b : string) :
  prefix a b = true -> exists post, b = a ++ post.
Proof.
  revert b; induction a as [|c a IH]; intros b H.
  - exists b; reflexivity.
  - destruct b as [|c' b]; simpl in H; [discriminate|].
    destruct (ascii_dec c c') as [->|]; [|discriminate].
    destruct (IH _ H) as [post ->]. exists post; reflexivity.
Qed.

Lemma app_prefix (a post : string) : prefix a (a ++ post) = true.
Proof.
  induction a as [|c a IH]; simpl.
  - destruct post; reflexivity.
  - destruct (ascii_dec c c); [assumption|congruence].
Qed.

(** [includes] is the substring relation. *)
Lemma includes_spec (needle hay : string) :
  includes needle hay = true <-> exists pre post, hay = pre ++ needle ++ post.
Proof.
  split.
  - induction hay as [|c hay IH]; cbn [includes]; intros H.
    + rewrite orb_false_r in H. destruct (prefix_app _ _ H) as [post E].
      exists "", post; exact E.
    + apply orb_true_iff in H as [H|H].
      * destruct (prefix_app _ _ H) as [post E]. exists "", post; exact E.
      * destruct (IH H) as (pre & post & ->). exists (String c pre), post; reflexivity.
  - intros (pre & post & ->).
    induction pre as [|c pre IH].
    + change ("" ++ needle ++ post) with (needle ++ post).
      destruct (needle ++ post) eqn:E; cbn [includes]; rewrite <- E, app_prefix; reflexivity.
    + change (String c pre ++ needle ++ post) with (String c (pre ++ needle ++ post)).
      cbn [includes]. rewrite IH. apply orb_true_r.
Qed.

Lemma of_list_app (u v : list ascii) :
  string_of_list_ascii (u ++ v) = string_of_list_ascii u ++ string_of_list_ascii v.
Proof. induction u as [|a u IH]; simpl; [reflexivity|now rewrite IH]. Qed.

End StrFacts.

(** ** Regular expressions: the matcher decides the language *)

Module RegexFacts.
Import Regex.
Local Open Scope list_scope.

Lemma Lang_Void_inv (w : list ascii) : Lang Void w -> False.
Proof. intros H; inversion H. Qed.

Lemma Lang_Eps_inv (w : list ascii) : Lang Eps w -> w = [].
Proof. intros H; inversion H; reflexivity. Qed.

Lemma Lang_Class_inv (p : ascii -> bool) (w : list ascii) :
  Lang (Class p) w -> exists a, w = [a] /\ p a = true.
Proof. intros H; inversion H; subst; eauto. Qed.

Lemma Lang_Cat_inv (r s : regex) (w : list ascii) :
  Lang (Cat r s) w -> exists u v, w = u ++ v /\ Lang r u /\ Lang s v.
Proof. intros H; inversion H; subst; eauto. Qed.

Lemma Lang_Alt_inv (r s : regex) (w : list ascii) :
  Lang (Alt r s) w -> Lang r w \/ Lang s w.
Proof. intros H; inversion H; subst; auto. Qed.

Lemma Lang_Cat_cons (r s : regex) (a : ascii) (u v : list ascii) :
  Lang r (a :: u) -> Lang s v -> Lang (Cat r s) (a :: u ++ v).
Proof. intros Hu Hv. apply (LCat Hu Hv). Qed.

Lemma nullable_Lang (r : regex) : nullable r = true <-> Lang r [].
Proof.
  induction r as [| |p|r IHr s IHs|r IHr s IHs|r IHr]; simpl; split; intros H;
    try discriminate; try (constructor; fail).
  - destruct (Lang_Void_inv H).
  - destruct (Lang_Class_inv H) as (a & E & _); discriminate.
  - apply andb_true_iff in H as [Hr Hs].
    apply (@LCat r s [] []); [now apply IHr|now apply IHs].
  - destruct (Lang_Cat_inv H) as (u & v & E & Hu & Hv).
    symmetry in E. apply app_eq_nil in E as [-> ->].
    apply andb_true_iff; split; [now apply IHr|now apply IHs].
  - apply orb_true_iff in H as [H|H]; [apply LAltL; now apply IHr|apply LAltR; now apply IHs].
  - apply orb_true_iff.
    destruct (Lang_Alt_inv H); [left; now apply IHr|right; now apply IHs].
Qed.

(** A non-empty word of a star starts with a non-empty word of the body. *)
Lemma star_cons (r : regex) (a : ascii) (w : list ascii) :
  Lang (Star r) (a :: w) ->
  exists u v, w = u ++ v /\ Lang r (a :: u) /\ Lang (Star r) v.
Proof.
  intros H. remember (Star r) as sr eqn:Er. remember (a :: w) as aw eqn:Ew.
  revert w Ew.
  induction H as [| | | | | |r' u v Hu _ Hv IHv]; intros w Ew; try discriminate.
  injection Er as ->.
  destruct u as [|b u]; simpl in Ew.
  - apply IHv; [reflexivity|assumption].
  - injection Ew as Eb Ew'. subst b w. exists u, v. repeat split; assumption.
Qed.

Lemma deriv_Lang (a : ascii) (r : regex) (w : list ascii) :
  Lang (deriv a r) w <-> Lang r (a :: w).
Proof.
  revert w.
  induction r as [| |p|r IHr s IHs|r IHr s IHs|r IHr]; intros w; simpl; split; intros H.
  - destruct (Lang_Void_inv H).
  - destruct (Lang_Void_inv H).
  - destruct (Lang_Void_inv H).
  - apply Lang_Eps_inv in H; discriminate.
  - destruct (p a) eqn:E.
    + apply Lang_Eps_inv in H; subst. now constructor.
    + destruct (Lang_Void_inv H).
  - destruct (Lang_Class_inv H) as (b & E & Hb). injection E as Eb E'. subst b w.
    rewrite Hb. constructor.
  - assert (Hcat : forall w0, Lang (Cat (deriv a r) s) w0 -> Lang (Cat r s) (a :: w0)).
    { intros w0 H0. destruct (Lang_Cat_inv H0) as (u & v & -> & Hu & Hv).
      apply Lang_Cat_cons; [now apply IHr|assumption]. }
    destruct (nullable r) eqn:N; [|now apply Hcat].
    destruct (Lang_Alt_inv H) as [H1|H1]; [now apply Hcat|].
    apply (@LCat r s [] (a :: w)); [now apply nullable_Lang|now apply IHs].
  - destruct (Lang_Cat_inv H) as (u & v & E & Hu & Hv).
    destruct u as [|b u]; simpl in E.
    + subst v. apply nullable_Lang in Hu. rewrite Hu. apply LAltR. now apply IHs.
    + injection E as Eb E'. subst b w.
      assert (Lang (Cat (deriv a r) s) (u ++ v)) by (constructor; [now apply IHr|assumption]).
      destruct (nullable r); [now apply LAltL|assumption].
  - destruct (Lang_Alt_inv H); [apply LAltL; now apply IHr|apply LAltR; now apply IHs].
  - destruct (Lang_Alt_inv H); [apply LAltL; now apply IHr|apply LAltR; now apply IHs].
  - destruct (Lang_Cat_inv H) as (u & v & -> & Hu & Hv).
    apply (@LStarCons r (a :: u) v); [now apply IHr|assumption].
  - destruct (star_cons H) as (u & v & -> & Hu & Hv).
    constructor; [now apply IHr|assumption].
Qed.

Lemma matches_Lang (r : regex) (w : list ascii) : matches r w = true <-> Lang r w.
Proof.
  revert r; induction w as [|a w IH]; intros r; simpl.
  - apply nullable_Lang.
  - rewrite IH. apply deriv_Lang.
Qed.

Lemma star_class (p : ascii -> bool) (w : list ascii) :
  Lang (Star (Class p)) w -> Forall (fun c => p c = true) w.
Proof.
  intros H. remember (Star (Class p)) as sr eqn:E.
  induction H as [| | | | | |r u v Hu _ Hv IHv]; try discriminate.
  - constructor.
  - injection E as ->. destruct (Lang_Class_inv Hu) as (a & -> & Ha).
    simpl. constructor; [assumption|now apply IHv].
Qed.

Lemma plus_class (p : ascii -> bool) (w : list ascii) :
  Lang (Plus (Class p)) w -> w <> [] /\ Forall (fun c => p c = true) w.
Proof.
  intros H. destruct (Lang_Cat_inv H) as (u & v & -> & Hu & Hv).
  destruct (Lang_Class_inv Hu) as (a & -> & Ha). simpl. split; [discriminate|].
  constructor; [assumption|now apply star_class].
Qed.

Lemma chr_word (c : ascii) (w : list ascii) : Lang (Chr c) w -> w = [c].
Proof.
  intros H. destruct (Lang_Class_inv H) as (a & -> & Ha).
  apply Ascii.eqb_eq in Ha. now subst.
Qed.

End RegexFacts.

(** The clean-up of a reply and the email test on sample texts. *)
Example cleanup_samples :
  cleanup "```json
{a}
```" = "{a}" /\
  cleanup "Here it is: {a{b}} done } ok" = "{a{b}} done }" /\
  cleanup "  no braces  " = "no braces".
Proof. repeat split; reflexivity. Qed.

Example email_format_samples :
  map (fun s => isValidEmailFormat (JStr s))
    ["a@b.c"; "a.b@c.d.e"; "a@b"; "a b@c.d"; "a@@b.c"; "@b.c"; "a@.c"; "a@b."; ""]
  = [true; true; false; false; false; false; false; false; false].
Proof. reflexivity. Qed.

(** ** The shape of a valid email *)

Module EmailFacts.
Import Str StrFacts.

Lemma all_of_list (p : ascii -> bool) (w : list ascii) :
  Forall (fun c => p c = true) w -> all p (string_of_list_ascii w) = true.
Proof.
  induction 1 as [|c w Hc _ IH]; simpl; [reflexivity|].
  now rewrite Hc, IH.
Qed.

Lemma of_list_nonempty (w : list ascii) : w <> [] -> string_of_list_ascii w <> "".
Proof. destruct w; [congruence|discriminate]. Qed.

Lemma count_app (c : ascii) (a b : string) : count c (a ++ b) = count c a + count c b.
Proof. induction a as [|x a IH]; simpl; [reflexivity|rewrite IH; lia]. Qed.

Lemma count_all_zero (p : ascii -> bool) (c : ascii) (s : string) :
  p c = false -> all p s = true -> count c s = 0.
Proof.
  intros Hc. induction s as [|x s IH]; simpl; intros H; [reflexivity|].
  apply andb_true_iff in H as [Hx Hs]. rewrite (IH Hs).
  destruct (Ascii.eqb c x) eqn:E; [|reflexivity].
  apply Ascii.eqb_eq in E; subst; congruence.
Qed.

(** A string the expression accepts is [local@domain.tld]: three non-empty
    parts without whitespace and without [@]. *)
Lemma valid_email_shape (email : JSValue) :
  isValidEmailFormat email = true ->
  exists local domain tld,
    email = JStr (local ++ "@" ++ domain ++ "." ++ tld) /\
    local <> "" /\ domain <> "" /\ tld <> "" /\
    all notSpaceNorAt local = true /\
    all notSpaceNorAt domain = true /\
    all notSpaceNorAt tld = true.
Proof.
  destruct email as [| | | |s| |]; simpl; try discriminate.
  destruct (String.eqb s ""); [discriminate|].
  unfold Regex.test. intros H. apply RegexFacts.matches_Lang in H.
  unfold emailRegex in H.
  destruct (RegexFacts.Lang_Cat_inv H) as (l & w1 & E0 & Hl & H1).
  destruct (RegexFacts.Lang_Cat_inv H1) as (a & w2 & E1 & Ha & H2).
  destruct (RegexFacts.Lang_Cat_inv H2) as (d & w3 & E2 & Hd & H3).
  destruct (RegexFacts.Lang_Cat_inv H3) as (b & t & E3 & Hb & Ht).
  apply RegexFacts.chr_word in Ha, Hb. subst a b w3 w2 w1.
  apply RegexFacts.plus_class in Hl as [Nl Fl], Hd as [Nd Fd], Ht as [Nt Ft].
  exists (string_of_list_ascii l), (string_of_list_ascii d), (string_of_list_ascii t).
  repeat split; auto using of_list_nonempty, all_of_list.
  f_equal. rewrite <- (string_of_list_ascii_of_string s), E0.
  now rewrite !of_list_app.
Qed.

(** Such a string has exactly one [@]. *)
Lemma valid_email_one_at (s : string) :
  isValidEmailFormat (JStr s) = true -> count "@" s = 1.
Proof.
  intros H. destruct (valid_email_shape _ H) as (l & d & t & E & _ & _ & _ & Hl & Hd & Ht).
  injection E as ->.
  rewrite count_app. cbn [count]. rewrite count_app. cbn [count].
  rewrite (count_all_zero notSpaceNorAt "@" l), (count_all_zero notSpaceNorAt "@" d),
    (count_all_zero notSpaceNorAt "@" t) by (assumption || reflexivity).
  reflexivity.
Qed.

End EmailFacts.

(** ** The effects of the gateway *)

Unset Implicit Arguments.

Section GatewayFacts.

Variable host : Host.

Lemma emits_ret {A} (P : Event -> Prop) (a : A) : emits P (ret a).
Proof. intros env st. exists []. simpl. now rewrite app_nil_r. Qed.

Lemma emits_throw {A} (P : Event -> Prop) (e : Error) : emits P (@throw A e).
Proof. intros env st. exists []. simpl. now rewrite app_nil_r. Qed.

Lemma emits_lift {A} (P : Event -> Prop) (o : Outcome A) : emits P (lift o).
Proof. intros env st. exists []. simpl. now rewrite app_nil_r. Qed.

Lemma emits_bind {A B} (P : Event -> Prop) (m : M A) (k : A -> M B) :
  emits P m -> (forall a, emits P (k a)) -> emits P (bind m k).
Proof.
  intros Hm Hk env st. unfold bind.
  destruct (Hm env st) as (d1 & E1 & F1).
  destruct (m env st) as [[a|e] st1]; simpl in *.
  - destruct (Hk a env st1) as (d2 & E2 & F2).
    exists (d1 ++ d2)%list. rewrite E2, E1, app_assoc. split; [reflexivity|].
    apply Forall_app; split; assumption.
  - exists d1. split; assumption.
Qed.

Lemma emits_try_catch {A} (P : Event -> Prop) (m : M A) (h : Error -> M A) :
  emits P m -> (forall e, emits P (h e)) -> emits P (try_catch m h).
Proof.
  intros Hm Hh env st. unfold try_catch.
  destruct (Hm env st) as (d1 & E1 & F1).
  destruct (m env st) as [[a|e] st1]; simpl in *.
  - exists d1. split; assumption.
  - destruct (Hh e env st1) as (d2 & E2 & F2).
    exists (d1 ++ d2)%list. rewrite E2, E1, app_assoc. split; [reflexivity|].
    apply Forall_app; split; assumption.
Qed.

Lemma emits_weaken {A} (P Q : Event -> Prop) (m : M A) :
  (forall ev, P ev -> Q ev) -> emits P m -> emits Q m.
Proof.
  intros HPQ Hm env st. destruct (Hm env st) as (d & E & F).
  exists d. split; [assumption|]. eapply Forall_impl; eassumption.
Qed.

Lemma emits_doFetch (P : Event -> Prop) (req : Request) :
  P (EvFetch req) -> emits P (doFetch req).
Proof. intros H env st. exists [EvFetch req]. simpl. auto. Qed.

Lemma emits_sleep (P : Event -> Prop) (ms : Q) :
  (forall d, P (EvSetTimeout d)) -> emits P (sleep ms).
Proof. intros H env st. eexists [_]. simpl. split; [reflexivity|auto]. Qed.

Lemma emits_if {A} (P : Event -> Prop) (b : bool) (m1 m2 : M A) :
  emits P m1 -> emits P m2 -> emits P (if b then m1 else m2).
Proof. destruct b; auto. Qed.

Lemma ofCall_fix (p : Prompt) (u : bool) (ev : Event) :
  ofCall (FixPrompt p) u ev <-> ofCall p u ev.
Proof. destruct ev as [[p' u'|]|]; simpl; tauto. Qed.

(** One execution of the [try] block sends the request of this call and at
    most sets a timer. *)
Lemma emits_tryBlock (p : Prompt) (u : bool) (r : nat) :
  emits (ofCall p u) (tryBlock host p u r).
Proof.
  unfold tryBlock.
  apply emits_bind; [apply emits_doFetch; simpl; auto|intros response].
  repeat first
    [ apply emits_if | apply emits_bind | intros ? | apply emits_ret | apply emits_throw
    | apply emits_lift | apply emits_sleep; simpl; auto ].
  destruct (optGet _ "text");
    repeat first [ apply emits_ret | apply emits_throw ].
  destruct (JSON_parse host _); [|apply emits_ret].
  apply emits_if; [apply emits_ret|apply emits_throw].
Qed.

(** A retry re-sends the prompt or a re-prompt of it. *)
Lemma tryBlock_Retry (p p' : Prompt) (u : bool) (r : nat) (env : Env) (st st' : State) :
  tryBlock host p u r env st = (Ok (Retry p'), st') ->
  basePrompt p' = basePrompt p /\ r < MAX_RETRIES.
Proof.
  unfold tryBlock, bind, doFetch, await, lift, ret, throw, sleep.
  destruct (settle (fetch env (fetches st) (GeminiPost p u))) as [response|e];
    [|discriminate].
  destruct (retryableStatus (status response)).
  { destruct (r <? MAX_RETRIES) eqn:L; [|discriminate].
    intros H; injection H as <- _. apply Nat.ltb_lt in L. auto. }
  destruct (negb (ok response)).
  { destruct (settle (text response)); discriminate. }
  destruct (settle (json response)) as [data|e]; [|discriminate].
  destruct (get data "candidates") as [candidates|e]; [|discriminate].
  destruct (isString "MAX_TOKENS" _ && (r <? MAX_RETRIES)) eqn:T.
  { intros H; injection H as <- _. apply andb_true_iff in T as [_ L].
    apply Nat.ltb_lt in L. auto. }
  destruct (negb (truthy _)); [discriminate|].
  destruct (optGet _ "text"); try discriminate.
  destruct (JSON_parse host _); [|discriminate].
  destruct (r <? 3) eqn:L; [|discriminate].
  intros H; injection H as <- _. apply Nat.ltb_lt in L.
  unfold MAX_RETRIES. simpl. split; [reflexivity|lia].
Qed.

(** The [try] block never runs out of fuel: it has no recursion. *)
Lemma tryBlock_fuel (p : Prompt) (u : bool) (r : nat) (env : Env) (st : State) :
  fst (tryBlock host p u r env st) <> Throw OutOfFuel.
Proof.
  unfold tryBlock, bind, doFetch, await, lift, ret, throw, sleep.
  destruct (fetch env (fetches st) (GeminiPost p u)) as [response|m]; simpl;
    [|discriminate].
  destruct (retryableStatus (status response)).
  { destruct (r <? MAX_RETRIES); simpl; discriminate. }
  destruct (negb (ok response)).
  { destruct (text response); simpl; discriminate. }
  destruct (json response) as [data|m]; simpl; [|discriminate].
  unfold get. destruct (nullish data); simpl; [discriminate|].
  destruct (isString "MAX_TOKENS" _ && (r <? MAX_RETRIES)); simpl; [discriminate|].
  destruct (negb (truthy _)); simpl; [discriminate|].
  destruct (optGet _ "text"); simpl; try discriminate.
  destruct (JSON_parse host _); simpl; [|discriminate].
  destruct (r <? 3); simpl; discriminate.
Qed.

Lemma emits_callGemini_rec (fuel : nat) (p : Prompt) (u : bool) (r : nat) :
  emits (ofCall p u) (callGemini_rec host fuel p u r).
Proof.
  revert p r. induction fuel as [|fuel IH]; intros p r; [apply emits_throw|].
  intros env st. simpl.
  destruct (emits_tryBlock p u r env st) as (d1 & E1 & F1).
  destruct (tryBlock host p u r env st) as [[[v|p']|e] st1] eqn:T; simpl in *.
  - exists d1; auto.
  - destruct (tryBlock_Retry _ _ _ _ _ _ _ T) as [Eb _].
    destruct (IH p' (S r) env st1) as (d2 & E2 & F2).
    exists (d1 ++ d2)%list. rewrite E2, E1, app_assoc. split; [reflexivity|].
    apply Forall_app; split; [assumption|].
    eapply Forall_impl; [|exact F2].
    intros [[q uq|]|]; simpl; auto. intros [Eq ->]. split; congruence.
  - destruct ((r <? MAX_RETRIES) && messageIncludes "fetch" e); simpl.
    + assert (Hs : emits (ofCall p u)
                (sleep (backoffDelay r) ;;; callGemini_rec host fuel p u (S r))).
      { apply emits_bind; [apply emits_sleep; simpl; auto|intros _; apply IH]. }
      destruct (Hs env st1) as (d2 & E2 & F2).
      exists (d1 ++ d2)%list. rewrite E2, E1, app_assoc. split; [reflexivity|].
      apply Forall_app; split; assumption.
    + exists d1; auto.
Qed.

Lemma emits_callGemini (p : Prompt) (u : bool) (r : nat) :
  emits (ofCall p u) (callGemini host p u r).
Proof. apply emits_callGemini_rec. Qed.

(** The recursion of [callGemini] ends within its bound. *)
Lemma callGemini_rec_fuel (fuel : nat) (p : Prompt) (u : bool) (r : nat)
    (env : Env) (st : State) :
  MAX_RETRIES - r < fuel ->
  fst (callGemini_rec host fuel p u r env st) <> Throw OutOfFuel.
Proof.
  revert p r st. induction fuel as [|fuel IH]; intros p r st Hf; [lia|].
  cbn [callGemini_rec].
  pose proof (tryBlock_fuel p u r env st) as Ht.
  destruct (tryBlock host p u r env st) as [[[v|p']|e] st1] eqn:T; cbn [fst] in Ht.
  - discriminate.
  - destruct (tryBlock_Retry _ _ _ _ _ _ _ T) as [_ Hr].
    apply IH. unfold MAX_RETRIES in *. lia.
  - assert (He : @Throw JSValue e <> Throw OutOfFuel)
      by (intros X; apply Ht; injection X as ->; reflexivity).
    destruct (r <? MAX_RETRIES) eqn:L; cbn [andb fst]; [|assumption].
    destruct (messageIncludes "fetch" e); cbn [fst]; [|assumption].
    apply Nat.ltb_lt in L. unfold bind, sleep. apply IH. unfold MAX_RETRIES in *. lia.
Qed.

Lemma callGemini_total (p : Prompt) (u : bool) (r : nat) (env : Env) (st : State) :
  fst (callGemini host p u r env st) <> Throw OutOfFuel.
Proof. apply callGemini_rec_fuel. unfold MAX_RETRIES. lia. Qed.

End GatewayFacts.

(** ** Runs of the pipeline *)

Section PipelineFacts.

Variable host : Host.

Lemma bind_Ok {A B} (m : M A) (k : A -> M B) env st b st' :
  bind m k env st = (Ok b, st') ->
  exists a st1, m env st = (Ok a, st1) /\ k a env st1 = (Ok b, st').
Proof.
  unfold bind. destruct (m env st) as [[a|e] st1]; [|discriminate].
  intros H. exists a, st1. auto.
Qed.

Lemma bind_run {A B} (m : M A) (k : A -> M B) env st a st1 :
  m env st = (Ok a, st1) -> bind m k env st = k a env st1.
Proof. unfold bind. now intros ->. Qed.

Lemma lift_Ok {A} (o : Outcome A) env st a st' :
  lift o env st = (Ok a, st') -> o = Ok a /\ st' = st.
Proof. unfold lift. intros H; injection H as -> ->. auto. Qed.

Lemma ret_Ok {A} (x : A) env st a st' :
  ret x env st = (Ok a, st') -> a = x /\ st' = st.
Proof. unfold ret. intros H; injection H as -> ->. auto. Qed.

(** An accepted candidate is an object, hence truthy: the guards
    [if (!emailResult)] of the later passes then fail. *)
Lemma accepts_truthy (topic pass : JSValue) :
  accepts host topic pass = Ok true -> truthy pass = true.
Proof.
  unfold accepts, get. destruct pass; simpl; try discriminate; auto.
Qed.

(** What the test of a pass establishes. *)
Lemma accepts_inv (topic pass : JSValue) :
  accepts host topic pass = Ok true ->
  truthy (getProp pass "found") = true /\
  isValidEmailFormat (getProp pass "email") = true /\
  optIncludes host (optGet (getProp pass "evidence") "quoted_snippet") (getProp pass "email")
    = Ok (JBool true) /\
  isDepartmentRelevant host topic (getProp pass "agency_name") (getProp pass "email") = Ok true.
Proof.
  unfold accepts, get, obind.
  destruct (nullish pass); [discriminate|].
  destruct (truthy (getProp pass "found")); [|discriminate]. simpl.
  destruct (isValidEmailFormat (getProp pass "email")); [|discriminate]. simpl.
  destruct (optIncludes host _ _) as [q|e] eqn:I; [|discriminate].
  destruct (truthy q) eqn:Tq; [|discriminate]. simpl.
  intros H. repeat split; try assumption.
  f_equal. unfold optIncludes in I.
  destruct (optGet _ "quoted_snippet"); try discriminate;
    injection I as <-; simpl in Tq; try discriminate; now rewrite Tq.
Qed.

(** The test of a pass is the conjunction of the four criteria. *)
Lemma accepts_criteria (topic pass : JSValue) :
  accepts host topic pass = Ok true <->
  truthy (getProp pass "found") = true /\
  isValidEmailFormat (getProp pass "email") = true /\
  optIncludes host (optGet (getProp pass "evidence") "quoted_snippet") (getProp pass "email")
    = Ok (JBool true) /\
  isDepartmentRelevant host topic (getProp pass "agency_name") (getProp pass "email") = Ok true.
Proof.
  split; [apply accepts_inv|].
  intros (Hf & Hv & Hq & Hr).
  unfold accepts, get, obind.
  destruct (nullish pass) eqn:N; [destruct pass; discriminate|].
  now rewrite Hf, Hv, Hq.
Qed.

(** The order of trust is strict: distinct levels have distinct ranks. *)
Lemma rank_injective (l1 l2 : FallbackLevel) : rank l1 = rank l2 -> l1 = l2.
Proof. destruct l1, l2; simpl; intros H; congruence. Qed.

Lemma searchPass_Ok (find : M JSValue) level topic sel env st sel' st' :
  searchPass host find level topic sel env st = (Ok sel', st') ->
  exists pass, find env st = (Ok pass, st') /\
    ((accepts host topic pass = Ok true /\ sel' = (pass, level)) \/
     (accepts host topic pass = Ok false /\ sel' = sel)).
Proof.
  unfold searchPass. intros H.
  apply bind_Ok in H as (pass & st1 & Hf & H).
  apply bind_Ok in H as (acc & st2 & Ha & H).
  apply lift_Ok in Ha as [Ha ->].
  exists pass. destruct acc; apply ret_Ok in H as [-> ->]; auto.
Qed.



Lemma run_delta {A} (P : Event -> Prop) (m : M A) env st o st' :
  emits P m -> m env st = (o, st') ->
  exists delta, trace st' = (trace st ++ delta)%list /\ Forall P delta.
Proof. intros Hm E. specialize (Hm env st). now rewrite E in Hm. Qed.

(** The tier of a request of a gateway call is the tier of its prompt. *)
Lemma ofCall_tier (p : Prompt) (u : bool) (ev : Event) :
  ofCall p u ev -> evTier ev = None \/ evTier ev = tierOf p.
Proof.
  destruct ev as [[p' u'|]|]; simpl; auto.
  intros [E _]. right. unfold tierOf. now rewrite E.
Qed.

Lemma ofCall_within (p : Prompt) (u : bool) (level : FallbackLevel) (ev : Event) :
  match tierOf p with Some l => rank l <= rank level | None => True end ->
  ofCall p u ev -> withinLevel level ev.
Proof.
  intros Hl H. unfold withinLevel.
  destruct (ofCall_tier _ _ _ H) as [-> | ->]; auto.
Qed.

Lemma within_mono (l1 l2 : FallbackLevel) (ev : Event) :
  rank l1 <= rank l2 -> withinLevel l1 ev -> withinLevel l2 ev.
Proof. unfold withinLevel. destruct (evTier ev); [lia|auto]. Qed.

Lemma emits_checkDomainMX (domain : string) :
  emits (fun ev => evTier ev = None) (checkDomainMX host domain).
Proof.
  unfold checkDomainMX. apply emits_try_catch.
  - apply emits_bind; [apply emits_doFetch; reflexivity|intros response].
    apply emits_bind; [apply emits_lift|intros data; apply emits_lift].
  - intros _. apply emits_ret.
Qed.

Lemma emits_untiered (p : Prompt) (u : bool) (r : nat) :
  tierOf p = None -> emits (fun ev => evTier ev = None) (callGemini host p u r).
Proof.
  intros Hp. eapply emits_weaken; [|apply emits_callGemini].
  intros ev H. destruct (ofCall_tier _ _ _ H) as [E|E]; congruence.
Qed.

Lemma emits_determineJurisdiction (description : string) (location : JSValue) :
  emits (fun ev => evTier ev = None) (determineJurisdiction host description location).
Proof.
  unfold determineJurisdiction, extractLocation.
  repeat first
    [ apply emits_if | apply emits_try_catch | apply emits_bind | intros ?
    | apply emits_ret | apply emits_lift | apply emits_untiered; reflexivity ].
Qed.

Lemma emits_extractTopic (description : string) :
  emits (fun ev => evTier ev = None) (extractTopic host description).
Proof.
  unfold extractTopic.
  repeat first
    [ apply emits_bind | intros ? | apply emits_ret | apply emits_lift
    | apply emits_untiered; reflexivity ].
Qed.

Lemma emits_dnsCheck (emailResult : JSValue) :
  emits (fun ev => evTier ev = None) (dnsCheck host emailResult).
Proof.
  unfold dnsCheck.
  apply emits_bind; [apply emits_lift|intros email].
  apply emits_bind; [apply emits_lift|intros [| | | |d| |]]; try apply emits_ret.
  apply emits_if; [apply emits_checkDomainMX|apply emits_ret].
Qed.

Lemma emits_composeDraft description hasPhoto jurisdiction topic sel :
  emits (fun ev => evTier ev = None)
    (composeDraft host description hasPhoto jurisdiction topic sel).
Proof.
  unfold composeDraft.
  apply emits_bind; [apply emits_dnsCheck|intros dnsValid].
  apply emits_bind; [apply emits_untiered; reflexivity|intros emailContent].
  apply emits_bind; [apply emits_lift|intros _; apply emits_ret].
Qed.

Lemma untiered_within (level : FallbackLevel) (ev : Event) :
  evTier ev = None -> withinLevel level ev.
Proof. unfold withinLevel. now intros ->. Qed.

(** The requests of one search call stay within the tier of the call. *)
Lemma find_within (p : Prompt) (u : bool) (level l : FallbackLevel) env st pass st' :
  tierOf p = Some l -> rank l <= rank level ->
  callGemini host p u 0 env st = (Ok pass, st') ->
  exists delta, trace st' = (trace st ++ delta)%list /\ Forall (withinLevel level) delta.
Proof.
  intros Hp Hl Hrun.
  destruct (run_delta _ _ _ _ _ _ (emits_callGemini host p u 0) Hrun) as (d & E & F).
  exists d. split; [assumption|].
  eapply Forall_impl; [|exact F]. intros ev. apply ofCall_within. now rewrite Hp.
Qed.

Lemma unlessSelected_selected (sel : Selection) (m : M Selection) :
  truthy (fst sel) = true -> unlessSelected sel m = ret sel.
Proof. unfold unlessSelected. now intros ->. Qed.

Lemma unlessSelected_missing (sel : Selection) (m : M Selection) :
  truthy (fst sel) = false -> unlessSelected sel m = m.
Proof. unfold unlessSelected. now intros ->. Qed.


(** Step 3 returns the selection of the highest accepted tier, and calls no
    tier below it. *)
Lemma searchPasses_Ok jurisdiction topic env st sel st' :
  searchPasses host jurisdiction topic env st = (Ok sel, st') ->
  exists level,
    highestAccepted host env jurisdiction topic st level st' /\
    ((level <> UNVERIFIED_GUESS /\ snd sel = level /\
      accepts host topic (fst sel) = Ok true) \/
     (level = UNVERIFIED_GUESS /\ sel = (JNull, TOPIC_SPECIFIC))) /\
    exists delta,
      trace st' = (trace st ++ delta)%list /\
      Forall (withinLevel (match level with
                           | UNVERIFIED_GUESS => JURISDICTION_GENERAL
                           | l => l
                           end)) delta.
Proof.
  unfold searchPasses. intros H.
  apply bind_Ok in H as (selA & stA & HA & H).
  apply searchPass_Ok in HA as (passA & RA & HA).
  destruct (find_within (TopicSpecificPrompt jurisdiction topic) _ TOPIC_SPECIFIC
              _ _ _ _ _ eq_refl (le_n _) RA) as (dA & EA & FA).
  destruct HA as [[AA ->]|[AA ->]].
  { (* PASS A accepted *)
    rewrite unlessSelected_selected in H by (exact (accepts_truthy _ _ AA)).
    unfold bind at 1 in H. unfold ret at 1 in H.
    rewrite unlessSelected_selected in H by (exact (accepts_truthy _ _ AA)).
    unfold ret in H. injection H as <- <-.
    exists TOPIC_SPECIFIC. split; [exists passA, stA; auto|].
    split; [left; repeat split; [discriminate|assumption]|].
    exists dA; auto. }
  apply bind_Ok in H as (selB & stB & HB & H).
  rewrite unlessSelected_missing in HB by reflexivity.
  apply searchPass_Ok in HB as (passB & RB & HB).
  destruct (find_within (AgencyPrompt jurisdiction topic) _ AGENCY_MAIN
              _ _ _ _ _ eq_refl (le_n _) RB) as (dB & EB & FB).
  destruct HB as [[AB ->]|[AB ->]].
  { (* PASS B accepted *)
    rewrite unlessSelected_selected in H by (exact (accepts_truthy _ _ AB)).
    unfold ret in H. injection H as <- <-.
    exists AGENCY_MAIN. split; [exists passA, stA; repeat split; eauto|].
    split; [left; repeat split; [discriminate|assumption]|].
    exists (dA ++ dB)%list. rewrite EB, EA, app_assoc. split; [reflexivity|].
    apply Forall_app; split; [|assumption].
    eapply Forall_impl; [|exact FA]. intros ev. apply within_mono. simpl; lia. }
  rewrite unlessSelected_missing in H by reflexivity.
  apply searchPass_Ok in H as (passC & RC & HC).
  destruct (find_within (GeneralPrompt jurisdiction) _ JURISDICTION_GENERAL
              _ _ _ _ _ eq_refl (le_n _) RC) as (dC & EC & FC).
  assert (FABC : Forall (withinLevel JURISDICTION_GENERAL) ((dA ++ dB) ++ dC)).
  { repeat (apply Forall_app; split); try assumption.
    - eapply Forall_impl; [|exact FA]. intros ev. apply within_mono. simpl; lia.
    - eapply Forall_impl; [|exact FB]. intros ev. apply within_mono. simpl; lia. }
  assert (EABC : trace st' = (trace st ++ (dA ++ dB) ++ dC)%list)
    by (rewrite EC, EB, EA, !app_assoc; reflexivity).
  destruct HC as [[AC ->]|[AC ->]].
  - exists JURISDICTION_GENERAL.
    split; [exists passA, stA; repeat split; eauto 10|].
    split; [left; repeat split; [discriminate|assumption]|].
    eauto.
  - exists UNVERIFIED_GUESS.
    split; [exists passA, stA; repeat split; eauto 10|].
    split; [right; auto|]. eauto.
Qed.


(** The last resort leaves a selection alone and replaces a missing one by
    the guess. *)
Lemma lastResort_selected jurisdiction topic sel env st :
  truthy (fst sel) = true ->
  lastResort host jurisdiction topic sel env st = (Ok sel, st).
Proof. intros H. unfold lastResort. now rewrite unlessSelected_selected. Qed.

Lemma lastResort_Ok jurisdiction topic level env st fin st' :
  lastResort host jurisdiction topic (JNull, level) env st = (Ok fin, st') ->
  exists guess,
    callGemini host (GuessPrompt jurisdiction topic) false 0 env st = (Ok guess, st') /\
    nullish guess = false /\
    fin = (guessResult guess, UNVERIFIED_GUESS).
Proof.
  unfold lastResort, unlessSelected. simpl. intros H.
  apply bind_Ok in H as (guess & st1 & Hg & H).
  apply bind_Ok in H as (x & st2 & Hx & H).
  apply lift_Ok in Hx as [Hx ->]. apply ret_Ok in H as [-> ->].
  exists guess. repeat split; [assumption|].
  unfold get in Hx. destruct (nullish guess); [discriminate|reflexivity].
Qed.


Lemma composeDraft_Ok description hasPhoto jurisdiction topic sel env st r st' :
  composeDraft host description hasPhoto jurisdiction topic sel env st = (Ok r, st') ->
  exists emailContent dnsValid, r = buildResult jurisdiction topic sel emailContent dnsValid.
Proof.
  unfold composeDraft. intros H.
  apply bind_Ok in H as (dnsValid & st1 & _ & H).
  apply bind_Ok in H as (emailContent & st2 & _ & H).
  apply bind_Ok in H as (x & st3 & _ & H).
  apply ret_Ok in H as [-> _]. eauto.
Qed.

(** A run of [generateEmailDraft] that returns, taken apart. *)
Lemma generateEmailDraft_Ok description location hasPhoto env st r st' :
  generateEmailDraft host description location hasPhoto env st = (Ok r, st') ->
  exists j tp st1 st2 st3 st4 sel fin emailContent dnsValid,
    determineJurisdiction host description location env st = (Ok j, st1) /\
    extractTopic host description env st1 = (Ok tp, st2) /\
    searchPasses host j tp env st2 = (Ok sel, st3) /\
    lastResort host j tp sel env st3 = (Ok fin, st4) /\
    composeDraft host description hasPhoto j tp fin env st4 = (Ok r, st') /\
    r = buildResult j tp fin emailContent dnsValid.
Proof.
  unfold generateEmailDraft, routeWithin, routeTopic. intros H.
  apply bind_Ok in H as (j & st1 & H1 & H).
  apply bind_Ok in H as (tp & st2 & H2 & H).
  apply bind_Ok in H as (sel & st3 & H3 & H).
  apply bind_Ok in H as (fin & st4 & H4 & H).
  destruct (composeDraft_Ok _ _ _ _ _ _ _ _ _ H) as (c & d & E).
  exists j, tp, st1, st2, st3, st4, sel, fin, c, d. auto 10.
Qed.

(** The candidate a returning run selected: an accepted candidate of the
    tier it reports, or the guess. *)
Lemma selection_of_run description location hasPhoto env st r st' :
  generateEmailDraft host description location hasPhoto env st = (Ok r, st') ->
  exists stA stZ fin emailContent dnsValid,
    r = buildResult (jurisdiction r) (topic r) fin emailContent dnsValid /\
    snd fin = fallback_level r /\
    highestAccepted host env (jurisdiction r) (topic r) stA (fallback_level r) stZ /\
    ((fallback_level r <> UNVERIFIED_GUESS /\ accepts host (topic r) (fst fin) = Ok true) \/
     (fallback_level r = UNVERIFIED_GUESS /\ exists guess, fst fin = guessResult guess)) /\
    exists delta,
      trace st' = (trace st ++ delta)%list /\
      Forall (withinLevel (fallback_level r)) delta.
Proof.
  intros H.
  destruct (generateEmailDraft_Ok _ _ _ _ _ _ _ H)
    as (j & tp & st1 & st2 & st3 & st4 & sel & fin & c & d & H1 & H2 & H3 & H4 & H5 & ->).
  destruct (run_delta _ _ _ _ _ _ (emits_determineJurisdiction _ _) H1) as (d1 & E1 & F1).
  destruct (run_delta _ _ _ _ _ _ (emits_extractTopic _) H2) as (d2 & E2 & F2).
  destruct (run_delta _ _ _ _ _ _ (emits_composeDraft _ _ _ _ _) H5) as (d5 & E5 & F5).
  destruct (searchPasses_Ok _ _ _ _ _ _ H3) as (level & HL & Hsel & d3 & E3 & F3).
  cbn [jurisdiction topic fallback_level buildResult].
  destruct Hsel as [(Hng & Hlv & Hacc)|(-> & ->)].
  - rewrite (lastResort_selected _ _ _ _ _ (accepts_truthy _ _ Hacc)) in H4.
    injection H4 as <- <-. rewrite Hlv.
    exists st2, st3, sel, c, d. repeat split; auto.
    exists (((d1 ++ d2) ++ d3) ++ d5)%list.
    split; [rewrite E5, E3, E2, E1, !app_assoc; reflexivity|].
    repeat (apply Forall_app; split).
    + eapply Forall_impl; [|exact F1]. intros ev; apply untiered_within.
    + eapply Forall_impl; [|exact F2]. intros ev; apply untiered_within.
    + destruct level; try assumption. congruence.
    + eapply Forall_impl; [|exact F5]. intros ev; apply untiered_within.
  - apply lastResort_Ok in H4 as (guess & Hg & Hn & ->).
    destruct (find_within (GuessPrompt j tp) _ UNVERIFIED_GUESS _ _ _ _ _ eq_refl (le_n _) Hg)
      as (d4 & E4 & F4).
    exists st2, st3, (guessResult guess, UNVERIFIED_GUESS), c, d.
    cbn [fst snd]. repeat split; eauto.
    exists ((((d1 ++ d2) ++ d3) ++ d4) ++ d5)%list.
    split; [rewrite E5, E4, E3, E2, E1, !app_assoc; reflexivity|].
    repeat (apply Forall_app; split); try assumption.
    + eapply Forall_impl; [|exact F1]. intros ev; apply untiered_within.
    + eapply Forall_impl; [|exact F2]. intros ev; apply untiered_within.
    + eapply Forall_impl; [|exact F3]. intros ev. apply within_mono. simpl; lia.
    + eapply Forall_impl; [|exact F5]. intros ev; apply untiered_within.
Qed.

(** The run of the passes from a state determines the candidate of a tier. *)
Lemma candidateOfTier_unique env j tp st level pass1 pass2 :
  candidateOfTier host env j tp st level pass1 ->
  candidateOfTier host env j tp st level pass2 ->
  pass1 = pass2.
Proof.
  intros (a1 & sa1 & Ra1 & H1) (a2 & sa2 & Ra2 & H2).
  rewrite Ra1 in Ra2. injection Ra2 as <- <-.
  destruct level; try congruence;
    destruct H1 as (b1 & sb1 & Rb1 & H1), H2 as (b2 & sb2 & Rb2 & H2);
    rewrite Rb1 in Rb2; injection Rb2 as <- <-; try congruence;
    destruct H1 as (c1 & sc1 & Rc1 & H1), H2 as (c2 & sc2 & Rc2 & H2);
    rewrite Rc1 in Rc2; injection Rc2 as <- <-; try congruence.
  destruct H1 as (g1 & sg1 & Rg1 & ->), H2 as (g2 & sg2 & Rg2 & ->).
  rewrite Rg1 in Rg2. now injection Rg2 as <- _.
Qed.

(** What step 3 and the last resort leave in [emailResult] is the candidate
    of the tier they leave in [fallbackLevel]; a candidate of a search tier
    passed the test of its pass. *)
Lemma candidate_of_passes j tp env st sel st3 fin st4 :
  searchPasses host j tp env st = (Ok sel, st3) ->
  lastResort host j tp sel env st3 = (Ok fin, st4) ->
  candidateOfTier host env j tp st (snd fin) (fst fin) /\
  (snd fin <> UNVERIFIED_GUESS -> accepts host tp (fst fin) = Ok true).
Proof.
  unfold searchPasses. intros H HL.
  apply bind_Ok in H as (selA & stA & HA & H).
  apply searchPass_Ok in HA as (passA & RA & HA).
  destruct HA as [[AA ->]|[AA ->]].
  { rewrite unlessSelected_selected in H by (exact (accepts_truthy _ _ AA)).
    unfold bind at 1 in H. unfold ret at 1 in H.
    rewrite unlessSelected_selected in H by (exact (accepts_truthy _ _ AA)).
    unfold ret in H. injection H as <- <-.
    rewrite (lastResort_selected j tp (passA, TOPIC_SPECIFIC) env stA
               (accepts_truthy _ _ AA)) in HL.
    injection HL as <- <-. cbn [fst snd]. split; [|auto].
    exists passA, stA. auto. }
  apply bind_Ok in H as (selB & stB & HB & H).
  rewrite unlessSelected_missing in HB by reflexivity.
  apply searchPass_Ok in HB as (passB & RB & HB).
  destruct HB as [[AB ->]|[AB ->]].
  { rewrite unlessSelected_selected in H by (exact (accepts_truthy _ _ AB)).
    unfold ret in H. injection H as <- <-.
    rewrite (lastResort_selected j tp (passB, AGENCY_MAIN) env stB
               (accepts_truthy _ _ AB)) in HL.
    injection HL as <- <-. cbn [fst snd]. split; [|auto].
    exists passA, stA. split; [assumption|]. exists passB, stB. auto. }
  rewrite unlessSelected_missing in H by reflexivity.
  apply searchPass_Ok in H as (passC & RC & HC).
  destruct HC as [[AC ->]|[AC ->]].
  - rewrite (lastResort_selected j tp (passC, JURISDICTION_GENERAL) env st3
               (accepts_truthy _ _ AC)) in HL.
    injection HL as <- <-. cbn [fst snd]. split; [|auto].
    exists passA, stA. split; [assumption|]. exists passB, stB. split; [assumption|].
    exists passC, st3. auto.
  - apply lastResort_Ok in HL as (guess & Hg & Hn & ->). cbn [fst snd].
    split; [|intros F; now destruct F].
    exists passA, stA. split; [assumption|]. exists passB, stB. split; [assumption|].
    exists passC, st3. split; [assumption|]. exists guess, st4. auto.
Qed.

End PipelineFacts.

(** ** The properties of the specification *)

Section SpecifiedProperties.

Variable host : Host.


(** An evidence object whose snippet includes something is an object. *)
Lemma quoted_evidence_truthy (ev arg : JSValue) :
  optIncludes host (optGet ev "quoted_snippet") arg = Ok (JBool true) ->
  truthy ev = true.
Proof.
  destruct ev as [| |b|n|s|l|f]; simpl; try discriminate; auto.
Qed.

(** C2.  A candidate passes the test of a search pass only if its email is
    a string of the shape local@domain.tld (non-empty parts without
    whitespace, exactly one [@], a dot inside the domain) and the quoted
    snippet of its own evidence includes that email, which for a snippet
    that is a string means that the email is a contiguous substring of it; a
    candidate that fails either condition does not pass, whatever its
    [found].  The address a run returns at a search tier is such a
    candidate's, returned with its evidence. *)
Theorem accepted_only_if_quoted_and_valid :
  (forall topic pass,
     accepts host topic pass = Ok true ->
     exists email,
       getProp pass "email" = JStr email /\
       optIncludes host (optGet (getProp pass "evidence") "quoted_snippet") (JStr email)
         = Ok (JBool true) /\
       (forall snippet,
          optGet (getProp pass "evidence") "quoted_snippet" = JStr snippet ->
          exists pre post, snippet = pre ++ email ++ post) /\
       isValidEmailFormat (JStr email) = true /\
       Str.count "@" email = 1 /\
       exists local domain tld,
         email = local ++ "@" ++ domain ++ "." ++ tld /\
         local <> "" /\ domain <> "" /\ tld <> "" /\
         Str.all notSpaceNorAt local = true /\
         Str.all notSpaceNorAt domain = true /\
         Str.all notSpaceNorAt tld = true) /\
  (forall topic pass,
     isValidEmailFormat (getProp pass "email") = false \/
     optIncludes host (optGet (getProp pass "evidence") "quoted_snippet")
       (getProp pass "email") <> Ok (JBool true) ->
     accepts host topic pass <> Ok true) /\
  (forall description location hasPhoto env st r st',
     generateEmailDraft host description location hasPhoto env st = (Ok r, st') ->
     fallback_level r <> UNVERIFIED_GUESS ->
     exists pass,
       accepts host (topic r) pass = Ok true /\
       to r = getProp pass "email" /\
       evidence r = getProp pass "evidence").
Proof.
  split; [|split].
  - intros tp pass H.
    destruct (accepts_inv host _ _ H) as (_ & Hv & Hq & _).
    destruct (EmailFacts.valid_email_shape _ Hv) as (l & d & t & E & Hshape).
    exists (l ++ "@" ++ d ++ "." ++ t). rewrite E in Hq, Hv.
    repeat split; try assumption.
    + intros snippet Es. rewrite Es in Hq. simpl in Hq.
      injection Hq as Hq. now apply StrFacts.includes_spec.
    + now apply EmailFacts.valid_email_one_at.
    + exists l, d, t. tauto.
  - intros tp pass Hfail Hacc.
    destruct (accepts_inv host _ _ Hacc) as (_ & Hv & Hq & _).
    destruct Hfail as [Hf|Hf]; congruence.
  - intros description location hasPhoto env st r st' H Hlevel.
    destruct (selection_of_run host _ _ _ _ _ _ _ H)
      as (stA & stZ & fin & c & d & Er & _ & _ & Hsel & _).
    destruct Hsel as [[_ Hacc]|[Hg _]]; [|contradiction].
    exists (fst fin). split; [assumption|].
    rewrite Er. cbn [to evidence buildResult]. split; [reflexivity|].
    destruct (accepts_inv host _ _ Hacc) as (_ & _ & Hq & _).
    unfold or_else. now rewrite (quoted_evidence_truthy _ _ Hq).
Qed.

(** C10.  The confidence a run reports is [emailResult.confidence || 0.5]
    of the candidate the run chose: the object the call of the reported tier
    returned in this run (for the guess tier, the object built from the
    guess).  It is never 0, [null] or [undefined]; when the chosen candidate
    of a search tier has a confidence that is missing, [null] or 0, the
    report is 0.5, which exceeds the 0.1 that the guess tier always reports;
    any other confidence of the candidate is reported as it is. *)
Theorem missing_confidence_reported_as_half
    description location hasPhoto env st r st' :
  generateEmailDraft host description location hasPhoto env st = (Ok r, st') ->
  truthy (confidence r) = true /\
  isZero (confidence r) = false /\
  (fallback_level r = UNVERIFIED_GUESS -> confidence r = JNum (Finite (1 # 10))) /\
  exists st1 st2 chosen,
    determineJurisdiction host description location env st = (Ok (jurisdiction r), st1) /\
    extractTopic host description env st1 = (Ok (topic r), st2) /\
    candidateOfTier host env (jurisdiction r) (topic r) st2 (fallback_level r) chosen /\
    (forall other,
       candidateOfTier host env (jurisdiction r) (topic r) st2 (fallback_level r) other ->
       other = chosen) /\
    to r = getProp chosen "email" /\
    agency_name r = getProp chosen "agency_name" /\
    confidence r = or_else (getProp chosen "confidence") (JNum (Finite (1 # 2))) /\
    (truthy (getProp chosen "confidence") = true ->
     confidence r = getProp chosen "confidence") /\
    (fallback_level r <> UNVERIFIED_GUESS ->
     accepts host (topic r) chosen = Ok true /\
     (getProp chosen "confidence" = JUndefined \/ getProp chosen "confidence" = JNull \/
      isZero (getProp chosen "confidence") = true ->
      confidence r = JNum (Finite (1 # 2)) /\ (1 # 10 < 1 # 2)%Q)).
Proof.
  intros H.
  destruct (generateEmailDraft_Ok host _ _ _ _ _ _ _ H)
    as (j & tp & st1 & st2 & st3 & st4 & sel & fin & c & d & H1 & H2 & H3 & H4 & _ & Er).
  destruct (candidate_of_passes host _ _ _ _ _ _ _ _ H3 H4) as [Hcand Hacc].
  assert (Hc : confidence r = or_else (getProp (fst fin) "confidence") (JNum (Finite (1 # 2))))
    by (rewrite Er; reflexivity).
  assert (Ht : truthy (confidence r) = true).
  { rewrite Hc. unfold or_else.
    destruct (truthy (getProp (fst fin) "confidence")) eqn:T; [assumption|reflexivity]. }
  split; [assumption|]. split.
  { destruct (confidence r) as [| | |[q| |]| | |]; try reflexivity.
    simpl in Ht |- *. now apply negb_true_iff in Ht. }
  assert (Ej : jurisdiction r = j) by (rewrite Er; reflexivity).
  assert (Et : topic r = tp) by (rewrite Er; reflexivity).
  assert (El : fallback_level r = snd fin) by (rewrite Er; reflexivity).
  rewrite Ej, Et, El. split.
  - intros Hlevel. destruct Hcand as (a & sa & _ & Hcand). rewrite Hlevel in Hcand.
    destruct Hcand as (b & sb & _ & cc & sc & _ & guess & sg & _ & Eg).
    rewrite Hc, Eg. reflexivity.
  - exists st1, st2, (fst fin).
    split; [assumption|]. split; [assumption|]. split; [assumption|].
    split; [intros other Ho; exact (candidateOfTier_unique host _ _ _ _ _ _ _ Ho Hcand)|].
    split; [rewrite Er; reflexivity|]. split; [rewrite Er; reflexivity|].
    split; [assumption|].
    split; [intros T; rewrite Hc; unfold or_else; now rewrite T|].
    intros Hlevel. split; [now apply Hacc|].
    intros Hmissing. split; [|reflexivity].
    rewrite Hc. unfold or_else.
    destruct Hmissing as [-> | [-> | Hz]]; try reflexivity.
    destruct (getProp (fst fin) "confidence") as [| | |[q| |]| | |]; try discriminate.
    simpl in Hz |- *. now rewrite Hz.
Qed.


(** The Domain Verifier always returns, having sent one request. *)
Lemma checkDomainMX_Ok (domain : string) env st :
  exists v,
    checkDomainMX host domain env st
      = (Ok v, {| fetches := S (fetches st); randoms := randoms st;
                  trace := trace st ++ [EvFetch (DnsGet (dnsUrl domain) 5000)] |}).
Proof.
  unfold checkDomainMX, try_catch, bind, doFetch, await, lift, ret.
  destruct (fetch env (fetches st) _) as [response|m]; simpl; [|eauto].
  destruct (json response) as [data|m]; simpl; [|eauto].
  destruct (hasMailRecords host data); eauto.
Qed.



(** C5.  A location that is present (truthy, as every object is) but does
    not hold a number in both [latitude] and [longitude] raises no error:
    the jurisdiction step returns the default ["Palo Alto, CA"] without any
    request, the run goes on as steps 2 to 5 for that jurisdiction, and a
    result carries it. *)
Theorem malformed_location_defaults description location hasPhoto env st :
  truthy location = true ->
  isNumber (getProp location "latitude") && isNumber (getProp location "longitude") = false ->
  determineJurisdiction host description location env st = (Ok "Palo Alto, CA", st) /\
  generateEmailDraft host description location hasPhoto env st
    = routeWithin host description hasPhoto "Palo Alto, CA" env st /\
  (forall r st',
     generateEmailDraft host description location hasPhoto env st = (Ok r, st') ->
     jurisdiction r = "Palo Alto, CA").
Proof.
  intros Ht Hn.
  assert (Hj : determineJurisdiction host description location env st
               = (Ok "Palo Alto, CA", st)).
  { unfold determineJurisdiction. rewrite Ht. rewrite <- andb_assoc, Hn. reflexivity. }
  split; [assumption|]. split.
  - unfold generateEmailDraft. now rewrite (bind_run _ _ _ _ _ _ Hj).
  - intros r st' H.
    destruct (generateEmailDraft_Ok host _ _ _ _ _ _ _ H)
      as (j & tp & st1 & st2 & st3 & st4 & sel & fin & c & d & H1 & _ & _ & _ & _ & ->).
    rewrite Hj in H1. now injection H1 as <- _.
Qed.

(** C6, as the code has it.  After the jurisdiction step, a topic call that
    returns an object whose [topic] is missing or empty makes the run
    continue with the topic ["general issue"]; a topic call that fails makes
    the whole run fail with the same error. *)
Theorem topic_defaults_when_empty_and_failure_propagates
    description location hasPhoto env st j st1 :
  determineJurisdiction host description location env st = (Ok j, st1) ->
  (forall result st2,
     callGemini host (TopicPrompt description) false 0 env st1 = (Ok result, st2) ->
     nullish result = false ->
     truthy (getProp result "topic") = false ->
     extractTopic host description env st1 = (Ok (JStr "general issue"), st2) /\
     generateEmailDraft host description location hasPhoto env st
       = routeTopic host description hasPhoto j (JStr "general issue") env st2) /\
  (forall e st2,
     callGemini host (TopicPrompt description) false 0 env st1 = (Throw e, st2) ->
     generateEmailDraft host description location hasPhoto env st = (Throw e, st2)).
Proof.
  intros Hj. split.
  - intros result st2 Hr Hn Ht.
    assert (Hx : extractTopic host description env st1 = (Ok (JStr "general issue"), st2)).
    { unfold extractTopic. rewrite (bind_run _ _ _ _ _ _ Hr).
      unfold bind, lift, get, ret, or_else. now rewrite Hn, Ht. }
    split; [assumption|].
    unfold generateEmailDraft, routeWithin.
    now rewrite (bind_run _ _ _ _ _ _ Hj), (bind_run _ _ _ _ _ _ Hx).
  - intros e st2 Hr.
    unfold generateEmailDraft, routeWithin.
    rewrite (bind_run _ _ _ _ _ _ Hj).
    unfold extractTopic, bind. now rewrite Hr.
Qed.

Lemma positive_length (n : nat) : gtZero host (numOfNat (S n)) = true.
Proof.
  unfold gtZero, numOfNat, ToNumber, numIsPositive.
  apply negb_true_iff. destruct (Qle_bool _ 0) eqn:E; [|reflexivity].
  apply Qle_bool_iff in E. unfold Qle in E. simpl in E. lia.
Qed.

(** C7, as the code has it.  [checkDomainMX] sends exactly one request, the
    MX query for the domain under a timeout of 5000 ms, and always returns.
    What it returns is fixed by the answer of the resolver: [null] when the
    request fails, or the body cannot be read or is [null]; [false] when
    [Status] is not 0; and with [Status] 0, the [Answer] itself when that is
    missing or otherwise falsy, [false] when it is an empty array, [true]
    when it is a non-empty array, and [Answer.length > 0] for any other
    [Answer].  No second query follows in any case. *)
Theorem domain_check_is_one_mx_query (domain : string) env st :
  exists v,
    checkDomainMX host domain env st
      = (Ok v, {| fetches := S (fetches st); randoms := randoms st;
                  trace := trace st ++
                    [EvFetch (DnsGet ("https://dns.google/resolve?name=" ++ domain ++ "&type=MX")
                                     5000)] |}) /\
    (forall m,
       fetch env (fetches st) (DnsGet (dnsUrl domain) 5000) = Rejected m -> v = JNull) /\
    (forall response m,
       fetch env (fetches st) (DnsGet (dnsUrl domain) 5000) = Resolved response ->
       json response = Rejected m -> v = JNull) /\
    (forall response data,
       fetch env (fetches st) (DnsGet (dnsUrl domain) 5000) = Resolved response ->
       json response = Resolved data ->
       (nullish data = true -> v = JNull) /\
       (nullish data = false -> isZero (getProp data "Status") = false -> v = JBool false) /\
       (isZero (getProp data "Status") = true ->
        (forall x rest, getProp data "Answer" = JArr (x :: rest) -> v = JBool true) /\
        (getProp data "Answer" = JArr [] -> v = JBool false) /\
        (truthy (getProp data "Answer") = false ->
         v = getProp data "Answer" /\ truthy v = false) /\
        (truthy (getProp data "Answer") = true ->
         v = JBool (gtZero host (getProp (getProp data "Answer") "length"))))).
Proof.
  destruct (checkDomainMX_Ok domain env st) as [v Hv].
  exists v. split; [exact Hv|].
  revert Hv. unfold checkDomainMX, try_catch, bind, doFetch, await, lift, ret.
  destruct (fetch env (fetches st) _) as [response|m] eqn:F; simpl.
  - destruct (json response) as [data|m] eqn:J; simpl.
    + intros Hv. split; [intros m E; discriminate|].
      split; [intros r' m' E Ej; injection E as <-; congruence|].
      intros r' data' E Ej. injection E as <-. rewrite J in Ej. injection Ej as <-.
      revert Hv. unfold hasMailRecords, get, obind.
      destruct (nullish data) eqn:N.
      { intros Hv. injection Hv as <-. split; [reflexivity|].
        split; [discriminate|]. intros Hz. destruct data; simpl in N, Hz; discriminate. }
      split; [discriminate|].
      destruct (isZero (getProp data "Status")) eqn:Hz; cbn [negb] in Hv.
      * split; [discriminate|]. intros _.
        split; [|split; [|split]].
        -- intros x rest Ea. rewrite Ea in Hv. cbn [truthy negb] in Hv.
           change (getProp (JArr (x :: rest)) "length")
             with (numOfNat (S (List.length rest))) in Hv.
           rewrite positive_length in Hv. now injection Hv as <-.
        -- intros Ea. rewrite Ea in Hv. cbn [truthy negb] in Hv.
           injection Hv as <-. reflexivity.
        -- intros Ta. rewrite Ta in Hv. cbn [negb] in Hv. injection Hv as <-. now split.
        -- intros Ta. rewrite Ta in Hv. cbn [negb] in Hv. now injection Hv as <-.
      * split; [intros _ _; now injection Hv as <-|discriminate].
    + intros Hv. injection Hv as <-.
      split; [reflexivity|]. split; [reflexivity|].
      intros r' data' E Ej. injection E as <-. congruence.
  - intros Hv. injection Hv as <-.
    split; [reflexivity|]. split; [reflexivity|]. intros r' data' E. discriminate.
Qed.

(** C8.  The relevance filter is a function of its three arguments alone.
    It rejects the graffiti programme for a pothole and accepts it for
    graffiti; and for every topic it rejects a candidate that has neither an
    agency name nor an email. *)
Theorem relevance_filter_examples :
  isDepartmentRelevant host (JStr "pothole") (JStr "Graffiti Abatement Program")
    (JStr "graffiti@city.gov") = Ok false /\
  isDepartmentRelevant host (JStr "graffiti") (JStr "Graffiti Abatement Program")
    (JStr "graffiti@city.gov") = Ok true /\
  (forall topic agencyName email,
     truthy agencyName = false -> truthy email = false ->
     isDepartmentRelevant host topic agencyName email = Ok false).
Proof.
  split; [reflexivity|]. split; [reflexivity|].
  intros tp a e Ha He. unfold isDepartmentRelevant. now rewrite Ha, He.
Qed.

(** A gateway call starts by sending its request. *)
Lemma callGemini_first (p : Prompt) (u : bool) (r : nat) env st :
  exists rest,
    trace (snd (callGemini host p u r env st))
      = (trace st ++ EvFetch (GeminiPost p u) :: rest)%list /\
    Forall (ofCall p u) rest.
Proof.
  unfold callGemini. cbn [callGemini_rec].
  set (f := MAX_RETRIES - r).
  assert (Hfirst : exists st1,
             trace st1 = (trace st ++ [EvFetch (GeminiPost p u)])%list /\
             exists d, trace (snd (tryBlock host p u r env st)) = (trace st1 ++ d)%list /\
                       Forall (ofCall p u) d).
  { exists {| fetches := S (fetches st); randoms := randoms st;
              trace := trace st ++ [EvFetch (GeminiPost p u)] |}.
    split; [reflexivity|].
    unfold tryBlock, bind at 1, doFetch.
    match goal with
    | |- context [settle ?x] => destruct (settle x) as [response|e]
    end; [|exists []; simpl; now rewrite app_nil_r].
    match goal with
    | |- exists d, trace (snd (?k ?env0 ?st0)) = _ /\ _ =>
        apply (fun H => H env0 st0); change (emits (ofCall p u) k)
    end.
    repeat first
      [ apply emits_if | apply emits_bind | intros ? | apply emits_ret | apply emits_throw
      | apply emits_lift | apply emits_sleep; simpl; auto ].
    destruct (optGet _ "text");
      repeat first [ apply emits_ret | apply emits_throw ].
    destruct (JSON_parse host _); [|apply emits_ret].
    apply emits_if; [apply emits_ret|apply emits_throw]. }
  destruct Hfirst as (st1 & E1 & d1 & Ed1 & F1).
  destruct (tryBlock host p u r env st) as [[[v|p']|e] st2] eqn:T; cbn [snd] in Ed1 |- *.
  - exists d1. rewrite Ed1, E1, <- app_assoc. auto.
  - destruct (tryBlock_Retry host _ _ _ _ _ _ _ T) as [Eb _].
    destruct (emits_callGemini_rec host f p' u (S r) env st2) as (d2 & E2 & F2).
    exists (d1 ++ d2)%list. rewrite E2, Ed1, E1, <- !app_assoc. split; [reflexivity|].
    apply Forall_app; split; [assumption|].
    eapply Forall_impl; [|exact F2].
    intros [[q uq|]|]; simpl; auto. intros [Eq ->]. split; congruence.
  - destruct ((r <? MAX_RETRIES) && messageIncludes "fetch" e); cbn [snd].
    + assert (Hs : emits (ofCall p u)
                (sleep (backoffDelay r) ;;; callGemini_rec host f p u (S r))).
      { apply emits_bind; [apply emits_sleep; simpl; auto|intros _].
        apply emits_callGemini_rec. }
      destruct (Hs env st2) as (d2 & E2 & F2).
      exists (d1 ++ d2)%list. rewrite E2, Ed1, E1, <- !app_assoc. split; [reflexivity|].
      apply Forall_app; split; assumption.
    + exists d1. rewrite Ed1, E1, <- app_assoc. auto.
Qed.

(** C9.  [reviseEmailDraft] is one gateway call with search grounding
    enabled, whatever the draft and the suggestion: the first request of a
    revision is the POST of the revision prompt with the search tool, and
    every request that follows in the call (a retry or a re-prompt) is a POST
    for the same prompt with the search tool as well. *)
Theorem revise_always_grounded currentTo currentSubject currentBody suggestion env st :
  reviseEmailDraft host currentTo currentSubject currentBody suggestion
    = callGemini host (RevisePrompt currentTo currentSubject currentBody suggestion) true 0 /\
  exists rest,
    trace (snd (reviseEmailDraft host currentTo currentSubject currentBody suggestion env st))
      = (trace st ++
         EvFetch (GeminiPost (RevisePrompt currentTo currentSubject currentBody suggestion) true)
         :: rest)%list /\
    Forall (ofCall (RevisePrompt currentTo currentSubject currentBody suggestion) true) rest /\
    (forall p u, In (EvFetch (GeminiPost p u)) rest -> u = true).
Proof.
  split; [reflexivity|].
  destruct (callGemini_first (RevisePrompt currentTo currentSubject currentBody suggestion)
              true 0 env st) as (rest & E & F).
  exists rest. split; [exact E|]. split; [exact F|].
  intros p u Hin. rewrite Forall_forall in F. apply (F _ Hin).
Qed.

(** One more call is what a retry turns into, while retries remain. *)
Lemma callGemini_succ (p : Prompt) (u : bool) (r : nat) :
  r < MAX_RETRIES ->
  callGemini_rec host (MAX_RETRIES - r) p u (S r) = callGemini host p u (S r).
Proof.
  intros Hr. unfold callGemini. f_equal. unfold MAX_RETRIES in *. lia.
Qed.

(** A rate-limited or unavailable reply, while retries remain: the timer of
    the backoff is set and the same call is made again. *)
Lemma callGemini_backoff (p : Prompt) (u : bool) (r : nat) env st response :
  r < MAX_RETRIES ->
  fetch env (fetches st) (GeminiPost p u) = Resolved response ->
  retryableStatus (status response) = true ->
  callGemini host p u r env st
    = callGemini host p u (S r) env
        {| fetches := S (fetches st); randoms := S (randoms st);
           trace := (trace st ++ [EvFetch (GeminiPost p u)]) ++
                    [EvSetTimeout (backoffDelay r
                                   + jitter (random env (randoms st)) (backoffDelay r))%Q] |}.
Proof.
  intros Hr Hf Hs. rewrite <- (callGemini_succ p u r Hr).
  unfold callGemini. cbn [callGemini_rec].
  unfold tryBlock, bind, doFetch. rewrite Hf. cbn [settle]. rewrite Hs.
  apply Nat.ltb_lt in Hr. rewrite Hr. reflexivity.
Qed.

(** A rate-limited or unavailable reply when no retry remains: the call
    fails. *)
Lemma callGemini_exhausted (p : Prompt) (u : bool) (r : nat) env st response :
  MAX_RETRIES <= r ->
  fetch env (fetches st) (GeminiPost p u) = Resolved response ->
  retryableStatus (status response) = true ->
  callGemini host p u r env st
    = (Throw (Thrown ("API error " ++ Str.ofZ (status response) ++ " after 5 retries")),
       {| fetches := S (fetches st); randoms := randoms st;
          trace := trace st ++ [EvFetch (GeminiPost p u)] |}).
Proof.
  intros Hr Hf Hs. unfold callGemini. cbn [callGemini_rec].
  unfold tryBlock, bind, doFetch. rewrite Hf. cbn [settle]. rewrite Hs.
  apply Nat.ltb_ge in Hr. rewrite Hr. reflexivity.
Qed.

(** A reply cut at the token limit, while retries remain: the same call is
    made again at once. *)
Lemma callGemini_truncated (p : Prompt) (u : bool) (r : nat) env st response data :
  r < MAX_RETRIES ->
  fetch env (fetches st) (GeminiPost p u) = Resolved response ->
  retryableStatus (status response) = false ->
  ok response = true ->
  json response = Resolved data ->
  nullish data = false ->
  isString "MAX_TOKENS" (optGet (optFirst (getProp data "candidates")) "finishReason") = true ->
  callGemini host p u r env st
    = callGemini host p u (S r) env
        {| fetches := S (fetches st); randoms := randoms st;
           trace := trace st ++ [EvFetch (GeminiPost p u)] |}.
Proof.
  intros Hr Hf Hs Hok Hj Hn Ht. rewrite <- (callGemini_succ p u r Hr).
  unfold callGemini. cbn [callGemini_rec].
  unfold tryBlock, bind, doFetch, await, lift, get. rewrite Hf. cbn [settle].
  rewrite Hs, Hok. cbn [negb]. rewrite Hj. cbn [settle]. rewrite Hn, Ht.
  apply Nat.ltb_lt in Hr. rewrite Hr. reflexivity.
Qed.

(** The number of requests of a gateway call. *)
Lemma tryBlock_fetches (p : Prompt) (u : bool) (r : nat) env st :
  fetches (snd (tryBlock host p u r env st)) = S (fetches st).
Proof.
  unfold tryBlock, bind, doFetch, await, lift, ret, throw, sleep.
  destruct (settle (fetch env (fetches st) (GeminiPost p u))) as [response|e];
    [|reflexivity].
  destruct (retryableStatus (status response)).
  { destruct (r <? MAX_RETRIES); reflexivity. }
  destruct (negb (ok response)).
  { destruct (settle (text response)); reflexivity. }
  destruct (settle (json response)) as [data|e]; [|reflexivity].
  destruct (get data "candidates") as [candidates|e]; [|reflexivity].
  destruct (isString "MAX_TOKENS" _ && (r <? MAX_RETRIES)); [reflexivity|].
  destruct (negb (truthy _)); [reflexivity|].
  destruct (optGet _ "text"); try reflexivity.
  destruct (JSON_parse host _); [|reflexivity].
  destruct (r <? 3); reflexivity.
Qed.

Lemma callGemini_rec_fetches (fuel : nat) (p : Prompt) (u : bool) (r : nat) env st :
  fetches (snd (callGemini_rec host fuel p u r env st)) <= fetches st + fuel.
Proof.
  revert p r st. induction fuel as [|fuel IH]; intros p r st; [simpl; lia|].
  cbn [callGemini_rec].
  pose proof (tryBlock_fetches p u r env st) as Hf.
  destruct (tryBlock host p u r env st) as [[[v|p']|e] st1]; cbn [snd] in Hf |- *.
  - lia.
  - specialize (IH p' (S r) st1). lia.
  - destruct ((r <? MAX_RETRIES) && messageIncludes "fetch" e); cbn [snd]; [|lia].
    unfold bind, sleep.
    match goal with
    | |- fetches (snd (callGemini_rec _ _ _ _ _ _ ?s)) <= _ =>
        specialize (IH p (S r) s); cbn [fetches] in IH
    end. lia.
Qed.

Lemma jitter_bounds (x ms : Q) :
  (0 <= x < 1)%Q -> (0 < ms)%Q -> (0 <= jitter x ms < (3 # 10) * ms)%Q.
Proof. unfold jitter. intros [H0 H1] Hm. split; nra. Qed.

Lemma backoffDelay_pos (r : nat) : (0 < backoffDelay r)%Q.
Proof.
  unfold backoffDelay, BASE_DELAY_MS, Qlt, inject_Z. cbn [Qnum Qden].
  assert (0 < 2 ^ Z.of_nat r)%Z by (apply Z.pow_pos_nonneg; lia). lia.
Qed.

Lemma backoffDelay_double (r : nat) : (backoffDelay (S r) == 2 * backoffDelay r)%Q.
Proof.
  unfold backoffDelay, BASE_DELAY_MS, Qeq, Qmult, inject_Z. cbn [Qnum Qden].
  rewrite Nat2Z.inj_succ, Z.pow_succ_r by lia. lia.
Qed.

(** C4, as the code has it.  The retries of one gateway call share a budget
    of MAX_RETRIES = 5.  A reply with status 429, 503 or 504 is retried
    after a timer of the base delay 1000 * 2^retryCount ms plus a jitter
    between 0 and 30% of it, the base doubling with every retry; a reply cut
    at the token limit is retried at once, without a timer; a call sends at
    most 6 requests.  When every reply has status 429, a call sends 6
    requests, the 5 timers between them being those of retries 0 to 4, and
    fails with "API error 429 after 5 retries". *)
Theorem retry_policy (p : Prompt) (u : bool) env st :
  (forall n, 0 <= random env n < 1)%Q ->
  (* rate limiting and unavailability: backoff *)
  (forall r response,
     r < MAX_RETRIES ->
     fetch env (fetches st) (GeminiPost p u) = Resolved response ->
     (status response = 429 \/ status response = 503 \/ status response = 504)%Z ->
     exists extra,
       (0 <= extra < (3 # 10) * backoffDelay r)%Q /\
       backoffDelay r = inject_Z (1000 * 2 ^ Z.of_nat r) /\
       (backoffDelay (S r) == 2 * backoffDelay r)%Q /\
       callGemini host p u r env st
         = callGemini host p u (S r) env
             {| fetches := S (fetches st); randoms := S (randoms st);
                trace := (trace st ++ [EvFetch (GeminiPost p u)]) ++
                         [EvSetTimeout (backoffDelay r + extra)%Q] |}) /\
  (* truncation: immediate retry *)
  (forall r response data,
     r < MAX_RETRIES ->
     fetch env (fetches st) (GeminiPost p u) = Resolved response ->
     status response = 200%Z ->
     json response = Resolved data ->
     isString "MAX_TOKENS" (optGet (optFirst (getProp data "candidates")) "finishReason") = true ->
     callGemini host p u r env st
       = callGemini host p u (S r) env
           {| fetches := S (fetches st); randoms := randoms st;
              trace := trace st ++ [EvFetch (GeminiPost p u)] |}) /\
  (* the budget *)
  fetches (snd (callGemini host p u 0 env st)) <= fetches st + S MAX_RETRIES /\
  (* a service that is rate limited throughout *)
  ((forall n req, exists response,
      fetch env n req = Resolved response /\ status response = 429%Z) ->
   let request := EvFetch (GeminiPost p u) in
   let timer k :=
     EvSetTimeout (backoffDelay k + jitter (random env (randoms st + k)) (backoffDelay k))%Q in
   callGemini host p u 0 env st
     = (Throw (Thrown "API error 429 after 5 retries"),
        {| fetches := fetches st + 6; randoms := randoms st + 5;
           trace := trace st ++
             [request; timer 0; request; timer 1; request; timer 2;
              request; timer 3; request; timer 4; request] |})).
Proof.
  intros Hrand. split; [|split; [|split]].
  - intros r response Hr Hf Hs.
    exists (jitter (random env (randoms st)) (backoffDelay r)).
    split; [apply jitter_bounds; [apply Hrand|apply backoffDelay_pos]|].
    split; [reflexivity|]. split; [apply backoffDelay_double|].
    apply (callGemini_backoff p u r env st response Hr Hf).
    unfold retryableStatus. destruct Hs as [-> | [-> | ->]]; reflexivity.
  - intros r response data Hr Hf Hs Hj Ht.
    apply (callGemini_truncated p u r env st response data Hr Hf); auto.
    + unfold retryableStatus. now rewrite Hs.
    + unfold ok. now rewrite Hs.
    + destruct data; try reflexivity; simpl in Ht; discriminate.
  - apply (callGemini_rec_fetches (S (MAX_RETRIES - 0)) p u 0 env st).
  - intros Hall request timer.
    assert (Hstep : forall r s, r < MAX_RETRIES ->
              callGemini host p u r env s
              = callGemini host p u (S r) env
                  {| fetches := S (fetches s); randoms := S (randoms s);
                     trace := (trace s ++ [request]) ++
                       [EvSetTimeout (backoffDelay r
                                      + jitter (random env (randoms s)) (backoffDelay r))%Q] |}).
    { intros r s Hr. destruct (Hall (fetches s) (GeminiPost p u)) as (resp & Hf & Hs).
      apply (callGemini_backoff p u r env s resp Hr Hf).
      unfold retryableStatus. now rewrite Hs. }
    rewrite (Hstep 0) by (unfold MAX_RETRIES; lia).
    rewrite (Hstep 1) by (unfold MAX_RETRIES; lia).
    rewrite (Hstep 2) by (unfold MAX_RETRIES; lia).
    rewrite (Hstep 3) by (unfold MAX_RETRIES; lia).
    rewrite (Hstep 4) by (unfold MAX_RETRIES; lia).
    cbn [fetches randoms trace].
    match goal with
    | |- callGemini host p u 5 env ?s = _ =>
        destruct (Hall (fetches s) (GeminiPost p u)) as (resp & Hf & Hs);
        rewrite (callGemini_exhausted p u 5 env s resp (le_n _) Hf)
          by (unfold retryableStatus; now rewrite Hs)
    end.
    rewrite Hs. cbn [fetches randoms trace]. unfold timer.
    repeat rewrite <- app_assoc. cbn [app].
    repeat rewrite Nat.add_succ_r. rewrite !Nat.add_0_r. reflexivity.
Qed.

End SpecifiedProperties.

(** ** The properties on the scenarios *)


(** C2 on the candidate of the scenarios: it is accepted, and its address
    is quoted in its snippet and has exactly one [@]; the run that selects it
    returns that address. *)
Lemma accepted_candidate_of_the_scenarios :
  accepts Scenario.host (JStr "pothole") Scenario.publicWorks = Ok true /\
  (exists email,
     getProp Scenario.publicWorks "email" = JStr email /\
     (exists pre post, "Report potholes to streets@city.gov" = pre ++ email ++ post) /\
     Str.count "@" email = 1) /\
  accepts Scenario.host (JStr "pothole") Scenario.notFound <> Ok true /\
  exists r st',
    generateEmailDraft Scenario.host "Big pothole" Scenario.malformedLocation false
      (Scenario.answering Scenario.agencyFound Scenario.mxFound) initial = (Ok r, st') /\
    exists pass,
      accepts Scenario.host (topic r) pass = Ok true /\
      to r = getProp pass "email" /\ evidence r = getProp pass "evidence".
Proof.
  destruct (accepted_only_if_quoted_and_valid Scenario.host) as (Hacc & Hrej & Hrun).
  split; [reflexivity|]. split; [|split].
  - destruct (Hacc (JStr "pothole") Scenario.publicWorks eq_refl)
      as (email & He & _ & Hsub & _ & Hcount & _).
    exists email. split; [exact He|]. split; [|exact Hcount].
    apply Hsub. reflexivity.
  - apply Hrej. left. reflexivity.
  - eexists. eexists. split; [vm_compute; reflexivity|].
    eapply (Hrun "Big pothole" Scenario.malformedLocation false
              (Scenario.answering Scenario.agencyFound Scenario.mxFound) initial).
    + vm_compute. reflexivity.
    + discriminate.
Defined.



(** C4 on the service that is rate limited throughout. *)
Lemma retry_policy_on_rate_limited_service :
  (forall n, 0 <= random Scenario.rateLimited n < 1)%Q /\
  callGemini Scenario.host (TopicPrompt "Big pothole") false 0 Scenario.rateLimited initial
    = (Throw (Thrown "API error 429 after 5 retries"),
       {| fetches := 6; randoms := 5;
          trace :=
            let request := EvFetch (GeminiPost (TopicPrompt "Big pothole") false) in
            let timer k := EvSetTimeout (backoffDelay k + jitter (1 # 2) (backoffDelay k))%Q in
            [request; timer 0; request; timer 1; request; timer 2;
             request; timer 3; request; timer 4; request] |}).
Proof.
  assert (Hrand : (forall n, 0 <= random Scenario.rateLimited n < 1)%Q).
  { intros n. simpl. split; [discriminate|reflexivity]. }
  split; [exact Hrand|].
  apply (proj2 (proj2 (proj2
           (retry_policy Scenario.host (TopicPrompt "Big pothole") false
              Scenario.rateLimited initial Hrand)))).
  intros n req. eexists. split; reflexivity.
Defined.

(** C4, the claim as stated: a reply cut at the token limit is retried, and
    no timer is set before the retry. *)
Lemma truncated_reply_retried_without_backoff :
  callGemini Scenario.host (TopicPrompt "Big pothole") false 0 Scenario.truncatedOnce initial
    = (Ok Scenario.topicReply,
       {| fetches := 2; randoms := 0;
          trace := [ EvFetch (GeminiPost (TopicPrompt "Big pothole") false);
                     EvFetch (GeminiPost (TopicPrompt "Big pothole") false) ] |}).
Proof. vm_compute. reflexivity. Qed.

(** C5 on a location whose latitude is the string "abc". *)
Lemma malformed_location_on_string_latitude :
  determineJurisdiction Scenario.host "Big pothole" Scenario.malformedLocation
    (Scenario.answering Scenario.agencyFound Scenario.mxFound) initial
    = (Ok "Palo Alto, CA", initial) /\
  exists r st',
    generateEmailDraft Scenario.host "Big pothole" Scenario.malformedLocation false
      (Scenario.answering Scenario.agencyFound Scenario.mxFound) initial = (Ok r, st') /\
    jurisdiction r = "Palo Alto, CA".
Proof.
  destruct (malformed_location_defaults Scenario.host "Big pothole"
              Scenario.malformedLocation false
              (Scenario.answering Scenario.agencyFound Scenario.mxFound) initial
              eq_refl eq_refl) as (Hj & _ & Hr).
  split; [exact Hj|].
  eexists. eexists. split; [vm_compute; reflexivity|].
  eapply Hr. vm_compute. reflexivity.
Defined.

(** C6, the claim as stated: a topic extraction call that fails (here with
    HTTP 400) fails the whole request. *)
Lemma failed_topic_extraction_fails_the_request :
  generateEmailDraft Scenario.host "Big pothole" Scenario.malformedLocation false
    (Scenario.answering Scenario.topicRefused Scenario.mxFound) initial
    = (Throw (Thrown "Gemini API error: 400 — Bad Request"),
       {| fetches := 1; randoms := 0;
          trace := [ EvFetch (GeminiPost (TopicPrompt "Big pothole") false) ] |}).
Proof. vm_compute. reflexivity. Qed.

(** C6 as the code has it, on an empty topic and on a refused call. *)
Lemma topic_defaults_on_the_scenarios :
  (exists st2,
     extractTopic Scenario.host "Big pothole"
       (Scenario.answering Scenario.topicEmpty Scenario.mxFound) initial
       = (Ok (JStr "general issue"), st2)) /\
  (exists e st2,
     generateEmailDraft Scenario.host "Big pothole" Scenario.malformedLocation false
       (Scenario.answering Scenario.topicRefused Scenario.mxFound) initial = (Throw e, st2)).
Proof.
  split.
  - destruct (topic_defaults_when_empty_and_failure_propagates Scenario.host "Big pothole"
                Scenario.malformedLocation false
                (Scenario.answering Scenario.topicEmpty Scenario.mxFound) initial
                "Palo Alto, CA" initial eq_refl) as [Hempty _].
    eexists. eapply Hempty; [vm_compute; reflexivity|reflexivity|reflexivity].
  - destruct (topic_defaults_when_empty_and_failure_propagates Scenario.host "Big pothole"
                Scenario.malformedLocation false
                (Scenario.answering Scenario.topicRefused Scenario.mxFound) initial
                "Palo Alto, CA" initial eq_refl) as [_ Hfail].
    eexists. eexists. apply Hfail. vm_compute. reflexivity.
Defined.

(** C7, the claim as stated: for a domain without MX records the verifier
    sends the MX query and nothing else, and returns one value. *)
Lemma domain_without_mx_is_queried_once :
  checkDomainMX Scenario.host "city.gov"
    (Scenario.answering Scenario.nothingFound Scenario.mxMissing) initial
    = (Ok JUndefined,
       {| fetches := 1; randoms := 0;
          trace := [ EvFetch (DnsGet "https://dns.google/resolve?name=city.gov&type=MX" 5000) ] |}).
Proof. vm_compute. reflexivity. Qed.

(** C7 as the code has it, on a domain with an MX record. *)
Lemma domain_check_on_mx_found :
  checkDomainMX Scenario.host "city.gov"
    (Scenario.answering Scenario.nothingFound Scenario.mxFound) initial
    = (Ok (JBool true),
       {| fetches := 1; randoms := 0;
          trace := [ EvFetch (DnsGet "https://dns.google/resolve?name=city.gov&type=MX" 5000) ] |}).
Proof.
  destruct (domain_check_is_one_mx_query Scenario.host "city.gov"
              (Scenario.answering Scenario.nothingFound Scenario.mxFound) initial)
    as (v & Hv & _ & _ & Hdata).
  destruct (Hdata _ _ eq_refl eq_refl) as (_ & _ & Hzero).
  destruct (Hzero eq_refl) as [Hfound _].
  rewrite (Hfound _ _ eq_refl) in Hv. exact Hv.
Defined.

(** C8 on a candidate whose agency name is the empty string and whose email
    is missing. *)
Lemma relevance_filter_on_empty_candidate :
  isDepartmentRelevant Scenario.host (JStr "pothole") (JStr "") JUndefined = Ok false.
Proof.
  apply (proj2 (proj2 (relevance_filter_examples Scenario.host))); reflexivity.
Defined.

(** C10 on the scenario whose accepted candidate has confidence 0. *)
Lemma zero_confidence_reported_as_half :
  exists r st',
    generateEmailDraft Scenario.host "Big pothole" Scenario.malformedLocation false
      (Scenario.answering Scenario.agencyFound Scenario.mxFound) initial = (Ok r, st') /\
    (exists st2,
       candidateOfTier Scenario.host
         (Scenario.answering Scenario.agencyFound Scenario.mxFound)
         (jurisdiction r) (topic r) st2 (fallback_level r) Scenario.publicWorks) /\
    getProp Scenario.publicWorks "confidence" = JNum (Finite 0) /\
    to r = getProp Scenario.publicWorks "email" /\
    confidence r = JNum (Finite (1 # 2)) /\
    isZero (confidence r) = false.
Proof.
  eexists. eexists. split; [vm_compute; reflexivity|].
  destruct (missing_confidence_reported_as_half Scenario.host "Big pothole"
              Scenario.malformedLocation false
              (Scenario.answering Scenario.agencyFound Scenario.mxFound) initial
              _ _ eq_refl)
    as (_ & Hz & _ & st1 & st2 & chosen & _ & _ & Hcand & Huniq & _ & _ & Hc & _ & Hs).
  assert (Hpw : candidateOfTier Scenario.host
                  (Scenario.answering Scenario.agencyFound Scenario.mxFound)
                  "Palo Alto, CA" (JStr "pothole") st2 AGENCY_MAIN Scenario.publicWorks).
  { destruct Hcand as (a & sa & Ra & b & sb & Rb & Eb).
    exists a, sa. split; [exact Ra|]. exists b, sb. split; [exact Rb|].
    revert Rb. vm_compute. intros Rb. now injection Rb as <- _. }
  pose proof (Huniq _ Hpw) as <-.
  split; [exists st2; exact Hpw|].
  split; [reflexivity|]. split; [reflexivity|].
  split; [|exact Hz].
  destruct (Hs ltac:(discriminate)) as [_ Hhalf].
  apply Hhalf. right. right. reflexivity.
Defined.

(* ================================================================== *)
(** * Further properties of the module *)

(** ** The email test, the clean-up of a reply, the relevance filter *)

Module MoreStrFacts.
Import Str StrFacts.

Lemma to_list_app (a b : string) :
  list_ascii_of_string (a ++ b) = (list_ascii_of_string a ++ list_ascii_of_string b)%list.
Proof. induction a as [|c a IH]; simpl; [reflexivity|now rewrite IH]. Qed.

Lemma all_to_list (p : ascii -> bool) (s : string) :
  all p s = true -> Forall (fun c => p c = true) (list_ascii_of_string s).
Proof.
  induction s as [|c s IH]; simpl; intros H; [constructor|].
  apply andb_true_iff in H as [Hc Hs]. constructor; auto.
Qed.

Lemma all_app (p : ascii -> bool) (a b : string) :
  all p (a ++ b) = all p a && all p b.
Proof. induction a as [|c a IH]; simpl; [reflexivity|now rewrite IH, andb_assoc]. Qed.

Lemma app_empty_r (s : string) : s ++ "" = s.
Proof. induction s as [|c s IH]; simpl; [reflexivity|now rewrite IH]. Qed.

Lemma app_assoc_s (a b c : string) : (a ++ b) ++ c = a ++ b ++ c.
Proof. induction a as [|x a IH]; simpl; [reflexivity|now rewrite IH]. Qed.

End MoreStrFacts.

Module MoreRegexFacts.
Import Regex RegexFacts.
Local Open Scope list_scope.

Lemma star_of_class (p : ascii -> bool) (w : list ascii) :
  Forall (fun c => p c = true) w -> Lang (Star (Class p)) w.
Proof.
  induction 1 as [|c w Hc _ IH]; [constructor|].
  apply (@LStarCons (Class p) [c] w); [now constructor|assumption].
Qed.

Lemma plus_of_class (p : ascii -> bool) (w : list ascii) :
  w <> [] -> Forall (fun c => p c = true) w -> Lang (Plus (Class p)) w.
Proof.
  intros Hn Hw. destruct w as [|c w]; [congruence|].
  inversion Hw; subst.
  apply (@LCat (Class p) (Star (Class p)) [c] w); [now constructor|now apply star_of_class].
Qed.

Lemma chr_of (c : ascii) : Lang (Chr c) [c].
Proof. constructor. apply Ascii.eqb_refl. Qed.

End MoreRegexFacts.

(** X1.  [isValidEmailFormat] accepts exactly the strings of the form
    local@domain.tld whose three parts are non-empty and hold neither
    whitespace nor [@]; every other value, string or not, is refused. *)
Theorem valid_email_iff (email : JSValue) :
  isValidEmailFormat email = true <->
  exists local domain tld,
    email = JStr (local ++ "@" ++ domain ++ "." ++ tld) /\
    local <> "" /\ domain <> "" /\ tld <> "" /\
    Str.all notSpaceNorAt local = true /\
    Str.all notSpaceNorAt domain = true /\
    Str.all notSpaceNorAt tld = true.
Proof.
  split; [apply EmailFacts.valid_email_shape|].
  intros (l & d & t & -> & Nl & Nd & Nt & Hl & Hd & Ht).
  unfold isValidEmailFormat.
  destruct (String.eqb _ "") eqn:E.
  { apply String.eqb_eq in E. destruct l; [congruence|discriminate]. }
  unfold Regex.test. apply RegexFacts.matches_Lang.
  rewrite !MoreStrFacts.to_list_app. simpl list_ascii_of_string.
  assert (Hne : forall s : string, s <> "" -> list_ascii_of_string s <> []).
  { intros [|c s] H; [congruence|discriminate]. }
  unfold emailRegex.
  apply Regex.LCat;
    [apply MoreRegexFacts.plus_of_class; auto using MoreStrFacts.all_to_list|].
  apply (@Regex.LCat _ _ ["@"%char]); [apply MoreRegexFacts.chr_of|].
  apply Regex.LCat;
    [apply MoreRegexFacts.plus_of_class; auto using MoreStrFacts.all_to_list|].
  apply (@Regex.LCat _ _ ["."%char]); [apply MoreRegexFacts.chr_of|].
  apply MoreRegexFacts.plus_of_class; auto using MoreStrFacts.all_to_list.
Qed.

Module CleanupFacts.
Import Str StrFacts MoreStrFacts.

Lemma all_weaken (p q : ascii -> bool) (s : string) :
  (forall c, p c = true -> q c = true) -> all p s = true -> all q s = true.
Proof.
  intros Hpq. induction s as [|c s IH]; simpl; [reflexivity|].
  intros H. apply andb_true_iff in H as [Hc Hs]. now rewrite (Hpq _ Hc), IH.
Qed.

Lemma fence_needs_backtick (c : ascii) (t : string) :
  differsFrom "`" c = true -> startsWithJsonFence (String c t) = false /\ prefix "```" (String c t) = false.
Proof.
  unfold differsFrom. intros H. apply negb_true_iff in H.
  split.
  - destruct c as [[] [] [] [] [] [] [] []]; try reflexivity; discriminate H.
  - cbn [prefix]. destruct (ascii_dec "`" c) as [<-|]; [discriminate H|reflexivity].
Qed.

Lemma removeJsonFences_app (a b : string) :
  all (differsFrom "`") a = true ->
  removeJsonFences 0 false (a ++ b) = a ++ removeJsonFences 0 false b.
Proof.
  induction a as [|c a IH]; intros H; [reflexivity|].
  simpl in H. apply andb_true_iff in H as [Hc Ha].
  change (String c a ++ b) with (String c (a ++ b)).
  cbn [removeJsonFences andb].
  rewrite (proj1 (fence_needs_backtick c (a ++ b) Hc)), (IH Ha). reflexivity.
Qed.

Lemma removeFences_app (a b : string) :
  all (differsFrom "`") a = true ->
  removeFences 0 (a ++ b) = a ++ removeFences 0 b.
Proof.
  induction a as [|c a IH]; intros H; [reflexivity|].
  simpl in H. apply andb_true_iff in H as [Hc Ha].
  change (String c a ++ b) with (String c (a ++ b)).
  cbn [removeFences].
  rewrite (proj2 (fence_needs_backtick c (a ++ b) Hc)), (IH Ha). reflexivity.
Qed.

Lemma fromFirstOpen_trimStart (s : string) : fromFirstOpen (trimStart s) = fromFirstOpen s.
Proof.
  induction s as [|c s IH]; [reflexivity|].
  cbn [trimStart]. destruct (isWhitespace c) eqn:W; [|reflexivity].
  cbn [fromFirstOpen]. destruct (Ascii.eqb c "{") eqn:E; [|exact IH].
  apply Ascii.eqb_eq in E. subst. discriminate W.
Qed.

Lemma trimEnd_cons (c : ascii) (t : string) :
  isWhitespace c = false \/ trimEnd t <> "" -> trimEnd (String c t) = String c (trimEnd t).
Proof.
  intros H. cbn [trimEnd]. destruct (trimEnd t) eqn:E; [|reflexivity].
  destruct H as [-> | H]; [reflexivity|congruence].
Qed.

Lemma fromFirstOpen_trimEnd (s : string) :
  fromFirstOpen (trimEnd s) = option_map trimEnd (fromFirstOpen s).
Proof.
  induction s as [|c s IH]; [reflexivity|].
  cbn [fromFirstOpen]. destruct (Ascii.eqb c "{") eqn:E.
  - apply Ascii.eqb_eq in E. subst.
    rewrite trimEnd_cons by (left; reflexivity).
    change (fromFirstOpen (String "{" (trimEnd s))) with (Some (String "{" (trimEnd s))).
    cbn [option_map]. now rewrite trimEnd_cons by (left; reflexivity).
  - cbn [trimEnd]. destruct (trimEnd s) eqn:T.
    + simpl in IH. destruct (fromFirstOpen s); [discriminate IH|].
      destruct (isWhitespace c); [reflexivity|]. cbn [fromFirstOpen]. now rewrite E.
    + cbn [fromFirstOpen]. rewrite E. exact IH.
Qed.

Lemma throughLastClose_trimEnd (s : string) :
  throughLastClose (trimEnd s) = throughLastClose s.
Proof.
  induction s as [|c s IH]; [reflexivity|].
  cbn [trimEnd throughLastClose]. destruct (trimEnd s) eqn:T.
  - simpl in IH. rewrite <- IH.
    destruct (isWhitespace c) eqn:W; [|reflexivity].
    destruct (Ascii.eqb c "}") eqn:E; [|reflexivity].
    apply Ascii.eqb_eq in E. subst. discriminate W.
  - cbn [throughLastClose]. cbn [throughLastClose] in IH. now rewrite IH.
Qed.

(** Trimming does not change what the braces enclose. *)
Lemma matchBraces_trim (s : string) : matchBraces (trim s) = matchBraces s.
Proof.
  unfold matchBraces, trim.
  rewrite fromFirstOpen_trimEnd, fromFirstOpen_trimStart.
  destruct (fromFirstOpen s); [|reflexivity].
  simpl. apply throughLastClose_trimEnd.
Qed.

Lemma fromFirstOpen_app (pre rest : string) :
  all (differsFrom "{") pre = true ->
  fromFirstOpen (pre ++ String "{" rest) = Some (String "{" rest).
Proof.
  induction pre as [|c pre IH]; intros H; [reflexivity|].
  simpl in H. apply andb_true_iff in H as [Hc Hp].
  change (String c pre ++ String "{" rest) with (String c (pre ++ String "{" rest)).
  cbn [fromFirstOpen]. unfold differsFrom in Hc. apply negb_true_iff in Hc. rewrite Hc. auto.
Qed.

Lemma throughLastClose_none (post : string) :
  all (differsFrom "}") post = true -> throughLastClose post = None.
Proof.
  induction post as [|c post IH]; intros H; [reflexivity|].
  simpl in H. apply andb_true_iff in H as [Hc Hp].
  cbn [throughLastClose]. rewrite (IH Hp).
  unfold differsFrom in Hc. apply negb_true_iff in Hc. now rewrite Hc.
Qed.

Lemma throughLastClose_app (a post : string) :
  all (differsFrom "}") post = true ->
  throughLastClose (a ++ String "}" post) = Some (a ++ "}").
Proof.
  intros Hp. induction a as [|c a IH].
  - cbn [append throughLastClose]. now rewrite (throughLastClose_none post Hp).
  - change (String c a ++ String "}" post) with (String c (a ++ String "}" post)).
    cbn [throughLastClose]. now rewrite IH.
Qed.

Lemma matchBraces_app (pre body post : string) :
  all (differsFrom "{") pre = true ->
  all (differsFrom "}") post = true ->
  matchBraces (pre ++ "{" ++ body ++ "}" ++ post) = Some ("{" ++ body ++ "}").
Proof.
  intros Hpre Hpost. unfold matchBraces.
  change ("{" ++ body ++ "}" ++ post) with (String "{" (body ++ String "}" post)).
  rewrite (fromFirstOpen_app pre _ Hpre).
  change (String "{" (body ++ String "}" post)) with (String "{" body ++ String "}" post).
  now rewrite (throughLastClose_app _ post Hpost).
Qed.

Lemma whitespace_differsFrom (c : ascii) (w : string) :
  isWhitespace c = false -> all isWhitespace w = true -> all (differsFrom c) w = true.
Proof.
  intros Hc. apply all_weaken. intros x Hx. unfold differsFrom. apply negb_true_iff.
  destruct (Ascii.eqb x c) eqn:E; [|reflexivity].
  apply Ascii.eqb_eq in E. congruence.
Qed.

Lemma removeJsonFences_whitespace (w rest : string) :
  all isWhitespace w = true ->
  removeJsonFences 0 true (w ++ rest) = removeJsonFences 0 true rest.
Proof.
  induction w as [|c w IH]; intros H; [reflexivity|].
  simpl in H. apply andb_true_iff in H as [Hc Hw].
  change (String c w ++ rest) with (String c (w ++ rest)).
  cbn [removeJsonFences andb]. rewrite Hc. auto.
Qed.

End CleanupFacts.

(** X2.  The clean-up of a reply returns the JSON object alone when the
    reply wraps it in prose: for a text free of backticks, what stands
    between the first [{] and the last [}], braces included, whatever
    precedes and follows. *)
Theorem cleanup_extracts_object (pre body post : string) :
  Str.all (differsFrom "`") (pre ++ body ++ post) = true ->
  Str.all (differsFrom "{") pre = true ->
  Str.all (differsFrom "}") post = true ->
  cleanup (pre ++ "{" ++ body ++ "}" ++ post) = "{" ++ body ++ "}".
Proof.
  intros Hb Hpre Hpost.
  rewrite !MoreStrFacts.all_app in Hb.
  apply andb_true_iff in Hb as [Bpre Hb]. apply andb_true_iff in Hb as [Bbody Bpost].
  assert (Hall : Str.all (differsFrom "`") (pre ++ "{" ++ body ++ "}" ++ post) = true).
  { rewrite !MoreStrFacts.all_app, Bpre, Bbody, Bpost. reflexivity. }
  unfold cleanup.
  rewrite <- (MoreStrFacts.app_empty_r (pre ++ "{" ++ body ++ "}" ++ post)) at 1.
  rewrite (CleanupFacts.removeJsonFences_app _ "" Hall). cbn [Str.removeJsonFences].
  rewrite (CleanupFacts.removeFences_app _ "" Hall). cbn [Str.removeFences].
  rewrite MoreStrFacts.app_empty_r.
  rewrite CleanupFacts.matchBraces_trim.
  now rewrite (CleanupFacts.matchBraces_app pre body post Hpre Hpost).
Qed.

(** X3.  The clean-up of a reply removes a Markdown code fence: from a
    fenced block [```json], whitespace, the object, whitespace, [```], it
    returns the object alone. *)
Theorem cleanup_strips_fence (w1 body w2 : string) :
  Str.all Str.isWhitespace w1 = true ->
  Str.all Str.isWhitespace w2 = true ->
  Str.all (differsFrom "`") body = true ->
  cleanup ("```json" ++ w1 ++ "{" ++ body ++ "}" ++ w2 ++ "```") = "{" ++ body ++ "}".
Proof.
  intros H1 H2 Hb.
  assert (B2 : Str.all (differsFrom "`") w2 = true)
    by (apply (CleanupFacts.whitespace_differsFrom "`" w2); [reflexivity|assumption]).
  assert (Hcore : Str.all (differsFrom "`") ("{" ++ body ++ "}" ++ w2) = true).
  { rewrite !MoreStrFacts.all_app, Hb, B2. reflexivity. }
  unfold cleanup.
  change (Str.removeJsonFences 0 false ("```json" ++ w1 ++ "{" ++ body ++ "}" ++ w2 ++ "```"))
    with (Str.removeJsonFences 0 true (w1 ++ "{" ++ body ++ "}" ++ w2 ++ "```")).
  rewrite (CleanupFacts.removeJsonFences_whitespace w1 _ H1).
  change (Str.removeJsonFences 0 true ("{" ++ body ++ "}" ++ w2 ++ "```"))
    with (Str.removeJsonFences 0 false ("{" ++ body ++ "}" ++ w2 ++ "```")).
  replace ("{" ++ body ++ "}" ++ w2 ++ "```") with (("{" ++ body ++ "}" ++ w2) ++ "```")
    by (now rewrite !MoreStrFacts.app_assoc_s).
  rewrite (CleanupFacts.removeJsonFences_app _ "```" Hcore).
  change (Str.removeJsonFences 0 false "```") with "```".
  rewrite (CleanupFacts.removeFences_app _ "```" Hcore).
  change (Str.removeFences 0 "```") with "".
  rewrite MoreStrFacts.app_empty_r, CleanupFacts.matchBraces_trim.
  change ("{" ++ body ++ "}" ++ w2) with ("" ++ "{" ++ body ++ "}" ++ w2).
  rewrite (CleanupFacts.matchBraces_app "" body w2 eq_refl); [reflexivity|].
  apply (CleanupFacts.whitespace_differsFrom "}" w2); [reflexivity|assumption].
Qed.

Module LowerFacts.
Import Str MoreStrFacts.

Lemma lowerChar_idem (c : ascii) : lowerChar (lowerChar c) = lowerChar c.
Proof. destruct c as [[] [] [] [] [] [] [] []]; reflexivity. Qed.

Lemma toLowerCase_idem (s : string) : toLowerCase (toLowerCase s) = toLowerCase s.
Proof. induction s as [|c s IH]; simpl; [reflexivity|now rewrite lowerChar_idem, IH]. Qed.

Lemma toLowerCase_app (a b : string) :
  toLowerCase (a ++ b) = toLowerCase a ++ toLowerCase b.
Proof. induction a as [|c a IH]; simpl; [reflexivity|now rewrite IH]. Qed.

Lemma toLowerCase_empty (a b : string) :
  toLowerCase a = toLowerCase b -> String.eqb a "" = String.eqb b "".
Proof. destruct a, b; simpl; intros H; try reflexivity; discriminate H. Qed.

End LowerFacts.

Section FilterFacts.

Variable host : Host.

(** The rule rejects: one of its keywords occurs in the text of the
    candidate and, when the rule names topics, one of them occurs in the
    topic. *)
Lemma passesRules_false (combined topicLower : string) (rules : list Rule) :
  passesRules combined topicLower rules = false <->
  exists rule,
    In rule rules /\
    (exists kw, In kw (keywords rule) /\ Str.includes kw combined = true) /\
    match for_ rule with
    | ForAny => True
    | ForTopics topics => exists tp, In tp topics /\ Str.includes tp topicLower = true
    end.
Proof.
  induction rules as [|rule rest IH]; cbn [passesRules].
  - split; [discriminate|intros (r & [] & _)].
  - destruct (existsb _ (keywords rule)) eqn:K.
    + destruct (for_ rule) as [|topics] eqn:F.
      * split; [intros _|reflexivity].
        exists rule. rewrite F. apply existsb_exists in K. simpl; auto.
      * destruct (existsb _ topics) eqn:T.
        -- split; [intros _|reflexivity].
           exists rule. rewrite F. apply existsb_exists in K, T. simpl; auto.
        -- rewrite IH. split.
           ++ intros (r & Hin & Hr). exists r. simpl; auto.
           ++ intros (r & [<-|Hin] & Hk & Hf); [|exists r; auto].
              rewrite F in Hf. apply existsb_exists in Hf. congruence.
    + rewrite IH. split.
      * intros (r & Hin & Hr). exists r. simpl; auto.
      * intros (r & [<-|Hin] & Hk & Hf); [|exists r; auto].
        apply existsb_exists in Hk. congruence.
Qed.

(** X4.  For a topic, an agency name and an email that are strings, the
    relevance filter never fails, and it rejects exactly when the candidate
    is empty (no agency name and no email) or some rule of the table fires:
    a keyword of the rule occurs in the lower-cased "agency email" text and,
    for a rule limited to topics, one of its topics occurs in the
    lower-cased topic.  The order of the rules is immaterial. *)
Theorem relevance_rejects_iff_rule_fires (tp agency email : string) :
  exists verdict,
    isDepartmentRelevant host (JStr tp) (JStr agency) (JStr email) = Ok verdict /\
    (verdict = false <->
     (agency = "" /\ email = "") \/
     exists rule,
       In rule wrongDepartments /\
       (exists kw, In kw (keywords rule) /\
                   Str.includes kw (Str.toLowerCase (agency ++ " " ++ email)) = true) /\
       match for_ rule with
       | ForAny => True
       | ForTopics topics =>
           exists t, In t topics /\ Str.includes t (Str.toLowerCase tp) = true
       end).
Proof.
  unfold isDepartmentRelevant, or_else. cbn [truthy toLowerCase obind].
  assert (Hs : forall s, ToString host (if negb (String.eqb s "") then JStr s else JStr "") = s).
  { intros s. destruct (String.eqb s "") eqn:E; [|reflexivity].
    apply String.eqb_eq in E. now subst. }
  rewrite !Hs.
  destruct (String.eqb agency "") eqn:Ea; destruct (String.eqb email "") eqn:Ee; cbn [negb andb].
  1:{ apply String.eqb_eq in Ea, Ee. eexists. split; [reflexivity|]. split; auto. }
  all: eexists; split; [reflexivity|]; rewrite passesRules_false; split;
    [intros H; right; exact H|intros [[Ha He]|H]; [|exact H]].
  all: apply String.eqb_neq in Ea || apply String.eqb_neq in Ee; congruence.
Qed.

(** X5.  The relevance filter does not see letter case: two candidates and
    topics that agree after lower-casing get the same verdict. *)
Theorem relevance_ignores_case (tp tp' agency agency' email email' : string) :
  Str.toLowerCase tp = Str.toLowerCase tp' ->
  Str.toLowerCase agency = Str.toLowerCase agency' ->
  Str.toLowerCase email = Str.toLowerCase email' ->
  isDepartmentRelevant host (JStr tp) (JStr agency) (JStr email)
    = isDepartmentRelevant host (JStr tp') (JStr agency') (JStr email').
Proof.
  intros Ht Ha He.
  unfold isDepartmentRelevant, or_else. cbn [truthy toLowerCase obind].
  assert (Hs : forall s, ToString host (if negb (String.eqb s "") then JStr s else JStr "") = s).
  { intros s. destruct (String.eqb s "") eqn:E; [|reflexivity].
    apply String.eqb_eq in E. now subst. }
  rewrite !Hs, !LowerFacts.toLowerCase_app, Ht, Ha, He.
  now rewrite (LowerFacts.toLowerCase_empty _ _ Ha), (LowerFacts.toLowerCase_empty _ _ He).
Qed.

(** X6.  The filter reads the topic with [toLowerCase] and does not check
    its type: with a candidate that has an agency name or an email, a topic
    that is not a string (the topic is whatever truthy value the extraction
    call returned) makes the filter raise a TypeError. *)
Theorem relevance_needs_string_topic (tp agency email : JSValue) :
  (forall s, tp <> JStr s) ->
  truthy agency = true \/ truthy email = true ->
  isDepartmentRelevant host tp agency email = Throw (TypeError "toLowerCase").
Proof.
  intros Hn Hc. unfold isDepartmentRelevant.
  assert (negb (truthy agency) && negb (truthy email) = false) as ->
    by (destruct Hc as [-> | ->]; [reflexivity|apply andb_false_r]).
  destruct tp; try reflexivity. now destruct (Hn s).
Qed.

End FilterFacts.

(** ** The Model Gateway beyond rate limiting *)

Section MoreGatewayFacts.

Variable host : Host.

Lemma callGemini_unfold (p : Prompt) (u : bool) (r : nat) env st :
  callGemini host p u r env st
  = match tryBlock host p u r env st with
    | (Ok (Return v), st') => (Ok v, st')
    | (Ok (Retry p'), st') => callGemini_rec host (MAX_RETRIES - r) p' u (S r) env st'
    | (Throw e, st') =>
        if (r <? MAX_RETRIES) && messageIncludes "fetch" e then
          (sleep (backoffDelay r) ;;; callGemini_rec host (MAX_RETRIES - r) p u (S r)) env st'
        else (Throw e, st')
    end.
Proof. reflexivity. Qed.

Lemma truthy_text (text : string) : text <> "" -> truthy (JStr text) = true.
Proof.
  intros H. simpl. apply negb_true_iff. destruct (String.eqb text "") eqn:E; [|reflexivity].
  apply String.eqb_eq in E. contradiction.
Qed.

(** The [try] block on a complete reply: the parsed value, or the repair
    re-prompt while [retryCount < 3], or the parse error. *)
Lemma tryBlock_completes (p : Prompt) (u : bool) (r : nat) env st response text :
  fetch env (fetches st) (GeminiPost p u) = Resolved response ->
  completes response text ->
  tryBlock host p u r env st
  = (match JSON_parse host (cleanup text) with
     | inr v => Ok (Return v)
     | inl m => if r <? 3 then Ok (Retry (FixPrompt p))
                else Throw (Thrown ("Failed to parse JSON response: " ++ m))
     end, afterFetch st (GeminiPost p u)).
Proof.
  intros Hf (Hs & data & Hj & Hn & Hm & Ht & Hne).
  unfold tryBlock, bind, doFetch, await, lift, get. rewrite Hf. cbn [settle].
  unfold retryableStatus, ok. rewrite Hs. cbn [Z.eqb orb Z.leb Z.compare Pos.compare
    Pos.compare_cont andb negb]. rewrite Hj. cbn [settle]. rewrite Hn.
  fold (replyFinishReason data). fold (replyText data).
  rewrite Hm, Ht. cbn [andb]. rewrite (truthy_text text Hne). cbn [negb].
  destruct (JSON_parse host (cleanup text)); [destruct (r <? 3)|]; reflexivity.
Qed.

(** The [try] block on a reply cut at the token limit: the same call again
    while retries remain, and the cut text taken as it is afterwards. *)
Lemma tryBlock_truncates (p : Prompt) (u : bool) (r : nat) env st response text :
  fetch env (fetches st) (GeminiPost p u) = Resolved response ->
  truncates response text ->
  tryBlock host p u r env st
  = (if r <? MAX_RETRIES then Ok (Retry p)
     else match JSON_parse host (cleanup text) with
          | inr v => Ok (Return v)
          | inl m => Throw (Thrown ("Failed to parse JSON response: " ++ m))
          end, afterFetch st (GeminiPost p u)).
Proof.
  intros Hf (Hs & data & Hj & Hn & Hm & Ht & Hne).
  unfold tryBlock, bind, doFetch, await, lift, get. rewrite Hf. cbn [settle].
  unfold retryableStatus, ok. rewrite Hs. cbn [Z.eqb orb Z.leb Z.compare Pos.compare
    Pos.compare_cont andb negb]. rewrite Hj. cbn [settle]. rewrite Hn.
  fold (replyFinishReason data). fold (replyText data).
  rewrite Hm, Ht. cbn [andb].
  destruct (r <? MAX_RETRIES) eqn:L; [reflexivity|].
  rewrite (truthy_text text Hne). cbn [negb].
  destruct (JSON_parse host (cleanup text)); [|reflexivity].
  assert ((r <? 3) = false) as ->; [|reflexivity].
  apply Nat.ltb_ge. apply Nat.ltb_ge in L. unfold MAX_RETRIES in L. lia.
Qed.

(** X7.  Malformed output is re-prompted at most three times, at once (no
    timer is set), each re-prompt prefixing the instruction to the prompt
    sent before it; the fourth malformed reply ends the call with the parse
    error.  Stated for a service whose every reply is complete but does not
    parse, with a parser message that does not contain "fetch". *)
Theorem malformed_output_is_reprompted_three_times (p : Prompt) (u : bool) env st message :
  (forall n req, exists response text,
     fetch env n req = Resolved response /\ completes response text /\
     JSON_parse host (cleanup text) = inl message) ->
  Str.includes "fetch" ("Failed to parse JSON response: " ++ message) = false ->
  callGemini host p u 0 env st
  = (Throw (Thrown ("Failed to parse JSON response: " ++ message)),
     {| fetches := fetches st + 4; randoms := randoms st;
        trace := trace st ++
          [ EvFetch (GeminiPost p u);
            EvFetch (GeminiPost (FixPrompt p) u);
            EvFetch (GeminiPost (FixPrompt (FixPrompt p)) u);
            EvFetch (GeminiPost (FixPrompt (FixPrompt (FixPrompt p))) u) ] |}).
Proof.
  intros Hall Hmsg.
  assert (Hstep : forall q r s, r < 3 ->
            callGemini host q u r env s
            = callGemini host (FixPrompt q) u (S r) env (afterFetch s (GeminiPost q u))).
  { intros q r s Hr. destruct (Hall (fetches s) (GeminiPost q u)) as (resp & text & Hf & Hc & Hp).
    rewrite callGemini_unfold, (tryBlock_completes q u r env s resp text Hf Hc), Hp.
    apply Nat.ltb_lt in Hr. rewrite Hr. rewrite callGemini_succ; [reflexivity|].
    apply Nat.ltb_lt in Hr. unfold MAX_RETRIES. lia. }
  rewrite (Hstep p 0), (Hstep _ 1), (Hstep _ 2) by lia.
  match goal with
  | |- callGemini host ?q u 3 env ?s = _ =>
      destruct (Hall (fetches s) (GeminiPost q u)) as (resp & text & Hf & Hc & Hp);
      rewrite callGemini_unfold, (tryBlock_completes q u 3 env s resp text Hf Hc), Hp
  end.
  cbn [Nat.ltb Nat.leb]. cbn [messageIncludes]. rewrite Hmsg, andb_false_r.
  unfold afterFetch. cbn [fetches randoms trace].
  repeat rewrite <- app_assoc. cbn [app].
  repeat rewrite Nat.add_succ_r. rewrite Nat.add_0_r. reflexivity.
Qed.

(** X8.  A reply cut at the token limit is asked for again until the five
    retries are used up; the sixth cut reply is then taken as it is and
    parsed, with no error for the cut.  Stated for a service whose every
    reply is cut and carries a text that parses to [v]. *)
Theorem truncated_text_is_used_after_last_retry (p : Prompt) (u : bool) env st v :
  (forall n req, exists response text,
     fetch env n req = Resolved response /\ truncates response text /\
     JSON_parse host (cleanup text) = inr v) ->
  callGemini host p u 0 env st
  = (Ok v,
     {| fetches := fetches st + 6; randoms := randoms st;
        trace := trace st ++ repeat (EvFetch (GeminiPost p u)) 6 |}).
Proof.
  intros Hall.
  assert (Hstep : forall r s, r < MAX_RETRIES ->
            callGemini host p u r env s
            = callGemini host p u (S r) env (afterFetch s (GeminiPost p u))).
  { intros r s Hr. destruct (Hall (fetches s) (GeminiPost p u)) as (resp & text & Hf & Hc & Hp).
    rewrite callGemini_unfold, (tryBlock_truncates p u r env s resp text Hf Hc).
    pose proof Hr as Hr'. apply Nat.ltb_lt in Hr'. rewrite Hr'. now rewrite callGemini_succ. }
  rewrite (Hstep 0), (Hstep 1), (Hstep 2), (Hstep 3), (Hstep 4) by (unfold MAX_RETRIES; lia).
  match goal with
  | |- callGemini host p u 5 env ?s = _ =>
      destruct (Hall (fetches s) (GeminiPost p u)) as (resp & text & Hf & Hc & Hp);
      rewrite callGemini_unfold, (tryBlock_truncates p u 5 env s resp text Hf Hc), Hp
  end.
  cbn [Nat.ltb Nat.leb MAX_RETRIES].
  unfold afterFetch. cbn [fetches randoms trace repeat].
  repeat rewrite <- app_assoc. cbn [app].
  repeat rewrite Nat.add_succ_r. rewrite Nat.add_0_r. reflexivity.
Qed.

(** The [try] block when [fetch] rejects. *)
Lemma tryBlock_rejected (p : Prompt) (u : bool) (r : nat) env st message :
  fetch env (fetches st) (GeminiPost p u) = Rejected message ->
  tryBlock host p u r env st = (Throw (Thrown message), afterFetch st (GeminiPost p u)).
Proof.
  intros Hf. unfold tryBlock, bind, doFetch. rewrite Hf. reflexivity.
Qed.

(** X9.  A network failure is told from other errors by the word "fetch" in
    its message.  When every request fails with a message that contains it,
    the call is retried five times under the same backoff as rate limiting
    and then fails with that message; when the message does not contain it,
    the first failure ends the call at once. *)
Theorem network_failure_is_retried_by_its_message (p : Prompt) (u : bool) env st message :
  (forall n req, fetch env n req = Rejected message) ->
  (Str.includes "fetch" message = true ->
   let request := EvFetch (GeminiPost p u) in
   let timer k :=
     EvSetTimeout (backoffDelay k + jitter (random env (randoms st + k)) (backoffDelay k))%Q in
   callGemini host p u 0 env st
   = (Throw (Thrown message),
      {| fetches := fetches st + 6; randoms := randoms st + 5;
         trace := trace st ++
           [request; timer 0; request; timer 1; request; timer 2;
            request; timer 3; request; timer 4; request] |})) /\
  (Str.includes "fetch" message = false ->
   callGemini host p u 0 env st
   = (Throw (Thrown message), afterFetch st (GeminiPost p u))).
Proof.
  intros Hall. split.
  - intros Hm request timer.
    assert (Hstep : forall r s, r < MAX_RETRIES ->
              callGemini host p u r env s
              = callGemini host p u (S r) env
                  {| fetches := S (fetches s); randoms := S (randoms s);
                     trace := (trace s ++ [request]) ++
                       [EvSetTimeout (backoffDelay r
                                      + jitter (random env (randoms s)) (backoffDelay r))%Q] |}).
    { intros r s Hr.
      rewrite callGemini_unfold, (tryBlock_rejected p u r env s message (Hall _ _)).
      cbn [messageIncludes]. rewrite Hm.
      pose proof Hr as Hr'. apply Nat.ltb_lt in Hr'. rewrite Hr'. cbn [andb].
      unfold bind, sleep, afterFetch. cbn [fetches randoms trace].
      now rewrite callGemini_succ. }
    rewrite (Hstep 0), (Hstep 1), (Hstep 2), (Hstep 3), (Hstep 4)
      by (unfold MAX_RETRIES; lia).
    rewrite callGemini_unfold, (tryBlock_rejected p u 5 env _ message (Hall _ _)).
    cbn [Nat.ltb Nat.leb MAX_RETRIES andb].
    unfold afterFetch, timer. cbn [fetches randoms trace].
    repeat rewrite <- app_assoc. cbn [app].
    repeat rewrite Nat.add_succ_r. rewrite !Nat.add_0_r. reflexivity.
  - intros Hm.
    rewrite callGemini_unfold, (tryBlock_rejected p u 0 env st message (Hall _ _)).
    cbn [messageIncludes]. now rewrite Hm, andb_false_r.
Qed.

(** X10.  A reply with an error status other than 429, 503 and 504 ends the
    call at once, whatever the retry count, with the status and the body in
    the message; unless that message contains "fetch", in which case the
    reply is handled like a network failure and retried after the backoff
    delay while retries remain. *)
Theorem http_error_is_terminal_unless_it_mentions_fetch
    (p : Prompt) (u : bool) (r : nat) env st response err :
  fetch env (fetches st) (GeminiPost p u) = Resolved response ->
  retryableStatus (status response) = false ->
  ok response = false ->
  text response = Resolved err ->
  let message := "Gemini API error: " ++ Str.ofZ (status response) ++ " — " ++ err in
  (Str.includes "fetch" message = false ->
   callGemini host p u r env st
   = (Throw (Thrown message), afterFetch st (GeminiPost p u))) /\
  (Str.includes "fetch" message = true -> r < MAX_RETRIES ->
   callGemini host p u r env st
   = callGemini host p u (S r) env
       {| fetches := S (fetches st); randoms := S (randoms st);
          trace := (trace st ++ [EvFetch (GeminiPost p u)]) ++
                   [EvSetTimeout (backoffDelay r
                                  + jitter (random env (randoms st)) (backoffDelay r))%Q] |}).
Proof.
  intros Hf Hs Hok Ht message.
  assert (Htry : tryBlock host p u r env st
                 = (Throw (Thrown message), afterFetch st (GeminiPost p u))).
  { unfold tryBlock, bind, doFetch, await, lift. rewrite Hf. cbn [settle].
    rewrite Hs, Hok. cbn [negb]. rewrite Ht. reflexivity. }
  split.
  - intros Hm. rewrite callGemini_unfold, Htry. cbn [messageIncludes].
    now rewrite Hm, andb_false_r.
  - intros Hm Hr. rewrite callGemini_unfold, Htry. cbn [messageIncludes]. rewrite Hm.
    pose proof Hr as Hr'. apply Nat.ltb_lt in Hr'. rewrite Hr'. cbn [andb].
    unfold bind, sleep, afterFetch. cbn [fetches randoms trace].
    now rewrite callGemini_succ.
Qed.


Lemma timers_app (d1 d2 : list Event) :
  timers (d1 ++ d2)%list = (timers d1 ++ timers d2)%list.
Proof.
  induction d1 as [|[req|d] rest IH]; cbn [timers app]; [reflexivity|assumption|].
  now rewrite IH.
Qed.

Lemma total_app (l1 l2 : list Q) : (total (l1 ++ l2)%list == total l1 + total l2)%Q.
Proof.
  induction l1 as [|d rest IH]; cbn [total app]; [lra|]. rewrite IH. lra.
Qed.

(** The most the retries from [retryCount] on can wait: every delay with the
    largest jitter. *)
Lemma backoffDelay_le_last (r : nat) :
  r <= MAX_RETRIES -> (backoffDelay r <= backoffDelay MAX_RETRIES)%Q.
Proof.
  intros Hr. unfold backoffDelay, BASE_DELAY_MS, Qle, inject_Z. cbn [Qnum Qden].
  assert (2 ^ Z.of_nat r <= 2 ^ Z.of_nat MAX_RETRIES)%Z
    by (apply Z.pow_le_mono_r; lia).
  lia.
Qed.

(** The timers of one execution of the [try] block: none, or the one of the
    backoff at this retry count, and then the block ends in a retry. *)
Lemma tryBlock_timers (p : Prompt) (u : bool) (r : nat) env st :
  exists delta,
    trace (snd (tryBlock host p u r env st)) = (trace st ++ delta)%list /\
    (timers delta = [] \/
     (r < MAX_RETRIES /\
      timers delta = [(backoffDelay r + jitter (random env (randoms st)) (backoffDelay r))%Q] /\
      exists p', fst (tryBlock host p u r env st) = Ok (Retry p'))).
Proof.
  unfold tryBlock, bind, doFetch, await, lift, ret, throw, sleep.
  destruct (settle (fetch env (fetches st) (GeminiPost p u))) as [response|e];
    [|eexists; split; [reflexivity|left; reflexivity]].
  destruct (retryableStatus (status response)).
  { destruct (r <? MAX_RETRIES) eqn:L.
    - cbn [snd fst trace randoms]. eexists. split; [rewrite <- app_assoc; reflexivity|].
      right. apply Nat.ltb_lt in L. split; [assumption|]. split; [reflexivity|eauto].
    - eexists; split; [reflexivity|left; reflexivity]. }
  destruct (negb (ok response)).
  { destruct (settle (text response)); eexists; (split; [reflexivity|left; reflexivity]). }
  destruct (settle (json response)) as [data|e];
    [|eexists; split; [reflexivity|left; reflexivity]].
  destruct (get data "candidates") as [candidates|e];
    [|eexists; split; [reflexivity|left; reflexivity]].
  destruct (isString "MAX_TOKENS" _ && (r <? MAX_RETRIES));
    [eexists; split; [reflexivity|left; reflexivity]|].
  destruct (negb (truthy _)); [eexists; split; [reflexivity|left; reflexivity]|].
  destruct (optGet _ "text"); try (eexists; split; [reflexivity|left; reflexivity]).
  destruct (JSON_parse host _); [|eexists; split; [reflexivity|left; reflexivity]].
  destruct (r <? 3); eexists; (split; [reflexivity|left; reflexivity]).
Qed.

Lemma callGemini_rec_timers (fuel : nat) (p : Prompt) (u : bool) (r : nat) env st :
  (forall n, 0 <= random env n < 1)%Q ->
  exists delta,
    trace (snd (callGemini_rec host fuel p u r env st)) = (trace st ++ delta)%list /\
    List.length (timers delta) <= MAX_RETRIES - r /\
    (r <= MAX_RETRIES ->
     (total (timers delta)
      <= (13 # 10) * (backoffDelay MAX_RETRIES - backoffDelay r))%Q).
Proof.
  intros Hrand. revert p r st. induction fuel as [|fuel IH]; intros p r st.
  { exists []. cbn. rewrite app_nil_r. split; [reflexivity|]. split; [lia|].
    intros Hr. pose proof (backoffDelay_le_last r Hr). cbn [total]. lra. }
  cbn [callGemini_rec].
  destruct (tryBlock_timers p u r env st) as (d1 & E1 & T1).
  pose proof (tryBlock_Retry host p) as HR.
  pose proof (backoffDelay_pos r) as Hpos.
  pose proof (backoffDelay_double r) as Hdbl.
  pose proof (jitter_bounds (random env (randoms st)) (backoffDelay r) (Hrand _) Hpos) as Hj.
  destruct (tryBlock host p u r env st) as [[[v|p']|e] st1] eqn:T; cbn [snd fst] in *.
  - (* a value *)
    exists d1. split; [assumption|].
    destruct T1 as [T1|(_ & _ & q & Hq)]; [|discriminate].
    rewrite T1. cbn [List.length total]. split; [lia|].
    intros Hr. pose proof (backoffDelay_le_last r Hr). lra.
  - (* a retry from the block *)
    destruct (HR p' u r env st st1 T) as [_ Hr].
    destruct (IH p' (S r) st1) as (d2 & E2 & L2 & B2).
    exists (d1 ++ d2)%list. rewrite E2, E1, app_assoc. split; [reflexivity|].
    rewrite timers_app, List.length_app, total_app.
    specialize (B2 Hr).
    destruct T1 as [T1|(_ & T1 & _)]; rewrite T1; cbn [List.length total].
    + split; [lia|]. intros _. lra.
    + split; [lia|]. intros _. lra.
  - (* an error *)
    destruct T1 as [T1|(_ & _ & q & Hq)]; [|discriminate].
    destruct (r <? MAX_RETRIES) eqn:L; cbn [andb].
    + apply Nat.ltb_lt in L.
      destruct (messageIncludes "fetch" e).
      * unfold bind, sleep.
        match goal with
        | |- context [callGemini_rec host fuel p u (S r) env ?s] =>
            destruct (IH p (S r) s) as (d2 & E2 & L2 & B2)
        end.
        cbn [trace] in E2. specialize (B2 L).
        eexists (d1 ++ _ :: d2)%list. rewrite E2, E1. split.
        { rewrite <- !app_assoc. reflexivity. }
        rewrite timers_app, T1. cbn [app timers List.length total].
        split; [lia|]. intros _.
        pose proof (jitter_bounds (random env (randoms st1)) (backoffDelay r)
                      (Hrand _) Hpos) as Hj1.
        lra.
      * exists d1. split; [assumption|]. rewrite T1. cbn [List.length total].
        split; [lia|]. intros Hr. pose proof (backoffDelay_le_last r Hr). lra.
    + exists d1. split; [assumption|]. rewrite T1. cbn [List.length total].
      split; [lia|]. intros Hr. pose proof (backoffDelay_le_last r Hr). lra.
Qed.

(** X11.  Whatever the service answers, one gateway call sets at most five
    timers, and the delays it waits add up to at most 40.3 seconds:
    1.3 x (1 + 2 + 4 + 8 + 16) seconds, every backoff delay with the
    largest jitter.  [Math.random] yields a number in [0, 1). *)
Theorem gateway_call_waits_at_most_forty_seconds (p : Prompt) (u : bool) env st :
  (forall n, 0 <= random env n < 1)%Q ->
  exists delta,
    trace (snd (callGemini host p u 0 env st)) = (trace st ++ delta)%list /\
    List.length (timers delta) <= 5 /\
    (total (timers delta) <= 40300)%Q.
Proof.
  intros Hrand.
  destruct (callGemini_rec_timers (S (MAX_RETRIES - 0)) p u 0 env st Hrand)
    as (d & E & L & B).
  exists d. split; [exact E|]. split; [exact L|].
  specialize (B (Nat.le_0_l _)).
  eapply Qle_trans; [exact B|]. vm_compute. discriminate.
Qed.

End MoreGatewayFacts.

(** ** The pipeline as a whole *)

Section MorePipelineFacts.

Variable host : Host.

Lemma ofCall_grounded (p : Prompt) (u : bool) (ev : Event) :
  groundedAsTiered (EvFetch (GeminiPost p u)) -> ofCall p u ev -> groundedAsTiered ev.
Proof.
  destruct ev as [[q uq|url ms]|d]; cbn [groundedAsTiered ofCall]; auto.
  unfold tierOf. intros Hu [Eb ->]. now rewrite Eb.
Qed.

Lemma emits_grounded (p : Prompt) (u : bool) (r : nat) :
  groundedAsTiered (EvFetch (GeminiPost p u)) ->
  emits groundedAsTiered (callGemini host p u r).
Proof.
  intros Hu. eapply emits_weaken; [|apply emits_callGemini].
  intros ev. now apply ofCall_grounded.
Qed.

Lemma emits_grounded_checkDomainMX (domain : string) :
  emits groundedAsTiered (checkDomainMX host domain).
Proof.
  unfold checkDomainMX. apply emits_try_catch.
  - apply emits_bind; [apply emits_doFetch; exact I|intros response].
    apply emits_bind; [apply emits_lift|intros data; apply emits_lift].
  - intros _. apply emits_ret.
Qed.

(** X12.  Search grounding is requested for the three search passes and for
    nothing else: every request of the pipeline for geocoding, for the
    location or the topic of a description, for the guess and for the body
    of the email goes out without the search tool, and every request of a
    search pass with it, retries and repair re-prompts included. *)
Theorem search_grounding_only_for_search_passes
    (description : string) (location : JSValue) (hasPhoto : bool) :
  emits groundedAsTiered (generateEmailDraft host description location hasPhoto).
Proof.
  unfold generateEmailDraft, routeWithin, routeTopic, composeDraft, dnsCheck, lastResort,
    searchPasses, searchPass, unlessSelected, extractTopic, determineJurisdiction,
    extractLocation, findTopicSpecificEmail, findAgencyEmail, findGeneralEmail.
  repeat first
    [ apply emits_grounded_checkDomainMX | apply emits_grounded; reflexivity
    | apply emits_if | apply emits_try_catch | apply emits_bind
    | match goal with |- forall _, _ => intros ? end
    | apply emits_ret | apply emits_lift
    | match goal with |- emits _ (match ?x with _ => _ end) => destruct x end ].
Qed.

(** *** The number of requests *)

Lemma spends_ret {A} (a : A) : spends 0 (ret a).
Proof. intros env st. cbn. lia. Qed.

Lemma spends_lift {A} (o : Outcome A) : spends 0 (lift o).
Proof. intros env st. cbn. lia. Qed.

Lemma spends_weaken {A} (n n' : nat) (m : M A) : n <= n' -> spends n m -> spends n' m.
Proof. intros Hn H env st. specialize (H env st). lia. Qed.

Lemma spends_bind {A B} (n1 n2 : nat) (m : M A) (k : A -> M B) :
  spends n1 m -> (forall a, spends n2 (k a)) -> spends (n1 + n2) (bind m k).
Proof.
  intros Hm Hk env st. unfold bind. specialize (Hm env st).
  destruct (m env st) as [[a|e] st1]; cbn [snd] in *; [|lia].
  specialize (Hk a env st1). lia.
Qed.

Lemma spends_try_catch {A} (n1 n2 : nat) (m : M A) (h : Error -> M A) :
  spends n1 m -> (forall e, spends n2 (h e)) -> spends (n1 + n2) (try_catch m h).
Proof.
  intros Hm Hh env st. unfold try_catch. specialize (Hm env st).
  destruct (m env st) as [[a|e] st1]; cbn [snd] in *; [lia|].
  specialize (Hh e env st1). lia.
Qed.

Lemma spends_if {A} (n : nat) (b : bool) (m1 m2 : M A) :
  spends n m1 -> spends n m2 -> spends n (if b then m1 else m2).
Proof. now destruct b. Qed.

Lemma spends_callGemini (p : Prompt) (u : bool) : spends 6 (callGemini host p u 0).
Proof. intros env st. apply (callGemini_rec_fetches host 6). Qed.

Lemma spends_checkDomainMX (domain : string) : spends 1 (checkDomainMX host domain).
Proof.
  intros env st. unfold checkDomainMX, try_catch, bind, doFetch, await, lift, ret.
  destruct (settle (fetch env (fetches st) _)); cbn [snd fetches]; [|lia].
  destruct (settle _); cbn [snd fetches]; [|lia].
  destruct (hasMailRecords _ _); cbn [snd fetches]; lia.
Qed.

Lemma spends_determineJurisdiction (description : string) (location : JSValue) :
  spends 6 (determineJurisdiction host description location).
Proof.
  unfold determineJurisdiction, extractLocation.
  apply spends_if; [|apply spends_if].
  - apply (spends_try_catch 6 0).
    + apply (spends_bind 6 0); [apply spends_callGemini|intros geo].
      apply spends_if; apply spends_ret.
    + intros _. apply spends_ret.
  - apply (spends_weaken 0); [lia|apply spends_ret].
  - apply (spends_bind 6 0); [apply spends_callGemini|intros extracted].
    apply (spends_bind 0 0); [apply spends_lift|intros hasLocation].
    apply spends_if; apply spends_ret.
Qed.

Lemma spends_extractTopic (description : string) : spends 6 (extractTopic host description).
Proof.
  unfold extractTopic.
  apply (spends_bind 6 0); [apply spends_callGemini|intros result].
  apply (spends_bind 0 0); [apply spends_lift|intros topic; apply spends_ret].
Qed.

Lemma spends_searchPass (find : M JSValue) (level : FallbackLevel) (topic : JSValue)
    (sel : Selection) :
  spends 6 find -> spends 6 (searchPass host find level topic sel).
Proof.
  intros Hf. unfold searchPass.
  apply (spends_bind 6 0); [assumption|intros pass].
  apply (spends_bind 0 0); [apply spends_lift|intros accepted].
  apply spends_if; apply spends_ret.
Qed.

Lemma spends_unlessSelected (n : nat) (sel : Selection) (m : M Selection) :
  spends n m -> spends n (unlessSelected sel m).
Proof.
  intros Hm. unfold unlessSelected. apply spends_if; [assumption|].
  apply (spends_weaken 0); [lia|apply spends_ret].
Qed.

Lemma spends_routeTopic description hasPhoto jurisdiction topic :
  spends 31 (routeTopic host description hasPhoto jurisdiction topic).
Proof.
  unfold routeTopic.
  apply (spends_bind 18 13).
  { unfold searchPasses.
    apply (spends_bind 6 12); [apply spends_searchPass, spends_callGemini|intros selA].
    apply (spends_bind 6 6); [|intros selB];
      apply spends_unlessSelected, spends_searchPass, spends_callGemini. }
  intros selected. apply (spends_bind 6 7).
  { unfold lastResort. apply spends_unlessSelected.
    apply (spends_bind 6 0); [apply spends_callGemini|intros guess].
    apply (spends_bind 0 0); [apply spends_lift|intros _; apply spends_ret]. }
  intros final. unfold composeDraft. apply (spends_bind 1 6).
  { unfold dnsCheck.
    apply (spends_bind 0 1); [apply spends_lift|intros email].
    apply (spends_bind 0 1); [apply spends_lift|intros emailDomain].
    destruct emailDomain; try (apply (spends_weaken 0); [lia|apply spends_ret]).
    apply spends_if; [apply spends_checkDomainMX|].
    apply (spends_weaken 0); [lia|apply spends_ret]. }
  intros dnsValid.
  apply (spends_bind 6 0); [apply spends_callGemini|intros emailContent].
  apply (spends_bind 0 0); [apply spends_lift|intros _; apply spends_ret].
Qed.

(** X13.  One report costs at most 43 requests, and one revision at most 6:
    six for each of the seven gateway calls a report can need (the location,
    the topic, three search passes, the guess, the body) and one DNS query.
    The bound is reached: with a service whose every reply is cut at the
    token limit, a report with coordinates sends exactly 43. *)
Theorem request_budget :
  (forall description location hasPhoto,
     spends 43 (generateEmailDraft host description location hasPhoto)) /\
  (forall currentTo currentSubject currentBody suggestion,
     spends 6 (reviseEmailDraft host currentTo currentSubject currentBody suggestion)) /\
  fetches (snd (generateEmailDraft Scenario.host "Pothole on Main Street"
                  Cases.stanford false Cases.alwaysCut initial)) = 43.
Proof.
  split; [|split].
  - intros description location hasPhoto. unfold generateEmailDraft, routeWithin.
    apply (spends_bind 6 37); [apply spends_determineJurisdiction|intros jurisdiction].
    apply (spends_bind 6 31); [apply spends_extractTopic|intros topic].
    apply spends_routeTopic.
  - intros. apply spends_callGemini.
  - vm_compute. reflexivity.
Qed.


(** *** The DNS answer is advisory *)

Section Advisory.

Variables env1 env2 : Env.
Hypothesis same : sameGateway env1 env2.

Lemma agrees_ret {A} (a : A) : agrees env1 env2 (ret a).
Proof. intros st. reflexivity. Qed.

Lemma agrees_lift {A} (o : Outcome A) : agrees env1 env2 (lift o).
Proof. intros st. reflexivity. Qed.

Lemma agrees_bind {A B} (m : M A) (k : A -> M B) :
  agrees env1 env2 m -> (forall a, agrees env1 env2 (k a)) -> agrees env1 env2 (bind m k).
Proof.
  intros Hm Hk st. unfold bind. rewrite (Hm st).
  destruct (m env2 st) as [[a|e] st1]; [apply Hk|reflexivity].
Qed.

Lemma agrees_try_catch {A} (m : M A) (h : Error -> M A) :
  agrees env1 env2 m -> (forall e, agrees env1 env2 (h e)) ->
  agrees env1 env2 (try_catch m h).
Proof.
  intros Hm Hh st. unfold try_catch. rewrite (Hm st).
  destruct (m env2 st) as [[a|e] st1]; [reflexivity|apply Hh].
Qed.

Lemma agrees_if {A} (b : bool) (m1 m2 : M A) :
  agrees env1 env2 m1 -> agrees env1 env2 m2 -> agrees env1 env2 (if b then m1 else m2).
Proof. now destruct b. Qed.

Lemma agrees_sleep (ms : Q) : agrees env1 env2 (sleep ms).
Proof. intros st. unfold sleep. now rewrite (proj2 same). Qed.

Lemma agrees_post (p : Prompt) (u : bool) : agrees env1 env2 (doFetch (GeminiPost p u)).
Proof. intros st. unfold doFetch. now rewrite (proj1 same). Qed.

Lemma agrees_tryBlock (p : Prompt) (u : bool) (r : nat) :
  agrees env1 env2 (tryBlock host p u r).
Proof.
  unfold tryBlock.
  apply agrees_bind; [apply agrees_post|intros response].
  repeat first
    [ apply agrees_sleep | apply agrees_if | apply agrees_bind
    | match goal with |- forall _, _ => intros ? end
    | apply agrees_ret | apply agrees_lift
    | match goal with |- agrees _ _ (match ?x with _ => _ end) => destruct x end ];
  intros st; reflexivity.
Qed.

Lemma agrees_callGemini_rec (fuel : nat) (p : Prompt) (u : bool) (r : nat) :
  agrees env1 env2 (callGemini_rec host fuel p u r).
Proof.
  revert p r. induction fuel as [|fuel IH]; intros p r st; [reflexivity|].
  cbn [callGemini_rec]. rewrite (agrees_tryBlock p u r st).
  destruct (tryBlock host p u r env2 st) as [[[v|p']|e] st1]; [reflexivity|apply IH|].
  destruct ((r <? MAX_RETRIES) && messageIncludes "fetch" e); [|reflexivity].
  apply (agrees_bind (sleep (backoffDelay r))); [apply agrees_sleep|intros _; apply IH].
Qed.

Lemma agrees_callGemini (p : Prompt) (u : bool) (r : nat) :
  agrees env1 env2 (callGemini host p u r).
Proof. apply agrees_callGemini_rec. Qed.

Lemma butDns_bind {A} (m : M A) (k : A -> M RoutingResult) :
  agrees env1 env2 m -> (forall a, agreesButDns env1 env2 (k a)) ->
  agreesButDns env1 env2 (bind m k).
Proof.
  intros Hm Hk st. unfold bind. rewrite (Hm st).
  destruct (m env2 st) as [[a|e] st1]; [apply Hk|]. cbn. auto.
Qed.

(** The DNS check leaves the same state in both environments, and fails in
    one when it fails in the other. *)
Lemma dnsCheck_advisory (emailResult : JSValue) (st : State) :
  snd (dnsCheck host emailResult env1 st) = snd (dnsCheck host emailResult env2 st) /\
  match fst (dnsCheck host emailResult env1 st), fst (dnsCheck host emailResult env2 st) with
  | Ok _, Ok _ => True
  | Throw e1, Throw e2 => e1 = e2
  | _, _ => False
  end.
Proof.
  unfold dnsCheck, bind, lift.
  destruct (get emailResult "email") as [email|e]; [|cbn; auto].
  destruct (optSplitAt1 email) as [emailDomain|e]; [|cbn; auto].
  destruct emailDomain as [| | | |domain| |]; try (cbn; auto; fail).
  destruct (truthy (JStr domain)); [|cbn; auto].
  unfold checkDomainMX, try_catch, bind, doFetch, await, lift, ret.
  destruct (settle (fetch env1 _ _)), (settle (fetch env2 _ _)); cbn [fst snd];
    repeat match goal with
           | |- context [match settle ?x with _ => _ end] => destruct (settle x)
           | |- context [match hasMailRecords ?h ?x with _ => _ end] =>
               destruct (hasMailRecords h x)
           end; cbn [fst snd]; auto.
Qed.

Lemma composeDraft_advisory description hasPhoto jurisdiction topic sel :
  agreesButDns env1 env2 (composeDraft host description hasPhoto jurisdiction topic sel).
Proof.
  intros st. unfold composeDraft.
  destruct (dnsCheck_advisory (fst sel) st) as [Hs Ho].
  set (k := fun dnsValid : JSValue => bind _ _).
  assert (Hk : forall v, agrees env1 env2 (k v)).
  { intros v. unfold k.
    apply agrees_bind; [apply agrees_callGemini|intros emailContent].
    apply agrees_bind; [apply agrees_lift|intros _; apply agrees_ret]. }
  unfold bind.
  destruct (dnsCheck host (fst sel) env1 st) as [[v1|e1] s1],
           (dnsCheck host (fst sel) env2 st) as [[v2|e2] s2];
    cbn [fst snd] in Hs, Ho; subst; try contradiction; [|cbn; auto].
  rewrite (Hk v1 s2). unfold k, bind.
  destruct (callGemini host _ false 0 env2 s2) as [[emailContent|e] s3]; [|cbn; auto].
  unfold lift. destruct (get emailContent "subject"); cbn; auto 10.
Qed.

End Advisory.

(** X14.  The DNS check is advisory.  Two runs of a report that get the same
    answers from the completion service and the same jitter, but any DNS
    answers, send the same requests and set the same timers, fail alike or
    both succeed, and return results that differ at most in [dns_verified]:
    the recipient, the fallback level, the confidence and the draft do not
    depend on what the resolver says. *)
Theorem dns_answer_only_sets_dns_verified
    (env1 env2 : Env) (description : string) (location : JSValue) (hasPhoto : bool)
    (st : State) :
  sameGateway env1 env2 ->
  sameButDns (fst (generateEmailDraft host description location hasPhoto env1 st))
             (fst (generateEmailDraft host description location hasPhoto env2 st)) /\
  snd (generateEmailDraft host description location hasPhoto env1 st)
  = snd (generateEmailDraft host description location hasPhoto env2 st).
Proof.
  intros same. revert st.
  change (agreesButDns env1 env2 (generateEmailDraft host description location hasPhoto)).
  assert (Hcall : forall p u, agrees env1 env2 (callGemini host p u 0))
    by (intros; now apply agrees_callGemini).
  unfold generateEmailDraft, routeWithin, routeTopic.
  apply butDns_bind.
  { unfold determineJurisdiction, extractLocation.
    repeat first
      [ apply Hcall | apply agrees_if | apply agrees_try_catch | apply agrees_bind
      | match goal with |- forall _, _ => intros ? end
      | apply agrees_ret | apply agrees_lift ]. }
  intros jurisdiction. apply butDns_bind.
  { unfold extractTopic.
    repeat first
      [ apply Hcall | apply agrees_bind
      | match goal with |- forall _, _ => intros ? end
      | apply agrees_ret | apply agrees_lift ]. }
  intros topic. apply butDns_bind.
  { unfold searchPasses, searchPass, unlessSelected, findTopicSpecificEmail,
      findAgencyEmail, findGeneralEmail.
    repeat first
      [ apply Hcall | apply agrees_if | apply agrees_bind
      | match goal with |- forall _, _ => intros ? end
      | apply agrees_ret | apply agrees_lift ]. }
  intros selected. apply butDns_bind.
  { unfold lastResort, unlessSelected.
    repeat first
      [ apply Hcall | apply agrees_if | apply agrees_bind
      | match goal with |- forall _, _ => intros ? end
      | apply agrees_ret | apply agrees_lift ]. }
  intros final. now apply composeDraft_advisory.
Qed.


(** *** The location and the domain of the address *)

(** X15.  With numeric coordinates, step 1 never fails: whatever the
    geocoding call does, a jurisdiction comes out of it, and it is the
    default when the call fails.  The step costs the requests of that one
    call. *)
Theorem geocoding_failure_falls_back_to_default
    (description : string) (location : JSValue) env st :
  truthy location = true ->
  isNumber (getProp location "latitude") = true ->
  isNumber (getProp location "longitude") = true ->
  let geocoding :=
    callGemini host (GeoPrompt (getProp location "latitude")
                               (getProp location "longitude")) false 0 env st in
  exists jurisdiction,
    determineJurisdiction host description location env st
    = (Ok jurisdiction, snd geocoding) /\
    (forall e, fst geocoding = Throw e -> jurisdiction = DEFAULT_JURISDICTION).
Proof.
  intros Ht Hlat Hlon geocoding. unfold determineJurisdiction.
  rewrite Ht, Hlat, Hlon. cbn [andb]. unfold try_catch, bind. fold geocoding.
  destruct geocoding as [[geo|e] st1]; cbn [fst snd].
  - destruct (truthy geo && _ && _); eexists; (split; [reflexivity|discriminate]).
  - eexists. split; [reflexivity|reflexivity].
Qed.

(** X16.  Without a location object, a failure of the location extraction
    call is not absorbed: the report fails with the error of that call, and
    nothing else is requested. *)
Theorem location_extraction_failure_fails_the_report
    (description : string) (location : JSValue) (hasPhoto : bool) env st e st' :
  truthy location = false ->
  extractLocation host description env st = (Throw e, st') ->
  generateEmailDraft host description location hasPhoto env st = (Throw e, st').
Proof.
  intros Ht Hx. unfold generateEmailDraft, determineJurisdiction.
  rewrite Ht. cbn [andb]. unfold bind at 1 2. now rewrite Hx.
Qed.

Lemma splitAt1_at (local rest : string) :
  Str.all (differsFrom "@") local = true ->
  Str.splitAt1 (local ++ "@" ++ rest) = Some (Str.upToAt rest).
Proof.
  induction local as [|c local IH]; cbn [Str.all append Str.splitAt1]; [reflexivity|].
  unfold differsFrom at 1. intros H. apply andb_true_iff in H as [Hc Hl].
  apply negb_true_iff in Hc. rewrite Hc. now apply IH.
Qed.

Lemma splitAt1_none (s : string) :
  Str.all (differsFrom "@") s = true -> Str.splitAt1 s = None.
Proof.
  induction s as [|c s IH]; cbn [Str.all Str.splitAt1]; [reflexivity|].
  unfold differsFrom at 1. intros H. apply andb_true_iff in H as [Hc Hl].
  apply negb_true_iff in Hc. rewrite Hc. now apply IH.
Qed.

Lemma upToAt_all (s : string) :
  Str.all (differsFrom "@") s = true -> Str.upToAt s = s.
Proof.
  induction s as [|c s IH]; cbn [Str.all Str.upToAt]; [reflexivity|].
  unfold differsFrom at 1. intros H. apply andb_true_iff in H as [Hc Hl].
  apply negb_true_iff in Hc. rewrite Hc. now rewrite IH.
Qed.

(** X17.  Step 4 asks the resolver about what follows the at sign of the
    chosen address, and asks nothing when there is nothing to ask about: an
    address without an at sign, or with nothing after it, gives
    [dns_verified] [null] without a request. *)
Theorem dns_check_queries_the_domain_of_the_address
    (emailResult : JSValue) (address : string) env st :
  nullish emailResult = false ->
  getProp emailResult "email" = JStr address ->
  (forall local domain,
     address = local ++ "@" ++ domain ->
     Str.all (differsFrom "@") local = true ->
     Str.all (differsFrom "@") domain = true ->
     dnsCheck host emailResult env st
     = if String.eqb domain "" then (Ok JNull, st) else checkDomainMX host domain env st) /\
  (Str.all (differsFrom "@") address = true ->
   dnsCheck host emailResult env st = (Ok JNull, st)).
Proof.
  intros Hn He. unfold dnsCheck, bind, lift, get. rewrite Hn, He.
  cbn [optSplitAt1]. split.
  - intros local domain -> Hl Hd.
    rewrite (splitAt1_at local domain Hl), (upToAt_all domain Hd).
    cbn [truthy]. now destruct (String.eqb domain "").
  - intros Ha. now rewrite (splitAt1_none address Ha).
Qed.


End MorePipelineFacts.

(* ================================================================== *)
(** * Properties of [gemini.js] *)

Module GeminiFacts.

Import GeminiJs.

Section Facts.

Variable host : Host.

Lemma after_nil (st : State) : after st [] = st.
Proof.
  destruct st as [n t]. unfold after. cbn [fetches trace List.length].
  now rewrite Nat.add_0_r, app_nil_r.
Qed.

Lemma after_app (st : State) (l1 l2 : list Request) :
  after (after st l1) l2 = after st (l1 ++ l2).
Proof.
  unfold after. cbn [fetches trace]. now rewrite List.length_app, Nat.add_assoc, app_assoc.
Qed.

Lemma doFetch_after (req : Request) env st :
  snd (doFetch req env st) = after st [req].
Proof. unfold doFetch, after. cbn [snd List.length]. now rewrite Nat.add_1_r. Qed.

(** The one request of a gateway call. *)
Lemma callGemini_state (p : Prompt) (u : bool) env st :
  snd (callGemini host p u env st) = after st [GeminiPost p u].
Proof.
  unfold callGemini, bind, await, lift, ret, throw.
  pose proof (doFetch_after (GeminiPost p u) env st) as Hf.
  destruct (doFetch (GeminiPost p u) env st) as [[response|e] st1]; cbn [snd] in Hf;
    subst st1; [|reflexivity].
  destruct (negb (ok response)). { destruct (settle (text response)); reflexivity. }
  destruct (settle (json response)) as [data|e]; [|reflexivity].
  destruct (get data "candidates") as [candidates|e]; [|reflexivity].
  destruct (negb (truthy _)); [reflexivity|].
  destruct (optGet _ "text"); try reflexivity.
  destruct (JSON_parse host _); reflexivity.
Qed.

(** X18.  The gateway call of [gemini.js] never retries: whatever the
    service answers (an error status, a cut or empty completion, text that
    does not parse, a network failure) it has sent exactly one request when
    it ends.  A revision is that one request, without the search tool. *)
Theorem gateway_call_is_one_request (p : Prompt) (u : bool) env st :
  snd (callGemini host p u env st) = after st [GeminiPost p u] /\
  forall currentTo currentSubject currentBody suggestion,
    snd (reviseEmailDraft host currentTo currentSubject currentBody suggestion env st)
    = after st [GeminiPost (RevisePrompt currentTo currentSubject currentBody suggestion)
                  false].
Proof. split; [|intros]; apply callGemini_state. Qed.

(** The four answers of the domain check. *)
Lemma verifyDomainExists_cases (domain : JSValue) env st :
  let mx := DnsGet (resolveUrl (ToString host domain) "MX") in
  let a := DnsGet (resolveUrl (ToString host domain) "A") in
  exists check asked,
    verifyDomainExists host domain env st = (Ok check, after st asked) /\
    ((check = {| exists_ := JBool true; hasMX := JBool true |} /\ asked = [mx]) \/
     (check = {| exists_ := JBool true; hasMX := JBool false |} /\ asked = [mx; a]) \/
     (check = {| exists_ := JBool false; hasMX := JBool false |} /\ asked = [mx; a]) \/
     (check = {| exists_ := JNull; hasMX := JNull |} /\ (asked = [mx] \/ asked = [mx; a]))).
Proof.
  intros mx a. unfold verifyDomainExists, try_catch, bind, await, lift, ret. fold mx a.
  pose proof (doFetch_after mx env st) as Hf.
  destruct (doFetch mx env st) as [[response|e] st1]; cbn [snd] in Hf; subst st1;
    [|do 2 eexists; split; [reflexivity|auto 10]].
  destruct (settle (json response)) as [data|e];
    [|do 2 eexists; split; [reflexivity|auto 10]].
  destruct (hasMailRecords host data) as [mail|e];
    [|do 2 eexists; split; [reflexivity|auto 10]].
  destruct (truthy mail); [do 2 eexists; split; [reflexivity|auto 10]|].
  pose proof (doFetch_after a env (after st [mx])) as Hg. rewrite after_app in Hg.
  destruct (doFetch a env (after st [mx])) as [[aResponse|e] st2]; cbn [snd] in Hg;
    subst st2; [|do 2 eexists; split; [reflexivity|cbn [app]; auto 10]].
  destruct (settle (json aResponse)) as [aData|e];
    [|do 2 eexists; split; [reflexivity|cbn [app]; auto 10]].
  destruct (hasMailRecords host aData) as [address|e];
    [|do 2 eexists; split; [reflexivity|cbn [app]; auto 10]].
  destruct (truthy address); do 2 eexists; (split; [reflexivity|cbn [app]; auto 10]).
Qed.

(** The answer of the condition on a body that is not [null]. *)
Lemma hasMailRecords_truthy (data : JSValue) :
  nullish data = false ->
  exists v,
    hasMailRecords host data = Ok v /\
    truthy v = isZero (getProp data "Status") && truthy (getProp data "Answer")
               && gtZero host (getProp (getProp data "Answer") "length").
Proof.
  intros Hn. unfold hasMailRecords, get, obind. rewrite Hn.
  destruct (isZero (getProp data "Status")); cbn [negb andb]; [|eauto].
  destruct (truthy (getProp data "Answer")) eqn:T; cbn [negb andb]; eauto.
Qed.

(** One query of the domain check, by what its answer shows. *)
Lemma query_reading {A} (req : Request) (k : JSValue -> M A) (h : Error -> M A) env st :
  let ask :=
    try_catch
      (bind (doFetch req) (fun response =>
         bind (await (json response)) (fun data =>
           bind (lift (hasMailRecords host data)) k)))
      h in
  match reading host (fetch env (fetches st) req) with
  | Unreadable => exists e, ask env st = h e env (after st [req])
  | Records =>
      exists v, truthy v = true /\
                ask env st = try_catch (k v) h env (after st [req])
  | NoRecords =>
      exists v, truthy v = false /\
                ask env st = try_catch (k v) h env (after st [req])
  end.
Proof.
  intros ask. unfold ask, reading, try_catch, bind, await, lift.
  pose proof (doFetch_after req env st) as Hf. unfold doFetch in *. cbn [snd] in Hf.
  rewrite Hf. destruct (fetch env (fetches st) req) as [response|m]; cbn [settle];
    [|eauto].
  destruct (json response) as [data|m]; cbn [settle]; [|eauto].
  destruct (nullish data) eqn:N.
  { unfold hasMailRecords, get, obind. rewrite N. eauto. }
  destruct (hasMailRecords_truthy data N) as (v & -> & Hv). rewrite <- Hv.
  destruct (truthy v) eqn:T; eauto.
Qed.

(** The domain check, by the answers of the resolver. *)
Lemma verifyDomainExists_reading (domain : JSValue) env st :
  verifyDomainExists host domain env st
  = match reading host (fetch env (fetches st) (mxQuery host domain)) with
    | Records =>
        (Ok {| exists_ := JBool true; hasMX := JBool true |},
         after st [mxQuery host domain])
    | Unreadable =>
        (Ok {| exists_ := JNull; hasMX := JNull |}, after st [mxQuery host domain])
    | NoRecords =>
        (Ok match reading host (fetch env (S (fetches st)) (aQuery host domain)) with
            | Records => {| exists_ := JBool true; hasMX := JBool false |}
            | NoRecords => {| exists_ := JBool false; hasMX := JBool false |}
            | Unreadable => {| exists_ := JNull; hasMX := JNull |}
            end,
         after st [mxQuery host domain; aQuery host domain])
    end.
Proof.
  unfold verifyDomainExists. fold (mxQuery host domain). fold (aQuery host domain).
  match goal with
  | |- try_catch (bind (doFetch ?req) (fun response =>
         bind (await (json response)) (fun data =>
           bind (lift (hasMailRecords host data)) ?k))) ?h env st = _ =>
      pose proof (query_reading req k h env st) as Hq
  end.
  cbv zeta in Hq.
  destruct (reading host (fetch env (fetches st) (mxQuery host domain))).
  - destruct Hq as (v & Hv & ->). now rewrite Hv.
  - destruct Hq as (v & Hv & ->). rewrite Hv.
    match goal with
    | |- try_catch (bind (doFetch ?req) (fun response =>
           bind (await (json response)) (fun data =>
             bind (lift (hasMailRecords host data)) ?k))) ?h env ?s = _ =>
        pose proof (query_reading req k h env s) as Hq
    end.
    cbv zeta in Hq. rewrite after_app in Hq.
    replace (fetches (after st [mxQuery host domain])) with (S (fetches st)) in Hq
      by (cbn; lia).
    cbn [app] in Hq.
    destruct (reading host (fetch env (S (fetches st)) (aQuery host domain))).
    + destruct Hq as (w & Hw & ->). now rewrite Hw.
    + destruct Hq as (w & Hw & ->). now rewrite Hw.
    + destruct Hq as (e & ->). reflexivity.
  - destruct Hq as (e & ->). reflexivity.
Qed.

(** X19.  The domain check never fails, and the answers of the resolver fix
    what it asks and what it answers.  It asks for the MX records first.
    When that answer shows records ([Status] 0 and a non-empty [Answer]),
    the check answers [{exists: true, hasMX: true}] without a second query.
    When it shows none, the check asks for the A records, and answers
    [{exists: true, hasMX: false}] when these are shown and
    [{exists: false, hasMX: false}] when they are not.  When a query fails
    or its body cannot be read, the check answers [null] twice; after a
    failed MX query no A query is sent. *)
Theorem domain_check_asks_mx_then_a (domain : JSValue) env st :
  let mx := DnsGet (resolveUrl (ToString host domain) "MX") in
  let a := DnsGet (resolveUrl (ToString host domain) "A") in
  verifyDomainExists host domain env st
  = match reading host (fetch env (fetches st) mx) with
    | Records => (Ok {| exists_ := JBool true; hasMX := JBool true |}, after st [mx])
    | Unreadable => (Ok {| exists_ := JNull; hasMX := JNull |}, after st [mx])
    | NoRecords =>
        (Ok match reading host (fetch env (S (fetches st)) a) with
            | Records => {| exists_ := JBool true; hasMX := JBool false |}
            | NoRecords => {| exists_ := JBool false; hasMX := JBool false |}
            | Unreadable => {| exists_ := JNull; hasMX := JNull |}
            end,
         after st [mx; a])
    end.
Proof. intros mx a. apply verifyDomainExists_reading. Qed.


Lemma includes_nonempty (needle s : string) :
  needle <> "" -> Str.includes needle s = true -> s <> "".
Proof.
  intros Hn H ->. destruct needle; [now apply Hn|]. discriminate.
Qed.

(** What the callers use of the domain check. *)
Lemma verifyDomainExists_dns (domain : JSValue) env st :
  exists check asked,
    verifyDomainExists host domain env st = (Ok check, after st asked) /\
    Forall isDns asked /\ List.length asked <= 2.
Proof.
  destruct (verifyDomainExists_cases domain env st) as (check & asked & E & H).
  exists check, asked. split; [exact E|].
  destruct H as [[_ ->]|[[_ ->]|[[_ ->]|[_ [->| ->]]]]];
    (split; [repeat constructor|cbn; lia]).
Qed.

(** The runs of the validation step that return. *)
Lemma validate_cases (to subject body : JSValue) (locationInfo : string) env st v st' :
  validateAndCorrectRouting host to subject body locationInfo env st = (Ok v, st') ->
  correctedSubject v = subject /\ correctedBody v = body /\
  exists asked,
    st' = after st asked /\
    if isValid v then
      correctedTo v = to /\ unverified v = false /\ Forall isDns asked /\
      List.length asked = 1
    else
      exists before domain later,
        asked = (before ++ [GeminiPost (CorrectionPrompt domain locationInfo to) true]
                   ++ later)%list /\
        Forall isDns before /\ Forall isDns later /\
        List.length before <= 2 /\ List.length later <= 2 /\
        if unverified v then correctedTo v = to
        else later <> [] /\
             exists address, correctedTo v = JStr address /\
                             Str.includes "@" address = true.
Proof.
  unfold validateAndCorrectRouting, bind, lift. intros H.
  destruct (includesAt to) as [hasAt|e]; [|discriminate].
  destruct (if hasAt then splitAt1 to else Ok (JStr "unknown")) as [emailDomain|e];
    [|discriminate].
  destruct (verifyDomainExists_cases emailDomain env st) as (check & asked & Hv & Hc).
  rewrite Hv in H.
  destruct (truthy (exists_ check) && truthy (hasMX check)) eqn:Hmx.
  { injection H as <- <-. cbn [correctedSubject correctedBody isValid correctedTo unverified].
    split; [reflexivity|]. split; [reflexivity|]. exists asked. split; [reflexivity|].
    destruct Hc as [[_ ->]|[[-> _]|[[-> _]|[-> _]]]]; try discriminate.
    repeat split; repeat constructor. }
  assert (Hd : Forall isDns asked /\ List.length asked <= 2).
  { destruct Hc as [[_ ->]|[[_ ->]|[[_ ->]|[_ [->| ->]]]]];
      (split; [repeat constructor|cbn; lia]). }
  destruct Hd as [Hd Hl].
  pose proof (callGemini_state (CorrectionPrompt emailDomain locationInfo to) true env
                (after st asked)) as Hs.
  destruct (callGemini host _ true env (after st asked)) as [[result|e] st2];
    [|discriminate].
  cbn [snd] in Hs. subst st2.
  destruct (get result "correctedTo") as [corrected|e]; [|discriminate].
  destruct (optIncludes host corrected (JStr "@")) as [correctedHasAt|e] eqn:Hi;
    [|discriminate].
  destruct (if truthy correctedHasAt then splitAt1 corrected else Ok JNull)
    as [correctedDomain|e] eqn:Hcd; [|discriminate].
  set (post := GeminiPost (CorrectionPrompt emailDomain locationInfo to) true) in *.
  assert (Hkeep : forall w, w = {| isValid := false; correctedTo := to;
                                    correctedSubject := subject; correctedBody := body;
                                    validationNote :=
      "Warning: Could not verify email domain. Please double-check the address.";
                                    unverified := true |} ->
            forall later, Forall isDns later -> List.length later <= 2 ->
            correctedSubject w = subject /\ correctedBody w = body /\
            exists asked0,
              after (after (after st asked) [post]) later = after st asked0 /\
              if isValid w then
                correctedTo w = to /\ unverified w = false /\ Forall isDns asked0 /\
                List.length asked0 = 1
              else
                exists before domain later0,
                  asked0 = (before ++ [GeminiPost (CorrectionPrompt domain locationInfo to) true]
                              ++ later0)%list /\
                  Forall isDns before /\ Forall isDns later0 /\
                  List.length before <= 2 /\ List.length later0 <= 2 /\
                  if unverified w then correctedTo w = to
                  else later0 <> [] /\
                       exists address, correctedTo w = JStr address /\
                                       Str.includes "@" address = true).
  { intros w -> later Hlater Hlen. cbn [correctedSubject correctedBody isValid unverified
                                          correctedTo].
    split; [reflexivity|]. split; [reflexivity|].
    exists (asked ++ [post] ++ later)%list. split; [now rewrite !after_app|].
    exists asked, emailDomain, later. auto 10. }
  destruct (truthy correctedDomain) eqn:Ht.
  - destruct (verifyDomainExists_dns correctedDomain env (after (after st asked) [post]))
      as (check2 & asked2 & Hv2 & Hd2 & Hl2).
    rewrite Hv2 in H.
    destruct (truthy (exists_ check2)) eqn:He.
    + injection H as <- <-.
      cbn [correctedSubject correctedBody isValid unverified correctedTo].
      split; [reflexivity|]. split; [reflexivity|].
      exists (asked ++ [post] ++ asked2)%list. split; [now rewrite !after_app|].
      exists asked, emailDomain, asked2. repeat (split; [assumption || reflexivity|]).
      split.
      { intros ->. destruct (verifyDomainExists_cases correctedDomain env
                              (after (after st asked) [post])) as (c & a & E & Hcases).
        rewrite E in Hv2. injection Hv2 as _ Ha _.
        assert (a = []) by (destruct a; [reflexivity|cbn [List.length] in Ha; lia]).
        subst a.
        destruct Hcases as [[_ F]|[[_ F]|[[_ F]|[_ [F|F]]]]]; discriminate. }
      destruct (truthy correctedHasAt) eqn:Hh.
      * destruct corrected as [| | | |address|elems|fields]; try discriminate.
        exists address. split; [reflexivity|].
        cbn [optIncludes] in Hi. injection Hi as <-. exact Hh.
      * injection Hcd as <-. discriminate.
    + injection H as <- <-. now apply Hkeep.
  - injection H as <- <-. rewrite <- (after_nil (after (after st asked) [post])).
    apply Hkeep; [reflexivity|constructor|cbn; lia].
Qed.

(** What the callers use of the domain check, by the answers of the
    resolver. *)
Lemma verifyDomainExists_summary (domain : JSValue) env st :
  exists check,
    verifyDomainExists host domain env st
    = (Ok check, after st (queriesOf host env (fetches st) domain)) /\
    truthy (exists_ check) = existsPerResolver host env (fetches st) domain /\
    (truthy (exists_ check) && truthy (hasMX check) = true <->
     reading host (fetch env (fetches st) (mxQuery host domain)) = Records).
Proof.
  rewrite verifyDomainExists_reading. unfold queriesOf, existsPerResolver.
  destruct (reading host (fetch env (fetches st) (mxQuery host domain)));
    [| destruct (reading host (fetch env (S (fetches st)) (aQuery host domain))) |];
    eexists; (split; [reflexivity|]); (split; [reflexivity|]);
    cbn; split; intros; congruence.
Qed.

Lemma includes_at_none (s : string) :
  Str.all (differsFrom "@") s = true -> Str.includes "@" s = false.
Proof.
  induction s as [|c s IH]; cbn [Str.all Str.includes]; [reflexivity|].
  unfold differsFrom at 1. intros H. apply andb_true_iff in H as [Hc Hs].
  apply negb_true_iff in Hc. rewrite (IH Hs), orb_false_r.
  cbn [prefix]. rewrite Ascii.eqb_sym in Hc. destruct (ascii_dec "@" c) as [E|E].
  - subst. now rewrite Ascii.eqb_refl in Hc.
  - reflexivity.
Qed.

(** X20.  The validation step never changes the subject or the body, and
    the address it returns is the original or one with an at sign.  Past
    the reading of the domain of the address, the answers of the resolver
    and of the completion service fix what it does.  When the MX answer for
    the domain shows records, it returns the address as valid after that
    one query, without a request to the completion service.  In every other
    case it sends, after the queries of the domain check, one request for a
    correction with the search tool, and fails when that request fails or
    answers [null].  A correction without an address, or with an address
    that has no at sign or nothing after it, gives the original back marked
    [unverified], with no further query; an address with a domain gives the
    corrected address when the resolver shows that domain to exist (MX or A
    records) and the original marked [unverified] when it does not. *)
Theorem validation_keeps_the_draft_and_corrects_the_address_only
    (to subject body : JSValue) (locationInfo : string) env st :
  let run := validateAndCorrectRouting host to subject body locationInfo env st in
  let original :=
    {| isValid := false; correctedTo := to; correctedSubject := subject;
       correctedBody := body;
       validationNote :=
         "Warning: Could not verify email domain. Please double-check the address.";
       unverified := true |} in
  (forall v st',
     run = (Ok v, st') ->
     correctedSubject v = subject /\ correctedBody v = body /\
     (correctedTo v = to \/
      exists address, correctedTo v = JStr address /\ Str.includes "@" address = true)) /\
  (forall emailDomain,
     emailDomainOf to = Ok emailDomain ->
     let mx := mxQuery host emailDomain in
     (reading host (fetch env (fetches st) mx) = Records ->
      run = (Ok {| isValid := true; correctedTo := to; correctedSubject := subject;
                   correctedBody := body;
                   validationNote :=
                     "Domain " ++ ToString host emailDomain
                       ++ " verified - has valid MX records";
                   unverified := false |},
             after st [mx])) /\
     (reading host (fetch env (fetches st) mx) <> Records ->
      let st1 := after st (queriesOf host env (fetches st) emailDomain) in
      let correction := CorrectionPrompt emailDomain locationInfo to in
      let st2 := after st1 [GeminiPost correction true] in
      (forall e,
         fst (callGemini host correction true env st1) = Throw e -> run = (Throw e, st2)) /\
      (forall result,
         fst (callGemini host correction true env st1) = Ok result ->
         (nullish result = true -> run = (Throw (TypeError "correctedTo"), st2)) /\
         (nullish result = false ->
          (nullish (getProp result "correctedTo") = true -> run = (Ok original, st2)) /\
          (forall address,
             getProp result "correctedTo" = JStr address ->
             (Str.all (differsFrom "@") address = true -> run = (Ok original, st2)) /\
             (forall local domain,
                address = local ++ "@" ++ domain ->
                Str.all (differsFrom "@") local = true ->
                Str.all (differsFrom "@") domain = true ->
                run = if String.eqb domain "" then (Ok original, st2)
                      else
                        (Ok (if existsPerResolver host env (fetches st2) (JStr domain)
                             then {| isValid := false; correctedTo := JStr address;
                                     correctedSubject := subject;
                                     correctedBody := body;
                                     validationNote :=
                                       "Original domain invalid. Corrected to " ++ domain
                                         ++ " (verified)";
                                     unverified := false |}
                             else original),
                         after st2 (queriesOf host env (fetches st2) (JStr domain))))))))).
Proof.
  intros run original. split.
  { intros v st' Hrun.
    destruct (validate_cases _ _ _ _ _ _ _ _ Hrun) as (Hs & Hb & asked & _ & Hcase).
    split; [exact Hs|]. split; [exact Hb|].
    destruct (isValid v).
    - left. tauto.
    - destruct Hcase as (before & domain & later & _ & _ & _ & _ & _ & Hu).
      destruct (unverified v); [now left|right; tauto]. }
  intros emailDomain Hdom mx.
  assert (Hrun : run
                 = bind (verifyDomainExists host emailDomain)
                     (fun domainCheck =>
                        if truthy (exists_ domainCheck) && truthy (hasMX domainCheck) then
                          ret {| isValid := true; correctedTo := to;
                                 correctedSubject := subject; correctedBody := body;
                                 validationNote :=
                                   "Domain " ++ ToString host emailDomain
                                     ++ " verified - has valid MX records";
                                 unverified := false |}
                        else
                          bind (callGemini host
                                  (CorrectionPrompt emailDomain locationInfo to) true)
                            (fun result =>
                               bind (lift (get result "correctedTo")) (fun corrected =>
                               bind (lift (optIncludes host corrected (JStr "@")))
                                 (fun correctedHasAt =>
                               bind (lift (if truthy correctedHasAt
                                           then splitAt1 corrected else Ok JNull))
                                 (fun correctedDomain =>
                                  if truthy correctedDomain then
                                    bind (verifyDomainExists host correctedDomain)
                                      (fun correctedCheck =>
                                         if truthy (exists_ correctedCheck) then
                                           ret {| isValid := false;
                                                  correctedTo := corrected;
                                                  correctedSubject := subject;
                                                  correctedBody := body;
                                                  validationNote :=
                                                    "Original domain invalid. Corrected to "
                                                      ++ ToString host correctedDomain
                                                      ++ " (verified)";
                                                  unverified := false |}
                                         else ret original)
                                  else ret original)))))
                     env st).
  { unfold run, validateAndCorrectRouting, emailDomainOf, obind in *.
    unfold bind at 1, lift at 1.
    destruct (includesAt to) as [hasAt|e]; [|discriminate].
    unfold bind at 1, lift at 1. now rewrite Hdom. }
  rename Hrun into R.
  destruct (verifyDomainExists_summary emailDomain env st) as (check & Hv & _ & Hmx).
  fold mx in Hmx. unfold bind at 1 in R. rewrite Hv in R. split.
  { intros Hr. rewrite R, (proj2 Hmx Hr). unfold ret, queriesOf. fold mx. now rewrite Hr. }
  intros Hr.
  assert (Hf : truthy (exists_ check) && truthy (hasMX check) = false).
  { apply not_true_is_false. intros E. apply Hmx in E. contradiction. }
  rewrite Hf in R. clear Hf Hmx Hv Hr check.
  intros st1 correction st2. fold st1 correction in R.
  pose proof (callGemini_state correction true env st1) as Hs. fold st2 in Hs.
  unfold bind at 1 in R.
  destruct (callGemini host correction true env st1) as [[result|e] sx];
    cbn [fst snd] in Hs |- *; subst sx.
  2: { split; [intros e' E; injection E as <-; exact R|intros result E; discriminate]. }
  split; [intros e E; discriminate|].
  intros result' E. injection E as <-.
  unfold bind at 1, lift at 1, get in R. split.
  { intros Hn. rewrite Hn in R. exact R. }
  intros Hn. rewrite Hn in R. split.
  { intros Hc. rewrite R. unfold bind, lift, ret.
    destruct (getProp result "correctedTo"); try discriminate; reflexivity. }
  intros address Ha. rewrite Ha in R.
  unfold bind at 1, lift at 1 in R. cbn [optIncludes ToString] in R. split.
  { intros Hno. rewrite (includes_at_none address Hno) in R. exact R. }
  intros local domain -> Hl Hd.
  assert (Hin : Str.includes "@" (local ++ "@" ++ domain) = true)
    by (apply StrFacts.includes_spec; eauto).
  rewrite Hin in R. cbn [truthy] in R. unfold bind at 1, lift at 1 in R.
  cbn [splitAt1] in R.
  rewrite (splitAt1_at local domain Hl), (upToAt_all domain Hd) in R.
  cbn [truthy] in R. destruct (String.eqb domain "") eqn:Ed; cbn [negb] in R;
    [exact R|].
  destruct (verifyDomainExists_summary (JStr domain) env st2) as (check & Hv & Hex & _).
  unfold bind in R. rewrite Hv, Hex in R. cbn [ToString] in R. rewrite R.
  now destruct (existsPerResolver host env (fetches st2) (JStr domain)).
Qed.

(** X21.  An address that is neither a string nor an array (a draft without
    a [to], for one) makes the validation step raise a TypeError before any
    request. *)
Theorem validation_needs_an_address
    (to subject body : JSValue) (locationInfo : string) env st :
  (forall s, to <> JStr s) -> (forall elems, to <> JArr elems) ->
  validateAndCorrectRouting host to subject body locationInfo env st
  = (Throw (TypeError "includes"), st).
Proof.
  intros Hs Ha. unfold validateAndCorrectRouting, bind, lift.
  destruct to; try reflexivity; [now destruct (Hs s)|now destruct (Ha elems)].
Qed.




(** The first statement of [generateEmailDraft] sends the location
    extraction request, or none. *)
Lemma locationOf_state (description : string) (location : JSValue) env st :
  snd (locationOf host description location env st)
  = after st (if truthy location then []
              else [GeminiPost (LocationPrompt description) false]).
Proof.
  unfold locationOf. destruct (truthy location); [cbn; now rewrite after_nil|].
  unfold bind, extractLocationFromDescription, lift, ret.
  pose proof (callGemini_state (LocationPrompt description) false env st) as Hs.
  destruct (callGemini host _ false env st) as [[extracted|e] st1]; cbn [snd] in Hs |- *;
    [|assumption].
  destruct (get extracted "hasExplicitLocation"); [|assumption].
  now destruct (_ && _).
Qed.


(** *** The number of requests *)

Lemma sends_after {A} (n : nat) (m : M A) :
  (forall env st, exists asked, snd (m env st) = after st asked /\ List.length asked <= n) ->
  sends n m.
Proof.
  intros H env st. destruct (H env st) as (asked & -> & Hn). cbn [after fetches]. lia.
Qed.

Lemma sends_ret {A} (a : A) : sends 0 (ret a).
Proof. intros env st. cbn. lia. Qed.

Lemma sends_lift {A} (o : Outcome A) : sends 0 (lift o).
Proof. intros env st. cbn. lia. Qed.

Lemma sends_weaken {A} (n n' : nat) (m : M A) : n <= n' -> sends n m -> sends n' m.
Proof. intros Hn H env st. specialize (H env st). lia. Qed.

Lemma sends_bind {A B} (n1 n2 : nat) (m : M A) (k : A -> M B) :
  sends n1 m -> (forall a, sends n2 (k a)) -> sends (n1 + n2) (bind m k).
Proof.
  intros Hm Hk env st. unfold bind. specialize (Hm env st).
  destruct (m env st) as [[a|e] st1]; cbn [snd] in *; [|lia].
  specialize (Hk a env st1). lia.
Qed.

Lemma sends_if {A} (n : nat) (b : bool) (m1 m2 : M A) :
  sends n m1 -> sends n m2 -> sends n (if b then m1 else m2).
Proof. now destruct b. Qed.

Lemma sends_callGemini (p : Prompt) (u : bool) : sends 1 (callGemini host p u).
Proof.
  apply sends_after. intros env st. eexists. split; [apply callGemini_state|cbn; lia].
Qed.

Lemma sends_verifyDomainExists (domain : JSValue) : sends 2 (verifyDomainExists host domain).
Proof.
  apply sends_after. intros env st.
  destruct (verifyDomainExists_dns domain env st) as (check & asked & E & _ & Hl).
  exists asked. now rewrite E.
Qed.

Lemma sends_validateAndCorrectRouting (to subject body : JSValue) (locationInfo : string) :
  sends 5 (validateAndCorrectRouting host to subject body locationInfo).
Proof.
  unfold validateAndCorrectRouting.
  apply (sends_bind 0 5); [apply sends_lift|intros hasAt].
  apply (sends_bind 0 5); [apply sends_lift|intros emailDomain].
  apply (sends_bind 2 3); [apply sends_verifyDomainExists|intros domainCheck].
  apply sends_if; [apply (sends_weaken 0); [lia|apply sends_ret]|].
  apply (sends_bind 1 2); [apply sends_callGemini|intros result].
  apply (sends_bind 0 2); [apply sends_lift|intros corrected].
  apply (sends_bind 0 2); [apply sends_lift|intros correctedHasAt].
  apply (sends_bind 0 2); [apply sends_lift|intros correctedDomain].
  apply sends_if; [|apply (sends_weaken 0); [lia|apply sends_ret]].
  apply (sends_bind 2 0); [apply sends_verifyDomainExists|intros correctedCheck].
  apply sends_if; apply sends_ret.
Qed.

(** X23.  One report of [gemini.js] costs at most seven requests: one for
    the location when no coordinates are given, one for the draft, at most
    two DNS queries for its domain, one for a correction and at most two
    DNS queries for the corrected domain. *)
Theorem report_costs_at_most_seven_requests
    (description : string) (location : JSValue) (hasPhoto : bool) :
  sends 7 (generateEmailDraft host description location hasPhoto).
Proof.
  unfold generateEmailDraft.
  apply (sends_bind 1 6).
  { apply sends_after. intros env st. eexists. split; [apply locationOf_state|].
    destruct (truthy location); cbn; lia. }
  intros [locationInfo locationContext].
  apply (sends_bind 1 5); [apply sends_callGemini|intros initialDraft].
  apply (sends_bind 0 5); [apply sends_lift|intros initialTo].
  apply (sends_bind 5 0); [apply sends_validateAndCorrectRouting|intros validation].
  apply sends_ret.
Qed.


End Facts.

End GeminiFacts.

(* ================================================================== *)
(** * Properties of the screens *)

Module TrimFacts.

Import Str.

Lemma trimStart_blank (s : string) : all isWhitespace s = true -> trimStart s = "".
Proof.
  induction s as [|c s IH]; cbn [all trimStart]; [reflexivity|].
  intros H. apply andb_true_iff in H as [-> Hs]. now apply IH.
Qed.

(** What [trimStart] leaves is empty or starts with a code unit that is not
    whitespace. *)
Lemma trimStart_head (s : string) :
  trimStart s = "" \/
  exists c r, trimStart s = String c r /\ isWhitespace c = false.
Proof.
  induction s as [|c s IH]; cbn [trimStart]; [now left|].
  destruct (isWhitespace c) eqn:E; [exact IH|]. right. now exists c, s.
Qed.

Lemma trimStart_empty (s : string) : trimStart s = "" -> all isWhitespace s = true.
Proof.
  induction s as [|c s IH]; cbn [all trimStart]; [reflexivity|].
  destruct (isWhitespace c); [exact IH|discriminate].
Qed.

Lemma trimEnd_idem (s : string) : trimEnd (trimEnd s) = trimEnd s.
Proof.
  induction s as [|c s IH]; [reflexivity|]. cbn [trimEnd].
  destruct (trimEnd s) as [|d r] eqn:E.
  - destruct (isWhitespace c) eqn:W; [reflexivity|]. cbn [trimEnd]. now rewrite W.
  - change (trimEnd (String c (String d r)))
      with (match trimEnd (String d r) with
            | EmptyString => if isWhitespace c then EmptyString else String c EmptyString
            | String a b => String c (String a b)
            end).
    now rewrite IH.
Qed.

(** [trimEnd] keeps a first code unit that is not whitespace. *)
Lemma trimEnd_head (c : ascii) (r : string) :
  isWhitespace c = false -> exists r', trimEnd (String c r) = String c r'.
Proof.
  intros W. cbn [trimEnd]. destruct (trimEnd r); [rewrite W|]; eauto.
Qed.

Lemma trim_idem (s : string) : trim (trim s) = trim s.
Proof.
  unfold trim. destruct (trimStart_head s) as [E|(c & r & E & W)]; rewrite E.
  - reflexivity.
  - destruct (trimEnd_head c r W) as (r' & E').
    rewrite E'. cbn [trimStart]. rewrite W, <- E'. apply trimEnd_idem.
Qed.

Lemma trim_blank (s : string) : trim s = "" <-> all isWhitespace s = true.
Proof.
  unfold trim. split.
  - intros H. apply trimStart_empty.
    destruct (trimStart_head s) as [E|(c & r & E & W)]; [exact E|].
    rewrite E in H. destruct (trimEnd_head c r W) as (r' & E'). congruence.
  - intros H. now rewrite (trimStart_blank s H).
Qed.

End TrimFacts.

Section ScreenFacts.

Variable host : Host.

(** X24.  The report screen never passes on a blank description: a
    description of whitespace only gives the alert and no request; any other
    is passed on trimmed (not empty, and with nothing left to trim), with
    the location and the photo as they are.  The press never fails: an error
    of the draft ends in the alert of the handler. *)
Theorem report_screen_submits_trimmed_description
    (description : string) (location photo : JSValue) env st :
  (Str.all Str.isWhitespace description = true ->
   App.handleSubmit description location photo = App.MissingDescription /\
   App.pressSubmit host description location photo env st = (Ok App.MissingAlert, st)) /\
  (Str.all Str.isWhitespace description = false ->
   let sent := Str.trim description in
   App.handleSubmit description location photo = App.OnSubmit sent location photo /\
   sent <> "" /\ Str.trim sent = sent /\
   App.pressSubmit host description location photo env st
   = App.handleReportSubmit host sent location photo env st) /\
  (exists shown,
     fst (App.pressSubmit host description location photo env st) = Ok shown /\
     forall e,
       shown = App.ErrorAlert e <->
       fst (GeminiJs.generateEmailDraft host (Str.trim description) location (truthy photo)
              env st) = Throw e /\
       Str.all Str.isWhitespace description = false).
Proof.
  unfold App.pressSubmit, App.handleSubmit. cbn [truthy].
  destruct (Str.all Str.isWhitespace description) eqn:H.
  - pose proof (proj2 (TrimFacts.trim_blank description) H) as E. rewrite E.
    cbn [String.eqb negb]. split; [now split|]. split; [discriminate|].
    eexists. split; [reflexivity|]. intros e. split; [discriminate|intros [_ F]; discriminate].
  - set (sent := Str.trim description).
    assert (Hne : sent <> "").
    { intros E. apply TrimFacts.trim_blank in E. congruence. }
    destruct (String.eqb sent "") eqn:E;
      [apply String.eqb_eq in E; contradiction|].
    cbn [negb]. split; [discriminate|]. split.
    { intros _. repeat split; [assumption|apply TrimFacts.trim_idem]. }
    unfold App.handleReportSubmit, GeminiJs.try_catch, GeminiJs.bind, GeminiJs.ret.
    destruct (GeminiJs.generateEmailDraft host sent location _ env st) as [[d|e] st1];
      cbn [fst]; eexists; (split; [reflexivity|]); intros e'.
    + split; [discriminate|intros [F _]; discriminate].
    + split; [intros F; injection F as <-; now split|intros [F _]; now injection F as <-].
Qed.

(** X25.  The email screen never asks for a revision with a blank
    suggestion: whitespace only sends nothing; any other suggestion is sent
    trimmed, with the address, the subject and the body as displayed, in
    one request without the search tool, and the press never fails. *)
Theorem email_screen_sends_trimmed_suggestion
    (to subject body suggestion : string) env st :
  (Str.all Str.isWhitespace suggestion = true ->
   App.pressApply host to subject body suggestion env st = (Ok App.Nothing, st)) /\
  (Str.all Str.isWhitespace suggestion = false ->
   let sent := Str.trim suggestion in
   sent <> "" /\ Str.trim sent = sent /\
   exists shown,
     App.pressApply host to subject body suggestion env st
     = (Ok shown,
        GeminiJs.after st [GeminiJs.GeminiPost (GeminiJs.RevisePrompt to subject body sent)
                             false])).
Proof.
  unfold App.pressApply, App.handleSuggest. cbn [truthy]. split.
  - intros H. apply TrimFacts.trim_blank in H. now rewrite H.
  - intros H. set (sent := Str.trim _).
    assert (Hne : sent <> "").
    { intros E. apply TrimFacts.trim_blank in E. congruence. }
    destruct (String.eqb sent "") eqn:E;
      [apply String.eqb_eq in E; contradiction|].
    cbn [negb].
    split; [assumption|]. split; [apply TrimFacts.trim_idem|].
    unfold App.handleRevise, GeminiJs.try_catch, GeminiJs.bind, GeminiJs.ret,
      GeminiJs.reviseEmailDraft.
    cbn [App.currentTo App.currentSubject App.currentBody App.suggestion].
    pose proof (GeminiFacts.callGemini_state host
                  (GeminiJs.RevisePrompt to subject body sent) false env st) as Hs.
    destruct (GeminiJs.callGemini host _ false env st) as [[v|e] st1]; cbn [snd] in Hs;
      subst st1; eexists; reflexivity.
Qed.

End ScreenFacts.

(** ** The further properties on the scenarios *)

(** X2 on a reply that wraps the object in prose. *)
Lemma cleanup_extracts_object_from_prose :
  cleanup "Sure: {ok} done." = "{ok}".
Proof. apply (cleanup_extracts_object "Sure: " "ok" " done."); reflexivity. Defined.

(** X3 on a fenced reply. *)
Lemma cleanup_strips_fence_of_fenced_reply :
  cleanup "```json {ok} ```" = "{ok}".
Proof. apply (cleanup_strips_fence " " "ok" " "); reflexivity. Defined.

(** X5 on a candidate written in capitals. *)
Lemma relevance_ignores_case_of_capitals :
  isDepartmentRelevant Scenario.host (JStr "Pothole") (JStr "TOURISM Office") (JStr "")
  = isDepartmentRelevant Scenario.host (JStr "pothole") (JStr "tourism office") (JStr "").
Proof.
  apply (relevance_ignores_case Scenario.host "Pothole" "pothole" "TOURISM Office"
           "tourism office" "" ""); reflexivity.
Defined.

(** X6 on a numeric topic. *)
Lemma relevance_of_numeric_topic :
  isDepartmentRelevant Scenario.host (JNum (Finite 5)) (JStr "Public Works") JUndefined
  = Throw (TypeError "toLowerCase").
Proof.
  apply (relevance_needs_string_topic Scenario.host (JNum (Finite 5)) (JStr "Public Works")
           JUndefined); [discriminate|left; reflexivity].
Defined.

(** X7 on a service that answers in prose. *)
Lemma malformed_output_on_prose_replies :
  callGemini Scenario.host (TopicPrompt "Big pothole") false 0 Cases.unparseable initial
  = (Throw (Thrown "Failed to parse JSON response: Unexpected token"),
     {| fetches := 4; randoms := 0;
        trace :=
          [ EvFetch (GeminiPost (TopicPrompt "Big pothole") false);
            EvFetch (GeminiPost (FixPrompt (TopicPrompt "Big pothole")) false);
            EvFetch (GeminiPost (FixPrompt (FixPrompt (TopicPrompt "Big pothole"))) false);
            EvFetch (GeminiPost
                       (FixPrompt (FixPrompt (FixPrompt (TopicPrompt "Big pothole"))))
                       false) ] |}).
Proof.
  apply (malformed_output_is_reprompted_three_times Scenario.host (TopicPrompt "Big pothole")
           false Cases.unparseable initial "Unexpected token"); [|reflexivity].
  intros n req. eexists. exists "I cannot help with that".
  split; [reflexivity|]. split; [|reflexivity].
  split; [reflexivity|]. eexists. repeat split; try reflexivity. discriminate.
Defined.

(** X8 on a service whose every reply is cut. *)
Lemma truncated_text_on_always_cut_service :
  callGemini Scenario.host (GuessPrompt "Palo Alto, CA" (JStr "pothole")) false 0
    Cases.alwaysCut initial
  = (Ok Scenario.guessReply,
     {| fetches := 6; randoms := 0;
        trace := repeat (EvFetch (GeminiPost (GuessPrompt "Palo Alto, CA" (JStr "pothole"))
                                    false)) 6 |}).
Proof.
  apply (truncated_text_is_used_after_last_retry Scenario.host
           (GuessPrompt "Palo Alto, CA" (JStr "pothole")) false Cases.alwaysCut initial
           Scenario.guessReply).
  intros n req. eexists. exists (Scenario.stringify Scenario.guessReply).
  split; [reflexivity|]. split; [|reflexivity].
  split; [reflexivity|]. eexists. repeat split; try reflexivity. discriminate.
Defined.

(** X9 on a device that is offline: the message of the failure decides. *)
Lemma network_failure_on_offline_device :
  fetches (snd (callGemini Scenario.host (TopicPrompt "Big pothole") false 0
                  (Cases.offline "Failed to fetch") initial)) = 6 /\
  fetches (snd (callGemini Scenario.host (TopicPrompt "Big pothole") false 0
                  (Cases.offline "Network request failed") initial)) = 1.
Proof.
  split.
  - rewrite (proj1 (network_failure_is_retried_by_its_message Scenario.host
                      (TopicPrompt "Big pothole") false (Cases.offline "Failed to fetch")
                      initial "Failed to fetch" (fun _ _ => eq_refl)) eq_refl).
    reflexivity.
  - rewrite (proj2 (network_failure_is_retried_by_its_message Scenario.host
                      (TopicPrompt "Big pothole") false
                      (Cases.offline "Network request failed")
                      initial "Network request failed" (fun _ _ => eq_refl)) eq_refl).
    reflexivity.
Defined.

(** X10 on a service that answers HTTP 500. *)
Lemma http_error_on_server_error :
  callGemini Scenario.host (TopicPrompt "Big pothole") false 0 Cases.serverError initial
  = (Throw (Thrown "Gemini API error: 500 — Internal error"),
     afterFetch initial (GeminiPost (TopicPrompt "Big pothole") false)).
Proof.
  apply (proj1 (http_error_is_terminal_unless_it_mentions_fetch Scenario.host
                  (TopicPrompt "Big pothole") false 0 Cases.serverError initial
                  (Scenario.http 500 "Internal error" (Rejected "Unexpected token"))
                  "Internal error" eq_refl eq_refl eq_refl eq_refl)).
  reflexivity.
Defined.

(** X11 on the rate-limited service. *)
Lemma gateway_call_waits_on_rate_limited_service :
  exists delta,
    trace (snd (callGemini Scenario.host (TopicPrompt "Big pothole") false 0
                  Scenario.rateLimited initial)) = (trace initial ++ delta)%list /\
    List.length (timers delta) <= 5 /\
    (total (timers delta) <= 40300)%Q.
Proof.
  apply (gateway_call_waits_at_most_forty_seconds Scenario.host (TopicPrompt "Big pothole")
           false Scenario.rateLimited initial).
  intros n. cbn [random Scenario.rateLimited]. lra.
Defined.

(** X14 on the agency scenario, with and without mail records. *)
Lemma dns_answer_on_agency_scenario :
  sameButDns
    (fst (generateEmailDraft Scenario.host "Big pothole" Scenario.malformedLocation false
            (Scenario.answering Scenario.agencyFound Scenario.mxFound) initial))
    (fst (generateEmailDraft Scenario.host "Big pothole" Scenario.malformedLocation false
            (Scenario.answering Scenario.agencyFound Scenario.mxMissing) initial)) /\
  snd (generateEmailDraft Scenario.host "Big pothole" Scenario.malformedLocation false
         (Scenario.answering Scenario.agencyFound Scenario.mxFound) initial)
  = snd (generateEmailDraft Scenario.host "Big pothole" Scenario.malformedLocation false
           (Scenario.answering Scenario.agencyFound Scenario.mxMissing) initial).
Proof.
  apply (dns_answer_only_sets_dns_verified Scenario.host
           (Scenario.answering Scenario.agencyFound Scenario.mxFound)
           (Scenario.answering Scenario.agencyFound Scenario.mxMissing)).
  split; intros; reflexivity.
Defined.

(** X15 on coordinates and a rate-limited service. *)
Lemma geocoding_failure_on_rate_limited_service :
  exists st',
    determineJurisdiction Scenario.host "Big pothole" Cases.stanford Scenario.rateLimited
      initial = (Ok DEFAULT_JURISDICTION, st').
Proof.
  destruct (geocoding_failure_falls_back_to_default Scenario.host "Big pothole"
              Cases.stanford Scenario.rateLimited initial eq_refl eq_refl eq_refl)
    as (jurisdiction & Hrun & Hdefault).
  eexists. rewrite Hrun. rewrite (Hdefault (Thrown "API error 429 after 5 retries")).
  - reflexivity.
  - vm_compute. reflexivity.
Defined.

(** X16 on a report without location and a rate-limited service. *)
Lemma location_extraction_failure_on_rate_limited_service :
  exists st',
    generateEmailDraft Scenario.host "Big pothole" JNull false Scenario.rateLimited initial
    = (Throw (Thrown "API error 429 after 5 retries"), st').
Proof.
  eexists.
  apply (location_extraction_failure_fails_the_report Scenario.host "Big pothole" JNull
           false Scenario.rateLimited initial); [reflexivity|].
  vm_compute. reflexivity.
Defined.

(** X17 on the candidate of the scenarios. *)
Lemma dns_check_of_the_scenario_candidate :
  dnsCheck Scenario.host Scenario.publicWorks
    (Scenario.answering Scenario.agencyFound Scenario.mxFound) initial
  = checkDomainMX Scenario.host "city.gov"
      (Scenario.answering Scenario.agencyFound Scenario.mxFound) initial.
Proof.
  apply (proj1 (dns_check_queries_the_domain_of_the_address Scenario.host
                  Scenario.publicWorks "streets@city.gov"
                  (Scenario.answering Scenario.agencyFound Scenario.mxFound) initial
                  eq_refl eq_refl) "streets" "city.gov"); reflexivity.
Defined.

(** X20 on a draft whose domain has mail records, and on one whose domain
    the resolver does not know and whose correction it does not know
    either. *)
Lemma validation_of_a_verified_address :
  (exists st',
     GeminiJs.validateAndCorrectRouting GeminiCases.host (JStr "streets@city.gov")
       (JStr "Pothole") (JStr "Hello") GeminiJs.DEFAULT_LOCATION
       (GeminiCases.answering Scenario.mxFound) GeminiJs.initial
     = (Ok {| GeminiJs.isValid := true;
              GeminiJs.correctedTo := JStr "streets@city.gov";
              GeminiJs.correctedSubject := JStr "Pothole";
              GeminiJs.correctedBody := JStr "Hello";
              GeminiJs.validationNote := "Domain city.gov verified - has valid MX records";
              GeminiJs.unverified := false |}, st')) /\
  (exists st',
     GeminiJs.validateAndCorrectRouting GeminiCases.host (JStr "streets@city.gov")
       (JStr "Pothole") (JStr "Hello") GeminiJs.DEFAULT_LOCATION
       (GeminiCases.answering Scenario.mxMissing) GeminiJs.initial
     = (Ok {| GeminiJs.isValid := false;
              GeminiJs.correctedTo := JStr "streets@city.gov";
              GeminiJs.correctedSubject := JStr "Pothole";
              GeminiJs.correctedBody := JStr "Hello";
              GeminiJs.validationNote :=
                "Warning: Could not verify email domain. Please double-check the address.";
              GeminiJs.unverified := true |}, st')).
Proof.
  split.
  - destruct (GeminiFacts.validation_keeps_the_draft_and_corrects_the_address_only
                GeminiCases.host (JStr "streets@city.gov") (JStr "Pothole") (JStr "Hello")
                GeminiJs.DEFAULT_LOCATION (GeminiCases.answering Scenario.mxFound)
                GeminiJs.initial) as [_ Htable].
    destruct (Htable (JStr "city.gov") eq_refl) as [Hvalid _].
    eexists. apply Hvalid. reflexivity.
  - destruct (GeminiFacts.validation_keeps_the_draft_and_corrects_the_address_only
                GeminiCases.host (JStr "streets@city.gov") (JStr "Pothole") (JStr "Hello")
                GeminiJs.DEFAULT_LOCATION (GeminiCases.answering Scenario.mxMissing)
                GeminiJs.initial) as [_ Htable].
    destruct (Htable (JStr "city.gov") eq_refl) as [_ Hother].
    destruct (Hother ltac:(discriminate)) as [_ Hreply].
    destruct (Hreply GeminiCases.correction eq_refl) as [_ Hobject].
    destruct (Hobject eq_refl) as [_ Haddress].
    destruct (Haddress "info@city.gov" eq_refl) as [_ Hdomain].
    eexists. rewrite (Hdomain "info" "city.gov" eq_refl eq_refl eq_refl).
    vm_compute. reflexivity.
Defined.

(** X21 on a draft without a recipient. *)
Lemma validation_of_a_missing_address :
  GeminiJs.validateAndCorrectRouting GeminiCases.host JUndefined (JStr "Pothole")
    (JStr "Hello") GeminiJs.DEFAULT_LOCATION (GeminiCases.answering Scenario.mxFound)
    GeminiJs.initial
  = (Throw (TypeError "includes"), GeminiJs.initial).
Proof.
  apply (GeminiFacts.validation_needs_an_address GeminiCases.host); discriminate.
Defined.

